(** * Vault: a collectible-card portfolio tracker

    A shallow embedding of the portfolio core of the [vault] package:
    - [vault/database.py]: the item store, the price time series and the
      snapshot aggregator (SQLite tables and queries);
    - [vault/importer.py]: the sealed/card classifier and the CSV import loop;
    - [vault/cli.py]: the store updates of the price refresh;
    - [vault/web.py]: the analytics engine and the recommendation heuristics.

    Modelling conventions.
    - A table is the list of its rows in rowid order; a query is a list
      comprehension over it.  SQL [NULL] is [None].
    - A SQLite [REAL] or Python [float] value is the rational it denotes
      ([Q]); infinities and NaN are outside the model, and Python's [==] on
      numbers is [Qeq].  The sums, products and quotients of the store and
      of the analysis are taken exactly.  The recommendation heuristics
      compare their own quotients with thresholds and print them: there
      every operation is rounded to binary64 ([fl]), as the interpreter
      rounds it.
    - A SQLite [INTEGER] is a signed 64-bit value: binding a Python [int]
      outside that range raises [OverflowError], and an integer [SUM] whose
      running total leaves it raises [OperationalError].
    - SQLite's [CURRENT_TIMESTAMP] text (['YYYY-MM-DD HH:MM:SS'], compared as
      text by the queries) is the number of seconds it denotes: for this
      fixed-width format the two orders coincide.  [datetime('now','-1 day')]
      is therefore [now - 86400].
    - Python and SQLite exceptions are the [Raise] results of a small error
      monad; the clock is an explicit argument of every call that reads it.
    - Python [str] is [string], the UTF-8 bytes of the text.  [str.lower]
      is Unicode-aware and is left abstract ([Lower]): all that is used of
      it is that on ASCII text it lowers the letters A to Z.
    - [sorted] is a stable insertion sort; [ORDER BY i.name] is served from
      the UNIQUE index of the item table, so rows of one name come in the
      order of that index.
    - Reading the CSV file, the pricing API, progress callbacks and all
      rendering are outside the model: [import_csv] starts from the row
      dicts, the refresh from the result of the lookup. *)

From Stdlib Require Import ZArith QArith Qround Qabs List String Ascii Bool.
From Stdlib Require Import DecimalString.
From Stdlib Require Import Lia Lqa Permutation Sorted.
Import ListNotations.

Open Scope string_scope.
Open Scope Z_scope.

(** ** Python and SQL values *)

Inductive exn : Type :=
| ZeroDivisionError
| IntegrityError
| OverflowError
| OperationalError.

Inductive result (A : Type) : Type :=
| Ok (a : A)
| Raise (e : exn).

Arguments Ok {A} a.
Arguments Raise {A} e.

Definition bind {A B : Type} (m : result A) (k : A -> result B) : result B :=
  match m with
  | Ok a => k a
  | Raise e => Raise e
  end.

Declare Scope result_scope.
Delimit Scope result_scope with result.
Notation "x <- m ;; k" := (bind m (fun x => k))
  (at level 100, m at next level, right associativity) : result_scope.
Notation "' p <- m ;; k" := (bind m (fun p => k))
  (at level 100, p pattern, m at next level, right associativity)
  : result_scope.
Open Scope result_scope.

(** Python truthiness of the values the code tests. *)
Definition truthy_q (x : Q) : bool := negb (Qeq_bool x 0).

Definition truthy_oq (x : option Q) : bool :=
  match x with
  | Some v => truthy_q v
  | None => false
  end.

Definition truthy_str (s : string) : bool :=
  match s with
  | EmptyString => false
  | String _ _ => true
  end.

(** [x or 0], and [x if x else 0], on an optional number. *)
Definition or_zero (x : option Q) : Q :=
  match x with
  | Some v => if truthy_q v then v else 0%Q
  | None => 0%Q
  end.

(** [s or None] on a string. *)
Definition or_none (s : string) : option string :=
  if truthy_str s then Some s else None.

(** [x < y] on numbers. *)
Definition Qltb (x y : Q) : bool := negb (Qle_bool y x).

(** [x / y] on floats: a zero divisor raises. *)
Definition py_div (x y : Q) : result Q :=
  if Qeq_bool y 0 then Raise ZeroDivisionError else Ok (x / y)%Q.

(** The SQL [IS] operator on nullable text: NULL-safe equality. *)
Definition sql_is (a b : option string) : bool :=
  match a, b with
  | None, None => true
  | Some x, Some y => String.eqb x y
  | _, _ => false
  end.

(** The SQL [SUM] aggregate: NULL over no rows. *)
Definition Qsum (l : list Q) : Q := fold_left Qplus l 0%Q.

Definition sql_sum (l : list Q) : option Q :=
  match l with
  | [] => None
  | _ :: _ => Some (Qsum l)
  end.

(** The values of SQLite's INTEGER storage class. *)
Definition int64 (n : Z) : bool := (- 2 ^ 63 <=? n) && (n <? 2 ^ 63).

(** The SQL [SUM] aggregate over INTEGER values: NULL over no rows, and
    the error "integer overflow" once a running total, taken in scan
    order, leaves 64 bits. *)
Fixpoint sum_int_from (acc : Z) (l : list Z) : result Z :=
  match l with
  | [] => Ok acc
  | x :: l' =>
      if int64 (acc + x) then sum_int_from (acc + x) l'
      else Raise OperationalError
  end.

Definition sql_sum_int (l : list Z) : result (option Z) :=
  match l with
  | [] => Ok None
  | _ :: _ => v <- sum_int_from 0 l ;; Ok (Some v)
  end.

(** The SQL [MAX] aggregate: NULL over no rows. *)
Definition sql_max (l : list Z) : option Z :=
  match l with
  | [] => None
  | x :: r => Some (fold_left Z.max r x)
  end.

Definition int_of_bool (b : bool) : Z := if b then 1 else 0.

(** ** binary64 arithmetic *)

(** Round to the nearest integer, ties to even. *)
Definition round_half_even (x : Q) : Z :=
  let f := Qfloor x in
  let r := (x - inject_Z f)%Q in
  if Qltb r (1 # 2) then f
  else if Qltb (1 # 2) r then f + 1
  else if Z.even f then f else f + 1.

(** [2^k] for an integer [k] of either sign. *)
Definition pow2 (k : Z) : Q :=
  if 0 <=? k then inject_Z (2 ^ k) else 1 # Z.to_pos (2 ^ (- k)).

(** The binade of [x > 0]: the [e] with [2^e <= x < 2^(e+1)]. *)
Definition binade (x : Q) : Z :=
  let e := Z.log2 (Qnum x) - Z.log2 (Zpos (Qden x)) in
  if Qle_bool (pow2 e) x then e else e - 1.

(** The binary64 value nearest to [x], ties to even: 53 significant bits,
    or fewer below [2^-1022].  A result past the largest finite float
    stands for the infinity the interpreter produces; the code below only
    compares such a result with a threshold, which comes out the same. *)
Definition fl (x : Q) : Q :=
  if Qeq_bool x 0 then 0%Q
  else
    let q := Z.max (binade (Qabs x) - 52) (- 1074) in
    Qred (inject_Z (round_half_even (x / pow2 q)) * pow2 q).

(** Python's [-], [*] and [/] on floats: the exact result, rounded; a
    zero divisor raises. *)
Definition fsub (x y : Q) : Q := fl (x - y).

Definition fmul (x y : Q) : Q := fl (x * y).

Definition fdiv (x y : Q) : result Q :=
  if Qeq_bool y 0 then Raise ZeroDivisionError else Ok (fl (x / y)).

(** ** Text *)

(** The letters A to Z, lowered. *)
Definition ascii_lower_char (c : ascii) : ascii :=
  let n := nat_of_ascii c in
  if (65 <=? n)%nat && (n <=? 90)%nat then ascii_of_nat (n + 32) else c.

Fixpoint ascii_lowercase (s : string) : string :=
  match s with
  | EmptyString => EmptyString
  | String c s' => String (ascii_lower_char c) (ascii_lowercase s')
  end.

Fixpoint is_ascii (s : string) : bool :=
  match s with
  | EmptyString => true
  | String c s' => (nat_of_ascii c <? 128)%nat && is_ascii s'
  end.

(** [str.lower]: any function that lowers ASCII text as above. *)
Class Lower : Type := {
  lower : string -> string;
  lower_on_ascii : forall s, is_ascii s = true -> lower s = ascii_lowercase s
}.

(** A byte that continues a UTF-8 sequence rather than starting one. *)
Definition is_continuation (c : ascii) : bool :=
  let n := nat_of_ascii c in (128 <=? n)%nat && (n <? 192)%nat.

(** [s[:n]]: the first [n] characters of the text. *)
Fixpoint take_chars (n : nat) (s : string) : string :=
  match s with
  | EmptyString => EmptyString
  | String c s' =>
      if is_continuation c then String c (take_chars n s')
      else match n with
           | O => EmptyString
           | S n' => String c (take_chars n' s')
           end
  end.

(** ** The schema ([init_db]) *)

(** The two formats written to [created_at] / [updated_at]. *)
Inductive stamp : Type :=
| SqlStamp (seconds : Z)        (* DEFAULT CURRENT_TIMESTAMP *)
| IsoStamp (text : string).     (* datetime.now().isoformat() *)

Module Item.
Record t : Type := mk {
  id : Z;
  name : string;
  set_name : option string;
  card_number : option string;
  rarity : option string;
  variance : option string;
  quantity : Z;
  cost_basis : option Q;
  is_sealed : Z;
  api_id : option string;
  portfolio_name : option string;
  grade : option string;
  condition : option string;
  notes : option string;
  date_added : option string;
  created_at : stamp;
  updated_at : stamp
}.
End Item.

Module Price.
Record t : Type := mk {
  id : Z;
  item_id : Z;
  price : Q;
  timestamp : Z
}.
End Price.

(** The store: both tables with their AUTOINCREMENT counters. *)
Record DB : Type := mkDB {
  items : list Item.t;
  items_seq : Z;
  prices : list Price.t;
  prices_seq : Z
}.

Definition empty_db : DB := mkDB [] 0 [] 0.

(** The wall clock read by one call. *)
Record Clock : Type := mkClock {
  sql_now : Z;          (* CURRENT_TIMESTAMP, in seconds *)
  iso_now : string      (* datetime.now().isoformat() *)
}.

(** The keyword arguments of [upsert_item]. *)
Module Upsert.
Record args : Type := mk {
  name : string;
  set_name : option string;
  card_number : option string;
  rarity : option string;
  variance : option string;
  quantity : Z;
  cost_basis : option Q;
  is_sealed : bool;
  api_id : option string;
  portfolio_name : option string;
  grade : option string;
  condition : option string;
  notes : option string;
  date_added : option string
}.
End Upsert.

(** ** The item store ([database.py]) *)

(** The [WHERE] clause of the lookup in [upsert_item]. *)
Definition key_match (a : Upsert.args) (r : Item.t) : bool :=
  String.eqb (Item.name r) (Upsert.name a)
  && sql_is (Item.set_name r) (Upsert.set_name a)
  && sql_is (Item.card_number r) (Upsert.card_number a)
  && sql_is (Item.variance r) (Upsert.variance a)
  && sql_is (Item.grade r) (Upsert.grade a)
  && sql_is (Item.condition r) (Upsert.condition a).

(** [cursor.fetchone()] on [SELECT id FROM items WHERE ...]. *)
Definition select_item_id (a : Upsert.args) (db : DB) : option Z :=
  match filter (key_match a) (items db) with
  | [] => None
  | r :: _ => Some (Item.id r)
  end.

(** [COALESCE(x, y)]. *)
Definition coalesce {A : Type} (x y : option A) : option A :=
  match x with
  | Some _ => x
  | None => y
  end.

(** The [SET] list of the [UPDATE] in [upsert_item]. *)
Definition set_upsert (a : Upsert.args) (clk : Clock) (r : Item.t) : Item.t :=
  Item.mk (Item.id r) (Item.name r) (Item.set_name r) (Item.card_number r)
    (Upsert.rarity a) (Item.variance r) (Upsert.quantity a)
    (Upsert.cost_basis a) (int_of_bool (Upsert.is_sealed a))
    (coalesce (Upsert.api_id a) (Item.api_id r))
    (Upsert.portfolio_name a) (Item.grade r) (Item.condition r)
    (Upsert.notes a) (Upsert.date_added a)
    (Item.created_at r) (IsoStamp (iso_now clk)).

(** [UPDATE items SET ... WHERE id = ?]. *)
Definition update_where_id (item_id : Z) (f : Item.t -> Item.t)
    (l : list Item.t) : list Item.t :=
  map (fun r => if Item.id r =? item_id then f r else r) l.

(** The [UNIQUE(name, set_name, card_number, variance, grade, condition)]
    constraint: two rows collide when all six columns are non-NULL and
    equal (SQLite keeps NULLs distinct in a UNIQUE index). *)
Definition sql_eq (a b : option string) : bool :=
  match a, b with
  | Some x, Some y => String.eqb x y
  | _, _ => false
  end.

Definition unique_collision (n r : Item.t) : bool :=
  String.eqb (Item.name r) (Item.name n)
  && sql_eq (Item.set_name r) (Item.set_name n)
  && sql_eq (Item.card_number r) (Item.card_number n)
  && sql_eq (Item.variance r) (Item.variance n)
  && sql_eq (Item.grade r) (Item.grade n)
  && sql_eq (Item.condition r) (Item.condition n).

(** AUTOINCREMENT: one more than the largest rowid ever used. *)
Definition next_rowid (seq : Z) (ids : list Z) : Z :=
  fold_left Z.max ids seq + 1.

(** The row built by the [INSERT] in [upsert_item]; [created_at] and
    [updated_at] take their column defaults. *)
Definition new_item (a : Upsert.args) (clk : Clock) (rowid : Z) : Item.t :=
  Item.mk rowid (Upsert.name a) (Upsert.set_name a) (Upsert.card_number a)
    (Upsert.rarity a) (Upsert.variance a) (Upsert.quantity a)
    (Upsert.cost_basis a) (int_of_bool (Upsert.is_sealed a))
    (Upsert.api_id a) (Upsert.portfolio_name a) (Upsert.grade a)
    (Upsert.condition a) (Upsert.notes a) (Upsert.date_added a)
    (SqlStamp (sql_now clk)) (SqlStamp (sql_now clk)).

(** Binding the parameters of a statement: [quantity] is the one Python
    [int] the caller chooses, and it must fit the INTEGER class. *)
Definition bind_quantity (a : Upsert.args) : result unit :=
  if int64 (Upsert.quantity a) then Ok tt else Raise OverflowError.

Definition insert_item (a : Upsert.args) (clk : Clock) (db : DB)
    : result (Z * DB) :=
  _ <- bind_quantity a ;;
  let rowid := next_rowid (items_seq db) (map Item.id (items db)) in
  let n := new_item a clk rowid in
  if existsb (unique_collision n) (items db) then Raise IntegrityError
  else Ok (rowid, mkDB (items db ++ [n]) rowid (prices db) (prices_seq db)).

(** The lookup, then the [UPDATE] of the row found or the [INSERT] of a
    new one.  A statement that raises has written nothing, and the
    connection is dropped without a commit. *)
Definition upsert_item (a : Upsert.args) (clk : Clock) (db : DB)
    : result (Z * DB) :=
  match select_item_id a db with
  | Some item_id =>
      _ <- bind_quantity a ;;
      Ok (item_id,
          mkDB (update_where_id item_id (set_upsert a clk) (items db))
               (items_seq db) (prices db) (prices_seq db))
  | None => insert_item a clk db
  end.

(** [INSERT INTO prices (item_id, price)]: the timestamp is the column
    default, the current second. *)
Definition record_price (item_id : Z) (price : Q) (clk : Clock) (db : DB)
    : DB :=
  let rowid := next_rowid (prices_seq db) (map Price.id (prices db)) in
  mkDB (items db) (items_seq db)
       (prices db ++ [Price.mk rowid item_id price (sql_now clk)]) rowid.

Definition set_api_id (v : string) (clk : Clock) (r : Item.t) : Item.t :=
  Item.mk (Item.id r) (Item.name r) (Item.set_name r) (Item.card_number r)
    (Item.rarity r) (Item.variance r) (Item.quantity r) (Item.cost_basis r)
    (Item.is_sealed r) (Some v) (Item.portfolio_name r) (Item.grade r)
    (Item.condition r) (Item.notes r) (Item.date_added r)
    (Item.created_at r) (IsoStamp (iso_now clk)).

Definition update_item_api_id (item_id : Z) (v : string) (clk : Clock)
    (db : DB) : DB :=
  mkDB (update_where_id item_id (set_api_id v clk) (items db))
       (items_seq db) (prices db) (prices_seq db).

Definition set_cost_basis (v : Q) (clk : Clock) (r : Item.t) : Item.t :=
  Item.mk (Item.id r) (Item.name r) (Item.set_name r) (Item.card_number r)
    (Item.rarity r) (Item.variance r) (Item.quantity r) (Some v)
    (Item.is_sealed r) (Item.api_id r) (Item.portfolio_name r) (Item.grade r)
    (Item.condition r) (Item.notes r) (Item.date_added r)
    (Item.created_at r) (IsoStamp (iso_now clk)).

(** Returns [cursor.rowcount > 0] with the new store. *)
Definition update_item_cost_basis (item_id : Z) (v : Q) (clk : Clock)
    (db : DB) : bool * DB :=
  (existsb (fun r => Item.id r =? item_id) (items db),
   mkDB (update_where_id item_id (set_cost_basis v clk) (items db))
        (items_seq db) (prices db) (prices_seq db)).

(** ** The price time series and the snapshot aggregator ([database.py]) *)

(** [p.timestamp = (SELECT MAX(timestamp) ...)]: never true against NULL. *)
Definition ts_is (p : Price.t) (m : option Z) : bool :=
  match m with
  | Some t => Price.timestamp p =? t
  | None => false
  end.

(** [SELECT MAX(timestamp) FROM prices WHERE item_id = ? AND <cond>]. *)
Definition max_timestamp (db : DB) (item_id : Z) (cond : Price.t -> bool)
    : option Z :=
  sql_max (map Price.timestamp
             (filter (fun p => (Price.item_id p =? item_id) && cond p)
                     (prices db))).

(** [LEFT JOIN]: the matching rows, or one all-NULL row when none match. *)
Definition left_join {A : Type} (matching : list A) : list (option A) :=
  match matching with
  | [] => [None]
  | _ :: _ => map Some matching
  end.

(** The two [LEFT JOIN]s of [get_all_items] for the item row [item_id]:
    [p1] at the item's latest timestamp, [p2] at its latest timestamp
    strictly before [p1]'s. *)
Definition join_prices (db : DB) (item_id : Z)
    : list (option Price.t * option Price.t) :=
  flat_map
    (fun p1 =>
       let before :=
         match p1 with
         | Some c =>
             max_timestamp db item_id
               (fun p => Price.timestamp p <? Price.timestamp c)
         | None => None
         end in
       map (pair p1)
         (left_join
            (filter (fun p => (Price.item_id p =? item_id) && ts_is p before)
                    (prices db))))
    (left_join
       (filter
          (fun p => (Price.item_id p =? item_id)
                    && ts_is p (max_timestamp db item_id (fun _ => true)))
          (prices db))).

(** A row of [get_all_items]: [i.*] with the three joined columns. *)
Module Row.
Record t : Type := mk {
  item : Item.t;
  current_price : option Q;
  price_timestamp : option Z;
  previous_price : option Q
}.
End Row.

Definition mk_row (i : Item.t) (j : option Price.t * option Price.t)
    : Row.t :=
  Row.mk i (option_map Price.price (fst j))
           (option_map Price.timestamp (fst j))
           (option_map Price.price (snd j)).

(** A stable insertion sort: [x] goes in front of the first element it
    may precede, so equal elements keep their order. *)
Section Sorting.
Variable A : Type.
Variable before : A -> A -> bool.

Fixpoint insert_sorted (x : A) (s : list A) : list A :=
  match s with
  | [] => [x]
  | c :: s' => if before x c then x :: c :: s' else c :: insert_sorted x s'
  end.

Definition insertion_sort (l : list A) : list A :=
  fold_right insert_sorted [] l.
End Sorting.

Arguments insert_sorted {A} before x s.
Arguments insertion_sort {A} before l.

(** The BINARY collation on nullable text: NULL first, then byte order. *)
Definition text_compare (a b : option string) : comparison :=
  match a, b with
  | None, None => Eq
  | None, Some _ => Lt
  | Some _, None => Gt
  | Some x, Some y => String.compare x y
  end.

Definition and_then (c d : comparison) : comparison :=
  match c with
  | Eq => d
  | _ => c
  end.

(** The order of the index behind
    [UNIQUE(name, set_name, card_number, variance, grade, condition)]. *)
Definition index_compare (x y : Item.t) : comparison :=
  and_then (String.compare (Item.name x) (Item.name y))
    (and_then (text_compare (Item.set_name x) (Item.set_name y))
       (and_then (text_compare (Item.card_number x) (Item.card_number y))
          (and_then (text_compare (Item.variance x) (Item.variance y))
             (and_then (text_compare (Item.grade x) (Item.grade y))
                (text_compare (Item.condition x) (Item.condition y)))))).

(** [ORDER BY i.name].  SQLite serves it by walking that index, whose
    first column is the name: rows of one name come in index order, and
    rows of one index key in rowid order, which is their order in the
    table. *)
Definition order_by_name (l : list Row.t) : list Row.t :=
  insertion_sort
    (fun x c =>
       match index_compare (Row.item x) (Row.item c) with
       | Gt => false
       | _ => true
       end)
    l.

Definition get_all_items (db : DB) : list Row.t :=
  order_by_name
    (flat_map (fun i => map (mk_row i) (join_prices db (Item.id i)))
              (items db)).

(** [FROM items i JOIN prices p ON i.id = p.item_id
     WHERE p.timestamp = (subquery on i)]. *)
Definition join_at (db : DB) (sub : Item.t -> option Z)
    : list (Item.t * Price.t) :=
  flat_map
    (fun i =>
       map (pair i)
         (filter (fun p => (Item.id i =? Price.item_id p) && ts_is p (sub i))
                 (prices db)))
    (items db).

(** [i.quantity * p.price]. *)
Definition position_value (ip : Item.t * Price.t) : Q :=
  (inject_Z (Item.quantity (fst ip)) * Price.price (snd ip))%Q.

(** [SELECT SUM(i.quantity * p.price) ...] at each item's latest
    timestamp. *)
Definition select_total_value (db : DB) : option Q :=
  sql_sum
    (map position_value
       (join_at db (fun i => max_timestamp db (Item.id i) (fun _ => true)))).

(** The same sum at each item's latest timestamp before
    [datetime('now', '-1 day')]. *)
Definition select_prev_value (db : DB) (now : Z) : option Q :=
  sql_sum
    (map position_value
       (join_at db
          (fun i =>
             max_timestamp db (Item.id i)
               (fun p => Price.timestamp p <? now - 86400)))).

(** [SELECT SUM(quantity * cost_basis) FROM items
     WHERE cost_basis IS NOT NULL]. *)
Definition select_total_cost (db : DB) : option Q :=
  sql_sum
    (flat_map
       (fun i =>
          match Item.cost_basis i with
          | Some c => [(inject_Z (Item.quantity i) * c)%Q]
          | None => []
          end)
       (items db)).

Module Stats.
Record t : Type := mk {
  item_count : Z;
  total_quantity : option Z;
  sealed_count : option Z;
  card_count : option Z;
  total_value : Q;
  total_cost : Q;
  prev_value : Q;
  daily_change : Q;
  daily_change_pct : Q;
  total_profit : option Q
}.
End Stats.

Definition get_summary_stats (db : DB) (now : Z) : result Stats.t :=
  let item_count := Z.of_nat (List.length (items db)) in
  total_quantity <- sql_sum_int (map Item.quantity (items db)) ;;
  sealed_count <-
    sql_sum_int
      (map (fun i => if Item.is_sealed i =? 1 then 1 else 0) (items db)) ;;
  card_count <-
    sql_sum_int
      (map (fun i => if Item.is_sealed i =? 0 then 1 else 0) (items db)) ;;
  let total_value := or_zero (select_total_value db) in
  let total_cost := or_zero (select_total_cost db) in
  let prev_value :=
    match select_prev_value db now with
    | Some v => if truthy_q v then v else total_value
    | None => total_value
    end in
  daily_change_pct <-
    (if truthy_q prev_value
     then x <- py_div (total_value - prev_value)%Q prev_value ;;
          Ok (x * 100)%Q
     else Ok 0%Q) ;;
  Ok (Stats.mk item_count total_quantity sealed_count card_count
        total_value total_cost prev_value
        (total_value - prev_value)%Q
        daily_change_pct
        (if truthy_q total_cost then Some (total_value - total_cost)%Q
         else None)).

(** ** The importer ([importer.py]) *)

(** [needle in hay] on strings. *)
Fixpoint str_in (needle hay : string) : bool :=
  String.prefix needle hay
  || match hay with
     | EmptyString => false
     | String _ hay' => str_in needle hay'
     end.

Definition sealed_keywords : list string :=
  ["sealed"; "booster"; "box"; "pack"; "etb"; "elite trainer";
   "collection"; "tin"; "bundle"; "case"; "display"].

(** [s or ""] on an optional string. *)
Definition or_empty (s : option string) : string :=
  match s with
  | Some v => v
  | None => ""
  end.

Definition is_sealed_product {L : Lower}
    (category product_name : option string) : bool :=
  let category_lower := lower (or_empty category) in
  let name_lower := lower (or_empty product_name) in
  if str_in "sealed" category_lower then true
  else existsb (fun keyword => str_in keyword name_lower) sealed_keywords.

(** A normalized row dict as [read_csv] yields it. *)
Module CsvRow.
Record t : Type := mk {
  portfolio_name : string;
  category : string;
  set_name : string;
  name : string;
  card_number : string;
  rarity : string;
  variance : string;
  grade : string;
  condition : string;
  cost_basis : option Q;
  quantity : Z;
  market_price : option Q;
  price_override : option Q;
  date_added : string;
  notes : string
}.
End CsvRow.

(** The keyword arguments [import_csv] passes to [upsert_item]; [api_id]
    keeps its default. *)
Definition upsert_args_of_row (row : CsvRow.t) (is_sealed : bool)
    : Upsert.args :=
  Upsert.mk (CsvRow.name row)
    (or_none (CsvRow.set_name row))
    (or_none (CsvRow.card_number row))
    (or_none (CsvRow.rarity row))
    (or_none (CsvRow.variance row))
    (CsvRow.quantity row)
    (CsvRow.cost_basis row)
    is_sealed
    None
    (or_none (CsvRow.portfolio_name row))
    (or_none (CsvRow.grade row))
    (or_none (CsvRow.condition row))
    (or_none (CsvRow.notes row))
    (or_none (CsvRow.date_added row)).

(** [row["price_override"] or row["market_price"]]. *)
Definition initial_price (row : CsvRow.t) : option Q :=
  if truthy_oq (CsvRow.price_override row) then CsvRow.price_override row
  else CsvRow.market_price row.

(** [if price and price > 0: database.record_price(item_id, price)]. *)
Definition record_initial_price (item_id : Z) (price : option Q)
    (clk : Clock) (db : DB) : DB :=
  match price with
  | Some v =>
      if truthy_q v && Qltb 0 v then record_price item_id v clk db else db
  | None => db
  end.

Module ImportStats.
Record t : Type := mk {
  total : Z;
  imported : Z;
  updated : Z;
  cards : Z;
  sealed : Z;
  errors : list string
}.
End ImportStats.

(** [str(n)] on an integer. *)
Definition str_of_int (n : Z) : string :=
  NilZero.string_of_int (Z.to_int n).

(** [str(e)] on the exceptions of the model. *)
Definition str_of_exn (e : exn) : string :=
  match e with
  | ZeroDivisionError => "float division by zero"
  | IntegrityError =>
      "UNIQUE constraint failed: items.name, items.set_name, "
      ++ "items.card_number, items.variance, items.grade, items.condition"
  | OverflowError => "Python int too large to convert to SQLite INTEGER"
  | OperationalError => "integer overflow"
  end.

Definition add_error (msg : string) (st : ImportStats.t) : ImportStats.t :=
  ImportStats.mk (ImportStats.total st) (ImportStats.imported st)
    (ImportStats.updated st) (ImportStats.cards st) (ImportStats.sealed st)
    (ImportStats.errors st ++ [msg])%list.

Definition add_imported (is_sealed : bool) (st : ImportStats.t)
    : ImportStats.t :=
  ImportStats.mk (ImportStats.total st) (ImportStats.imported st + 1)
    (ImportStats.updated st)
    (if is_sealed then ImportStats.cards st else ImportStats.cards st + 1)
    (if is_sealed then ImportStats.sealed st + 1 else ImportStats.sealed st)
    (ImportStats.errors st).

(** One iteration of the loop of [import_csv] on row number [i] (from 0).
    [clk_upsert] and [clk_price] are the clock at the two store calls.  A
    failed [upsert_item] is caught and leaves the store as it was. *)
Definition import_row {L : Lower} (i : Z) (row : CsvRow.t)
    (clk_upsert clk_price : Clock) (st : ImportStats.t) (db : DB)
    : ImportStats.t * DB :=
  if negb (truthy_str (CsvRow.name row)) then
    (add_error ("Row " ++ str_of_int (i + 1) ++ ": Missing product name") st,
     db)
  else
    let is_sealed :=
      is_sealed_product (Some (CsvRow.category row))
                        (Some (CsvRow.name row)) in
    match upsert_item (upsert_args_of_row row is_sealed) clk_upsert db with
    | Ok (item_id, db1) =>
        (add_imported is_sealed st,
         record_initial_price item_id (initial_price row) clk_price db1)
    | Raise e =>
        (add_error ("Row " ++ str_of_int (i + 1) ++ " ("
                    ++ CsvRow.name row ++ "): " ++ str_of_exn e) st,
         db)
    end.

Fixpoint import_rows {L : Lower} (i : Z) (rows : list CsvRow.t)
    (clock : Z -> Clock * Clock) (st : ImportStats.t) (db : DB)
    : ImportStats.t * DB :=
  match rows with
  | [] => (st, db)
  | row :: rows' =>
      let '(st1, db1) :=
        import_row i row (fst (clock i)) (snd (clock i)) st db in
      import_rows (i + 1) rows' clock st1 db1
  end.

(** [import_csv] on the rows [read_csv] yields; [clock i] is the clock at
    the two store calls of row [i]. *)
Definition import_csv {L : Lower} (rows : list CsvRow.t)
    (clock : Z -> Clock * Clock) (db : DB) : ImportStats.t * DB :=
  import_rows 0 rows clock
    (ImportStats.mk (Z.of_nat (List.length rows)) 0 0 0 0 []) db.

(** ** The price refresh ([cli.py]) *)

Definition truthy_ostr (s : option string) : bool :=
  match s with
  | Some v => truthy_str v
  | None => false
  end.

(** The body of the loop of [update] once [api.lookup_and_price_card] has
    returned [(api_id, price)] for [item], a row read when the loop
    started. *)
Definition update_card (item : Item.t) (api_id : option string)
    (price : option Q) (clk clk' : Clock) (db : DB) : DB :=
  match price with
  | Some v =>
      let db1 :=
        match api_id with
        | Some a =>
            if truthy_str a && negb (truthy_ostr (Item.api_id item))
            then update_item_api_id (Item.id item) a clk db
            else db
        | None => db
        end in
      record_price (Item.id item) v clk' db1
  | None => db
  end.

(** ** The analytics engine ([web.py]) *)

(** An item dict after the loop of [analyze_portfolio] has added the
    derived keys.  The dicts are shared by [items], [cards], [sealed] and
    every sorted view, so the derived keys are visible through all of them:
    the model derives first and filters afterwards. *)
Module AItem.
Record t : Type := mk {
  row : Row.t;
  total_value : Q;
  change : Q;
  change_pct : Q;
  total_cost : Q;
  pnl : option Q;
  pnl_pct : option Q
}.
End AItem.

Definition analyze_item (r : Row.t) : result AItem.t :=
  let i := Row.item r in
  let quantity := inject_Z (Item.quantity i) in
  let total_value := (or_zero (Row.current_price r) * quantity)%Q in
  ' (change, change_pct) <-
    match Row.previous_price r, Row.current_price r with
    | Some previous, Some current =>
        if truthy_q previous && truthy_q current then
          let change := (current - previous)%Q in
          x <- py_div change previous ;;
          Ok (change, (x * 100)%Q)
        else Ok (0%Q, 0%Q)
    | _, _ => Ok (0%Q, 0%Q)
    end ;;
  let total_cost := (or_zero (Item.cost_basis i) * quantity)%Q in
  ' (pnl, pnl_pct) <-
    match Item.cost_basis i, Row.current_price r with
    | Some cost, Some current =>
        if truthy_q cost && Qltb 0 cost && truthy_q current then
          x <- py_div (current - cost)%Q cost ;;
          Ok (Some (total_value - total_cost)%Q, Some (x * 100)%Q)
        else Ok (None, None)
    | _, _ => Ok (None, None)
    end ;;
  Ok (AItem.mk r total_value change change_pct total_cost pnl pnl_pct).

Fixpoint map_result {A B : Type} (f : A -> result B) (l : list A)
    : result (list B) :=
  match l with
  | [] => Ok []
  | x :: l' =>
      y <- f x ;;
      r <- map_result f l' ;;
      Ok (y :: r)
  end.

(** [sorted(l, key=key, reverse=reverse)]: stable in both directions. *)
Definition sorted_by {A : Type} (key : A -> Q) (reverse : bool)
    (l : list A) : list A :=
  insertion_sort
    (fun x c =>
       if reverse then Qle_bool (key c) (key x) else Qle_bool (key x) (key c))
    l.

(** [(part / total * 100) if total else 0]. *)
Definition pct_of (part total : Q) : result Q :=
  if truthy_q total then
    x <- py_div part total ;;
    Ok (x * 100)%Q
  else Ok 0%Q.

(** [x or 0] on a number. *)
Definition or_zero_q (x : Q) : Q := if truthy_q x then x else 0%Q.

Definition is_sealed_item (x : AItem.t) : bool :=
  negb (Item.is_sealed (Row.item (AItem.row x)) =? 0).

Definition pnl_pct_key (x : AItem.t) : Q :=
  match AItem.pnl_pct x with
  | Some v => v
  | None => 0%Q
  end.

Module SetAgg.
Record t : Type := mk {
  count : Z;
  value : Q
}.
End SetAgg.

(** The per-set dict, in insertion order. *)
Fixpoint sets_add (set_name : string) (quantity : Z) (value : Q)
    (sets : list (string * SetAgg.t)) : list (string * SetAgg.t) :=
  match sets with
  | [] => [(set_name, SetAgg.mk (0 + quantity) (0 + value)%Q)]
  | (k, agg) :: sets' =>
      if String.eqb k set_name then
        (k, SetAgg.mk (SetAgg.count agg + quantity)
                      (SetAgg.value agg + value)%Q) :: sets'
      else (k, agg) :: sets_add set_name quantity value sets'
  end.

Definition sets_of (l : list AItem.t) : list (string * SetAgg.t) :=
  fold_left
    (fun sets x =>
       let i := Row.item (AItem.row x) in
       let set_name :=
         match Item.set_name i with
         | Some s => if truthy_str s then s else "Unknown"
         | None => "Unknown"
         end in
       sets_add set_name (Item.quantity i) (AItem.total_value x) sets)
    l [].

Module Part.
Record t : Type := mk {
  count : Z;
  value : Q;
  pct : Q
}.
End Part.

Module Analysis.
Record t : Type := mk {
  error : option string;
  total_value : Q;
  total_cost : Q;
  total_profit : option Q;
  item_count : Z;
  total_quantity : option Z;
  daily_change : Q;
  daily_change_pct : Q;
  cards : Part.t;
  sealed : Part.t;
  top_5_value : Q;
  top_5_pct : Q;
  top_holdings : list AItem.t;
  gainers : list AItem.t;
  losers : list AItem.t;
  best : list AItem.t;
  worst : list AItem.t;
  sets : list (string * SetAgg.t);
  items : list AItem.t
}.
End Analysis.

Definition empty_analysis : Analysis.t :=
  Analysis.mk (Some "No items in portfolio") 0 0 None 0 (Some 0) 0 0
    (Part.mk 0 0 0) (Part.mk 0 0 0) 0 0 [] [] [] [] [] [] [].

(** The body of [analyze_portfolio] on the results of
    [database.get_all_items()] and [database.get_summary_stats()]. *)
Definition analyze (rows : list Row.t) (stats : Stats.t)
    : result Analysis.t :=
  match rows with
  | [] => Ok empty_analysis
  | _ :: _ =>
      items <- map_result analyze_item rows ;;
      let cards := filter (fun x => negb (is_sealed_item x)) items in
      let sealed := filter is_sealed_item items in
      let total_value := or_zero_q (Stats.total_value stats) in
      let cards_value := Qsum (map AItem.total_value cards) in
      let sealed_value := Qsum (map AItem.total_value sealed) in
      let sorted_by_value := sorted_by AItem.total_value true items in
      let top_5_value :=
        Qsum (map AItem.total_value (firstn 5 sorted_by_value)) in
      top_5_pct <- pct_of top_5_value total_value ;;
      let with_changes :=
        filter (fun x => negb (Qeq_bool (AItem.change_pct x) 0)) items in
      let gainers :=
        firstn 5
          (sorted_by AItem.change_pct true
             (filter (fun x => Qltb 0 (AItem.change_pct x)) with_changes)) in
      let losers :=
        firstn 5
          (sorted_by AItem.change_pct false
             (filter (fun x => Qltb (AItem.change_pct x) 0) with_changes)) in
      let with_pnl :=
        filter (fun x => match AItem.pnl_pct x with
                         | Some _ => true
                         | None => false
                         end) items in
      let best_pnl := firstn 5 (sorted_by pnl_pct_key true with_pnl) in
      let worst_pnl := firstn 5 (sorted_by pnl_pct_key false with_pnl) in
      let sets := sets_of items in
      cards_pct <- pct_of cards_value total_value ;;
      sealed_pct <- pct_of sealed_value total_value ;;
      Ok (Analysis.mk None
            total_value
            (or_zero_q (Stats.total_cost stats))
            (Stats.total_profit stats)
            (Stats.item_count stats)
            (Stats.total_quantity stats)
            (Stats.daily_change stats)
            (Stats.daily_change_pct stats)
            (Part.mk (Z.of_nat (List.length cards)) cards_value cards_pct)
            (Part.mk (Z.of_nat (List.length sealed)) sealed_value sealed_pct)
            top_5_value top_5_pct (firstn 10 sorted_by_value)
            gainers losers best_pnl worst_pnl
            (firstn 10
               (sorted_by (fun kv => SetAgg.value (snd kv)) true sets))
            items)
  end.

Definition analyze_portfolio (db : DB) (now : Z) : result Analysis.t :=
  let items := get_all_items db in
  stats <- get_summary_stats db now ;;
  analyze items stats.

(** ** The recommendation heuristics ([web.py]) *)

Module Rec.
Record t : Type := mk {
  type : string;
  title : string;
  message : string;
  icon : string
}.
End Rec.

(** [f"{x:.0f}"] on the float of value [x]. *)
Definition fmt_0f (x : Q) : string :=
  let n := round_half_even x in
  if (n =? 0) && Qltb x 0 then "-0" else str_of_int n.

Definition has_cost_basis (x : AItem.t) : bool :=
  truthy_oq (Item.cost_basis (Row.item (AItem.row x))).

(** The health score with the issues it collects; [cost_coverage] is
    computed on the way and used again below. *)
Definition portfolio_health (analysis : Analysis.t)
    : result (Z * list string * Q) :=
  let health := 100 in
  let issues := [] in
  let '(health, issues) :=
    if Qltb 60 (Analysis.top_5_pct analysis)
    then (health - 20,
          (issues ++ ["High concentration in top holdings"])%list)
    else (health, issues) in
  let items_with_cost :=
    Z.of_nat (List.length (filter has_cost_basis (Analysis.items analysis))) in
  cost_coverage <-
    match Analysis.items analysis with
    | _ :: _ =>
        fdiv (inject_Z items_with_cost)
             (inject_Z (Z.of_nat (List.length (Analysis.items analysis))))
    | [] => Ok 0%Q
    end ;;
  let '(health, issues) :=
    if Qltb cost_coverage (1 # 2)
    then (health - 15,
          (issues ++ ["Missing cost basis on many items"])%list)
    else (health, issues) in
  let sealed_pct := Part.pct (Analysis.sealed analysis) in
  let '(health, issues) :=
    if Qltb 80 sealed_pct
    then (health - 10,
          (issues ++ ["Portfolio heavily weighted to sealed"])%list)
    else (health, issues) in
  health <-
    (if truthy_q (Analysis.total_cost analysis)
        && Qltb 0 (Analysis.total_cost analysis)
     then
       x <- fdiv (fsub (Analysis.total_value analysis)
                       (Analysis.total_cost analysis))
                 (Analysis.total_cost analysis) ;;
       let roi := fmul x 100 in
       if Qltb 20 roi then Ok (Z.min 100 (health + 10))
       else if Qltb roi (-10) then Ok (health - 10)
       else Ok health
     else Ok health) ;;
  Ok (health, issues, cost_coverage).

Definition health_entry (health : Z) (issues : list string) : Rec.t :=
  Rec.mk
    (if 80 <=? health then "success"
     else if 60 <=? health then "warning" else "danger")
    ("Portfolio Health: " ++ str_of_int health ++ "/100")
    (if 80 <=? health then "Excellent diversification and tracking!"
     else "Areas to improve: " ++ String.concat ", " (firstn 2 issues))
    (if 80 <=? health then "trophy" else "alert-triangle").

Definition item_name (x : AItem.t) : string :=
  Item.name (Row.item (AItem.row x)).

Definition momentum_entries (analysis : Analysis.t) : list Rec.t :=
  let gainers_count := Z.of_nat (List.length (Analysis.gainers analysis)) in
  let losers_count := Z.of_nat (List.length (Analysis.losers analysis)) in
  if losers_count <? gainers_count then
    [Rec.mk "success" "Positive Momentum"
       (str_of_int gainers_count ++ " items rising vs "
        ++ str_of_int losers_count
        ++ " falling. Market favoring your holdings.")
       "trending-up"]
  else if (gainers_count <? losers_count) && (3 <? losers_count) then
    [Rec.mk "warning" "Market Pressure"
       (str_of_int losers_count
        ++ " items declining. Consider reviewing weak positions.")
       "trending-down"]
  else [].

Definition profit_entries (analysis : Analysis.t) : list Rec.t :=
  flat_map
    (fun item =>
       match AItem.pnl_pct item with
       | Some p =>
           if truthy_q p && Qltb 50 p then
             [Rec.mk "success"
                ("Take Profits? " ++ take_chars 22 (item_name item) ++ "...")
                ("Up " ++ fmt_0f p
                 ++ "% from cost. Consider locking in gains.")
                "dollar-sign"]
           else []
       | None => []
       end)
    (firstn 2 (Analysis.best analysis)).

Definition loss_entries (analysis : Analysis.t) : list Rec.t :=
  flat_map
    (fun item =>
       match AItem.pnl_pct item with
       | Some p =>
           if truthy_q p && Qltb p (-25) then
             [Rec.mk "danger"
                ("Review: " ++ take_chars 22 (item_name item) ++ "...")
                ("Down " ++ fmt_0f (Qabs p)
                 ++ "% from cost. Hold conviction or cut losses?")
                "alert-circle"]
           else []
       | None => []
       end)
    (firstn 1 (Analysis.worst analysis)).

Definition concentration_entries (analysis : Analysis.t) : list Rec.t :=
  if Qltb 50 (Analysis.top_5_pct analysis) then
    [Rec.mk "warning" "Concentration Risk"
       ("Top 5 holdings = " ++ fmt_0f (Analysis.top_5_pct analysis)
        ++ "% of portfolio. Consider diversifying.")
       "pie-chart"]
  else [].

Definition cost_entries (cost_coverage : Q) : list Rec.t :=
  if Qltb cost_coverage (fl (7 # 10)) then
    [Rec.mk "info" "Track Your Costs"
       ("Only " ++ fmt_0f (fmul cost_coverage 100)
        ++ "% of items have cost basis. Add costs for accurate P&L.")
       "edit"]
  else [].

Definition get_started : Rec.t :=
  Rec.mk "info" "Get Started" "Import your collection to see insights."
    "rocket".

Definition generate_recommendations (analysis : Analysis.t)
    : result (list Rec.t) :=
  if Qeq_bool (Analysis.total_value analysis) 0 then Ok [get_started]
  else
    ' (health, issues, cost_coverage) <- portfolio_health analysis ;;
    Ok (firstn 6
          ([health_entry health issues]
           ++ momentum_entries analysis
           ++ profit_entries analysis
           ++ loss_entries analysis
           ++ concentration_entries analysis
           ++ cost_entries cost_coverage)%list).

(** ** Point reads of the store ([database.py]) *)

(** [SELECT * FROM items WHERE id = ?] with [fetchone]. *)
Definition get_item_by_id (item_id : Z) (db : DB) : option Item.t :=
  match filter (fun r => Item.id r =? item_id) (items db) with
  | [] => None
  | r :: _ => Some r
  end.

(** A row of [get_price_history]. *)
Module History.
Record t : Type := mk {
  price : Q;
  timestamp : Z
}.
End History.

(** [LIMIT ?]: a negative bound means no bound. *)
Definition sql_limit {A : Type} (limit : Z) (l : list A) : list A :=
  if limit <? 0 then l else firstn (Z.to_nat limit) l.

(** [SELECT price, timestamp FROM prices WHERE item_id = ?
     ORDER BY timestamp DESC LIMIT ?]. *)
Definition get_price_history (item_id : Z) (limit : Z) (db : DB)
    : list History.t :=
  sql_limit limit
    (map (fun p => History.mk (Price.price p) (Price.timestamp p))
       (insertion_sort
          (fun x c => Price.timestamp c <=? Price.timestamp x)
          (filter (fun p => Price.item_id p =? item_id) (prices db)))).

(** ** The terminal views ([cli.py]) *)

(** The rows [list] and [movers] build from [database.get_all_items()],
    with the keys they add. *)
Module Entry.
Record t : Type := mk {
  row : Row.t;
  total_value : Q;
  change : Q;
  change_pct : Q
}.
End Entry.

Module Mover.
Record t : Type := mk {
  row : Row.t;
  change : Q;
  change_pct : Q
}.
End Mover.

(** The loop of [list_cmd] on one row. *)
Definition list_entry (r : Row.t) : result Entry.t :=
  let total_value :=
    (or_zero (Row.current_price r)
     * inject_Z (Item.quantity (Row.item r)))%Q in
  match Row.previous_price r, Row.current_price r with
  | Some previous, Some current =>
      if truthy_q previous && truthy_q current then
        let change := (current - previous)%Q in
        x <- py_div change previous ;;
        Ok (Entry.mk r total_value change (x * 100)%Q)
      else Ok (Entry.mk r total_value 0 0)
  | _, _ => Ok (Entry.mk r total_value 0 0)
  end.

Inductive sort_order : Type :=
| by_value
| by_change
| by_name.

(** [list_cmd]: the rows of the table, in display order. *)
Definition list_cmd {L : Lower} (sort : sort_order) (rows : list Row.t)
    : result (list Entry.t) :=
  items <- map_result list_entry rows ;;
  Ok (match sort with
      | by_value => sorted_by Entry.total_value true items
      | by_change => sorted_by Entry.change_pct true items
      | by_name =>
          insertion_sort
            (fun x c =>
               String.leb (lower (Item.name (Row.item (Entry.row x))))
                          (lower (Item.name (Row.item (Entry.row c)))))
            items
      end).

(** The loop of [movers] on one row: its entry in [movers_list], if
    any. *)
Definition mover_of (r : Row.t) : result (list Mover.t) :=
  match Row.current_price r, Row.previous_price r with
  | Some current, Some previous =>
      if truthy_q current && truthy_q previous then
        let change := (current - previous)%Q in
        x <- py_div change previous ;;
        Ok [Mover.mk r change (x * 100)%Q]
      else Ok []
  | _, _ => Ok []
  end.

Fixpoint movers_list (rows : list Row.t) : result (list Mover.t) :=
  match rows with
  | [] => Ok []
  | r :: rows' =>
      m <- mover_of r ;;
      ms <- movers_list rows' ;;
      Ok (m ++ ms)%list
  end.

(** [movers]: the gainers and the losers it prints (none when it returns
    early). *)
Definition movers (rows : list Row.t)
    : result (list Mover.t * list Mover.t) :=
  ms <- movers_list rows ;;
  let sorted := sorted_by (fun m => Qabs (Mover.change_pct m)) true ms in
  Ok (firstn 5 (filter (fun m => Qltb 0 (Mover.change_pct m)) sorted),
      firstn 5 (filter (fun m => Qltb (Mover.change_pct m) 0) sorted)).

(** ** The refresh command ([cli.py]) *)

(** The counters of [update] and the cards it lists as failed. *)
Module UpdateStats.
Record t : Type := mk {
  updated : Z;
  failed : Z;
  failed_items : list Item.t
}.
End UpdateStats.

(** The loop of [update] over [cards].  [lookup i item] is what
    [api.lookup_and_price_card] returns for the card at position [i], and
    [clock i] the clock at its two store calls. *)
Fixpoint update_loop (i : Z) (cards : list Item.t)
    (lookup : Z -> Item.t -> option string * option Q)
    (clock : Z -> Clock * Clock) (st : UpdateStats.t) (db : DB)
    : UpdateStats.t * DB :=
  match cards with
  | [] => (st, db)
  | item :: cards' =>
      let '(api_id, price) := lookup i item in
      let db1 :=
        update_card item api_id price (fst (clock i)) (snd (clock i)) db in
      let st1 :=
        match price with
        | Some _ =>
            UpdateStats.mk (UpdateStats.updated st + 1)
              (UpdateStats.failed st) (UpdateStats.failed_items st)
        | None =>
            UpdateStats.mk (UpdateStats.updated st)
              (UpdateStats.failed st + 1)
              (UpdateStats.failed_items st ++ [item])
        end in
      update_loop (i + 1) cards' lookup clock st1 db1
  end.

(** [update] on the rows [items] that [get_items_needing_update] returned
    (with no rows it returns early, having counted and written nothing). *)
Definition update (items : list Item.t)
    (lookup : Z -> Item.t -> option string * option Q)
    (clock : Z -> Clock * Clock) (db : DB) : UpdateStats.t * DB :=
  let cards := filter (fun i => Item.is_sealed i =? 0) items in
  update_loop 0 cards lookup clock (UpdateStats.mk 0 0 []) db.

(** ** Specification vocabulary and sample data *)

(** The natural key of a stored item and of an upsert call: the six
    columns, an absent value being a value of its own. *)
Definition key : Type :=
  string * option string * option string * option string
  * option string * option string.

Definition natural_key (r : Item.t) : key :=
  (Item.name r, Item.set_name r, Item.card_number r, Item.variance r,
   Item.grade r, Item.condition r).

Definition args_key (a : Upsert.args) : key :=
  (Upsert.name a, Upsert.set_name a, Upsert.card_number a,
   Upsert.variance a, Upsert.grade a, Upsert.condition a).

(** The stores the operations of [database.py] can build from the empty
    schema. *)
Inductive reachable : DB -> Prop :=
| reach_init : reachable empty_db
| reach_upsert a clk db item_id db' :
    reachable db ->
    upsert_item a clk db = Ok (item_id, db') ->
    reachable db'
| reach_record item_id price clk db :
    reachable db ->
    reachable (record_price item_id price clk db)
| reach_api_id item_id v clk db :
    reachable db ->
    reachable (update_item_api_id item_id v clk db)
| reach_cost_basis item_id v clk db :
    reachable db ->
    reachable (snd (update_item_cost_basis item_id v clk db)).

(** No two rows carry the same natural key. *)
Definition key_unique (db : DB) : Prop :=
  NoDup (map natural_key (items db)).

(** Sample calls and stores for the instances below; the samples are
    ASCII text, on which [str.lower] lowers the letters A to Z. *)
Definition ascii_text : Lower :=
  {| lower := ascii_lowercase; lower_on_ascii := fun s _ => eq_refl |}.

Definition pikachu (quantity : Z) (api_id : option string) : Upsert.args :=
  Upsert.mk "Pikachu" (Some "Base Set") (Some "58/102") (Some "Common") None
    quantity (Some (5 # 2)) false api_id (Some "Main") None None None None.

Definition noon : Clock := mkClock 1700000000 "2023-11-14T22:13:20.000000".

(** A store holding one item whose api-id is resolved. *)
Definition resolved_item : Item.t :=
  new_item (pikachu 1 (Some "base1-58")) noon 1.

Definition resolved_db : DB := mkDB [resolved_item] 1 [] 0.

(** A CSV field and a stored column denote the same optional value. *)
Definition blank_is_null (csv : string) (stored : option string) : Prop :=
  (csv = "" /\ stored = None) \/ (csv <> "" /\ stored = Some csv).

(** A CSV row with every optional key field blank, and a stored item with
    the same name and every optional key column NULL. *)
Definition blank_row : CsvRow.t :=
  CsvRow.mk "Main" "Pokemon" "" "Pikachu" "" "" "" "" "" (Some (5 # 2)) 4
    None None "" "".

Definition null_item : Item.t :=
  Item.mk 1 "Pikachu" None None None None 1 None 0 None None None None None
    None (SqlStamp 1700000000) (SqlStamp 1700000000).

Definition null_db : DB := mkDB [null_item] 1 [] 0.

(** A CSV row carrying both a price override and a market price. *)
Definition priced_row : CsvRow.t :=
  CsvRow.mk "Main" "Pokemon" "Base Set" "Charizard" "4/102" "Rare" "Holo" ""
    "Near Mint" (Some 300%Q) 1 (Some 410%Q) (Some 425%Q) "2024-01-05" "".

(** [needle] occurs in [hay] as a contiguous substring. *)
Definition contains (needle hay : string) : Prop :=
  exists pre post, hay = pre ++ needle ++ post.


(** A store whose only observation was recorded moments ago. *)
Definition fresh_db : DB := record_price 1 10%Q noon null_db.

(** A store with two observations of one item recorded within the same
    second. *)
Definition tied_db : DB :=
  record_price 1 12%Q noon (record_price 1 10%Q noon null_db).

(** The joins of [get_all_items] for one item, on the list of that item's
    observations alone. *)
Definition join_on (ps : list Price.t)
    : list (option Price.t * option Price.t) :=
  flat_map
    (fun p1 =>
       let before :=
         match p1 with
         | Some c =>
             sql_max
               (map Price.timestamp
                  (filter (fun p => Price.timestamp p <? Price.timestamp c)
                          ps))
         | None => None
         end in
       map (pair p1) (left_join (filter (fun p => ts_is p before) ps)))
    (left_join
       (filter (fun p => ts_is p (sql_max (map Price.timestamp ps))) ps)).

(** Recording observations, one call after the other. *)
Definition record_all (ops : list (Z * Q * Clock)) (db : DB) : DB :=
  fold_left
    (fun d op => record_price (fst (fst op)) (snd (fst op)) (snd op) d)
    ops db.


(** Two observations of item 1 a minute apart, one of item 2 in between. *)
Definition two_prices_db : DB :=
  record_all []
    (record_price 1 55%Q (mkClock 1700000060 "t2")
       (record_all [(2, 9%Q, noon)] (record_price 1 50%Q noon null_db))).

(** [sorted(values, reverse=True)] on bare numbers. *)
Definition sort_desc (l : list Q) : list Q :=
  insertion_sort (fun x c => Qle_bool c x) l.

(** [total_value] of an item row before the analysis adds it. *)
Definition row_value (r : Row.t) : Q :=
  (or_zero (Row.current_price r) * inject_Z (Item.quantity (Row.item r)))%Q.

(** Two item rows of equal value, their summary, and their analysis. *)
Definition row_a : Row.t :=
  Row.mk null_item (Some 50%Q) (Some 1700000000) (Some 40%Q).

Definition row_b : Row.t :=
  Row.mk resolved_item (Some 50%Q) (Some 1700000000) None.

Definition stats_ab : Stats.t :=
  Stats.mk 2 (Some 2) (Some 0) (Some 2) 100 (5 # 2) 100 0 0 (Some (195 # 2)).

Definition analysis_ab : Analysis.t :=
  match analyze [row_a; row_b] stats_ab with
  | Ok a => a
  | Raise _ => empty_analysis
  end.

(** What every reachable store satisfies: distinct row ids below the
    AUTOINCREMENT counters, and a sealed flag that is 0 or 1. *)
Definition ids_ok (db : DB) : Prop :=
  NoDup (map Item.id (items db))
  /\ (forall r, In r (items db) -> 1 <= Item.id r <= items_seq db)
  /\ NoDup (map Price.id (prices db))
  /\ (forall p, In p (prices db) -> 1 <= Price.id p <= prices_seq db)
  /\ 0 <= items_seq db
  /\ 0 <= prices_seq db.

Definition flags_ok (db : DB) : Prop :=
  forall r, In r (items db) -> Item.is_sealed r = 0 \/ Item.is_sealed r = 1.

(** Two rows agree on every column but [updated_at]. *)
Definition same_but_updated_at (r r' : Item.t) : Prop :=
  Item.id r' = Item.id r
  /\ natural_key r' = natural_key r
  /\ Item.rarity r' = Item.rarity r
  /\ Item.quantity r' = Item.quantity r
  /\ Item.cost_basis r' = Item.cost_basis r
  /\ Item.is_sealed r' = Item.is_sealed r
  /\ Item.api_id r' = Item.api_id r
  /\ Item.portfolio_name r' = Item.portfolio_name r
  /\ Item.notes r' = Item.notes r
  /\ Item.date_added r' = Item.date_added r
  /\ Item.created_at r' = Item.created_at r.

(** [l] is an initial segment of [l']. *)
Definition prefix_of {A : Type} (l l' : list A) : Prop :=
  exists added, l' = (l ++ added)%list.

(** One write of [database.py], and any sequence of writes. *)
Inductive write : DB -> DB -> Prop :=
| write_upsert a clk db item_id db' :
    upsert_item a clk db = Ok (item_id, db') -> write db db'
| write_record item_id price clk db :
    write db (record_price item_id price clk db)
| write_api_id item_id v clk db :
    write db (update_item_api_id item_id v clk db)
| write_cost_basis item_id v clk db :
    write db (snd (update_item_cost_basis item_id v clk db)).

Inductive writes : DB -> DB -> Prop :=
| writes_refl db : writes db db
| writes_step db db' db'' : writes db db' -> write db' db'' -> writes db db''.

(** [(part / total * 100) if total else 0], as a number. *)
Definition pct_value (part total : Q) : Q :=
  if truthy_q total then (part / total * 100)%Q else 0%Q.

(** The observations of every item carry pairwise distinct timestamps. *)
Definition distinct_timestamps (db : DB) : Prop :=
  forall i, In i (items db) ->
    NoDup (map Price.timestamp
             (filter (fun p => Price.item_id p =? Item.id i) (prices db))).

(** The rows [import_csv] accepts: those with a product name and a
    quantity that fits SQLite's INTEGER; the accepted rows it classifies as
    sealed; and the accepted rows with a price to record: a strictly
    positive override, or, with the override absent or zero, a strictly
    positive market price. *)
Definition row_named (row : CsvRow.t) : bool :=
  truthy_str (CsvRow.name row).

Definition row_accepted (row : CsvRow.t) : bool :=
  row_named row && int64 (CsvRow.quantity row).

Definition row_sealed {L : Lower} (row : CsvRow.t) : bool :=
  row_accepted row
  && is_sealed_product (Some (CsvRow.category row)) (Some (CsvRow.name row)).

Definition positive_price (o : option Q) : bool :=
  match o with
  | Some v => Qltb 0 v
  | None => false
  end.

Definition row_priced (row : CsvRow.t) : bool :=
  row_accepted row
  && match CsvRow.price_override row with
     | Some po =>
         if Qeq_bool po 0 then positive_price (CsvRow.market_price row)
         else Qltb 0 po
     | None => positive_price (CsvRow.market_price row)
     end.

Definition count {A : Type} (f : A -> bool) (l : list A) : Z :=
  Z.of_nat (List.length (filter f l)).

(** Six CSV rows: a card with an override; a card without a price; a
    sealed box whose override is zero and whose market price is 120; a row
    without a name; a row whose quantity is 2^63; and a card whose
    override is negative. *)
Definition six_csv_rows : list CsvRow.t :=
  [priced_row;
   blank_row;
   CsvRow.mk "Main" "Sealed" "Base Set" "Booster Box" "" "" "" "" "" None 2
     (Some 120%Q) (Some 0%Q) "" "";
   CsvRow.mk "Main" "Pokemon" "" "" "" "" "" "" "" None 1 (Some 5%Q) None
     "" "";
   CsvRow.mk "Main" "Pokemon" "" "Big" "" "" "" "" "" None (2 ^ 63)
     (Some 5%Q) None "" "";
   CsvRow.mk "Main" "Pokemon" "" "Mew" "" "" "" "" "" None 1 (Some 7%Q)
     (Some (- 3)%Q) "" ""].

(** The set an item is rolled up under: [item["set_name"] or "Unknown"]. *)
Definition bucket (x : AItem.t) : string :=
  match Item.set_name (Row.item (AItem.row x)) with
  | Some s => if truthy_str s then s else "Unknown"
  | None => "Unknown"
  end.

Definition Zsum (l : list Z) : Z := fold_left Z.add l 0.

(** The items rolled up under [k]. *)
Definition in_bucket (k : string) (l : list AItem.t) : list AItem.t :=
  filter (fun x => String.eqb (bucket x) k) l.

Definition item_quantity (x : AItem.t) : Z :=
  Item.quantity (Row.item (AItem.row x)).

(** What a terminal row and a dashboard item show of a mover: the stored
    row and the percentage. *)
Definition shown_mover (m : Mover.t) : Row.t * Q :=
  (Mover.row m, Mover.change_pct m).

Definition shown_item (x : AItem.t) : Row.t * Q :=
  (AItem.row x, AItem.change_pct x).

(** The keys [list_cmd] adds to a row, read off a dashboard item. *)
Definition entry_of_item (x : AItem.t) : Entry.t :=
  Entry.mk (AItem.row x) (AItem.total_value x) (AItem.change x)
    (AItem.change_pct x).

(** Every running total of [l], from [acc] on, fits SQLite's INTEGER. *)
Fixpoint running_totals_fit (acc : Z) (l : list Z) : bool :=
  match l with
  | [] => true
  | x :: l' => int64 (acc + x) && running_totals_fit (acc + x) l'
  end.

(** A store whose summary can be added up: the running totals of the
    quantities, in rowid order, and the number of items fit 64 bits. *)
Definition summable (db : DB) : bool :=
  running_totals_fit 0 (map Item.quantity (items db))
  && (Z.of_nat (List.length (items db)) <? 2 ^ 63).

(** A store holding one item bought at 2.50 and now quoted at 10. *)
Definition costed_db : DB := record_price 1 10%Q noon resolved_db.







(** Six item rows worth 19, 38, 16, 20, 17 and 18, their summary and
    their analysis: the five largest add up to 112 of 128. *)
Definition sample_item (id : Z) (name : string) (cost : option Q) : Item.t :=
  Item.mk id name None None None None 1 cost 0 None None None None None None
    (SqlStamp 1700000000) (SqlStamp 1700000000).

Definition six_rows : list Row.t :=
  [Row.mk (sample_item 1 "Abra" None) (Some 19%Q) (Some 1700000000) None;
   Row.mk (sample_item 2 "Bulbasaur" None) (Some 38%Q) (Some 1700000000) None;
   Row.mk (sample_item 3 "Charmander" None) (Some 16%Q) (Some 1700000000)
     None;
   Row.mk (sample_item 4 "Ditto" None) (Some 20%Q) (Some 1700000000) None;
   Row.mk (sample_item 5 "Eevee" None) (Some 17%Q) (Some 1700000000) None;
   Row.mk (sample_item 6 "Gengar" None) (Some 18%Q) (Some 1700000000) None].

Definition stats_six : Stats.t :=
  Stats.mk 6 (Some 6) (Some 0) (Some 6) 128 0 128 0 0 None.

Definition analysis_six : Analysis.t :=
  match analyze six_rows stats_six with
  | Ok a => a
  | Raise _ => empty_analysis
  end.

(** The share of the items that carry a cost basis, as the engine computes
    it: a binary64 quotient, and 0 for an empty list. *)
Definition cost_share (a : Analysis.t) : Q :=
  match Analysis.items a with
  | [] => 0%Q
  | _ :: _ =>
      fl (inject_Z (Z.of_nat (List.length
                                (filter has_cost_basis (Analysis.items a))))
          / inject_Z (Z.of_nat (List.length (Analysis.items a))))
  end.

(** The return on cost in percent, [(total_value - total_cost) / total_cost
    * 100], each operation rounded to binary64. *)
Definition roi_pct (a : Analysis.t) : Q :=
  fl (fl (fl (Analysis.total_value a - Analysis.total_cost a)
          / Analysis.total_cost a) * 100).

(** The issues the health entry can name, in the order it collects
    them. *)
Definition health_issues (a : Analysis.t) : list string :=
  ((if Qltb 60 (Analysis.top_5_pct a)
    then ["High concentration in top holdings"] else [])
   ++ (if Qltb (cost_share a) (1 # 2)
       then ["Missing cost basis on many items"] else [])
   ++ (if Qltb 80 (Part.pct (Analysis.sealed a))
       then ["Portfolio heavily weighted to sealed"] else []))%list.






(** * Properties *)

(** ** Natural keys and reachable stores *)

Lemma sql_is_eq (a b : option string) : sql_is a b = true <-> a = b.
Proof.
  destruct a as [x|], b as [y|]; simpl; try (split; congruence).
  rewrite String.eqb_eq. split; congruence.
Qed.

Lemma sql_eq_is (a b : option string) : sql_eq a b = true -> sql_is a b = true.
Proof. destruct a, b; simpl; congruence. Qed.

Lemma key_match_iff (a : Upsert.args) (r : Item.t) :
  key_match a r = true <-> natural_key r = args_key a.
Proof.
  unfold key_match, natural_key, args_key.
  rewrite !andb_true_iff, !sql_is_eq, String.eqb_eq.
  split.
  - intros [[[[[-> ->] ->] ->] ->] ->]. reflexivity.
  - intros H. injection H as -> -> -> -> -> ->. tauto.
Qed.

Lemma key_match_same_key (a1 a2 : Upsert.args) (r : Item.t) :
  args_key a1 = args_key a2 -> key_match a1 r = key_match a2 r.
Proof.
  intros H. apply eq_true_iff_eq. rewrite !key_match_iff, H. tauto.
Qed.

Lemma unique_collision_key_match (a : Upsert.args) (clk : Clock) (rowid : Z)
    (r : Item.t) :
  unique_collision (new_item a clk rowid) r = true -> key_match a r = true.
Proof.
  unfold unique_collision, key_match, new_item. simpl.
  rewrite !andb_true_iff.
  intros [[[[[H1 H2] H3] H4] H5] H6].
  repeat split; auto using sql_eq_is.
Qed.

Lemma filter_nil_forall {A : Type} (f : A -> bool) (l : list A) :
  filter f l = [] -> forall x, In x l -> f x = false.
Proof.
  induction l as [|y l IH]; simpl; intros H x Hx; [contradiction|].
  destruct (f y) eqn:E; [discriminate|].
  destruct Hx as [->|Hx]; auto.
Qed.

Lemma bind_quantity_ok (a : Upsert.args) :
  int64 (Upsert.quantity a) = true -> bind_quantity a = Ok tt.
Proof. unfold bind_quantity. intros ->. reflexivity. Qed.

(** A quantity outside the INTEGER class makes [upsert_item] raise,
    whatever the store holds. *)
Lemma upsert_item_overflow (a : Upsert.args) (clk : Clock) (db : DB) :
  int64 (Upsert.quantity a) = false ->
  upsert_item a clk db = Raise OverflowError.
Proof.
  intros H. unfold upsert_item, insert_item, bind_quantity. rewrite H.
  destruct (select_item_id a db); reflexivity.
Qed.

(** [upsert_item] returns only for a quantity of the INTEGER class. *)
Lemma upsert_item_ok_int64 (a : Upsert.args) (clk : Clock) (db db' : DB)
    (item_id : Z) :
  upsert_item a clk db = Ok (item_id, db') ->
  int64 (Upsert.quantity a) = true.
Proof.
  intros H. destruct (int64 (Upsert.quantity a)) eqn:E; [reflexivity|].
  rewrite (upsert_item_overflow a clk db E) in H. discriminate.
Qed.

(** The [INSERT] of [upsert_item] runs only after the lookup found no
    row, so the UNIQUE constraint cannot fire. *)
Lemma insert_after_miss (a : Upsert.args) (clk : Clock) (db : DB) :
  int64 (Upsert.quantity a) = true ->
  select_item_id a db = None ->
  insert_item a clk db =
  Ok (next_rowid (items_seq db) (map Item.id (items db)),
      mkDB (items db
            ++ [new_item a clk
                  (next_rowid (items_seq db) (map Item.id (items db)))])
           (next_rowid (items_seq db) (map Item.id (items db)))
           (prices db) (prices_seq db)).
Proof.
  unfold select_item_id, insert_item. intros Hq H.
  rewrite (bind_quantity_ok a Hq). cbn [bind].
  destruct (filter (key_match a) (items db)) eqn:E; [|discriminate].
  destruct (existsb _ (items db)) eqn:Ex; [|reflexivity].
  apply existsb_exists in Ex. destruct Ex as (r & Hr & Hc).
  apply unique_collision_key_match in Hc.
  rewrite (filter_nil_forall _ _ E r Hr) in Hc. discriminate.
Qed.

Lemma set_upsert_key (a : Upsert.args) (clk : Clock) (r : Item.t) :
  natural_key (set_upsert a clk r) = natural_key r.
Proof. reflexivity. Qed.

Lemma update_where_id_keys (item_id : Z) (f : Item.t -> Item.t)
    (l : list Item.t) :
  (forall r, natural_key (f r) = natural_key r) ->
  map natural_key (update_where_id item_id f l) = map natural_key l.
Proof.
  intros Hf. unfold update_where_id. rewrite map_map.
  apply map_ext. intros r. destruct (Item.id r =? item_id); auto.
Qed.

Lemma filter_update_where_id (a : Upsert.args) (item_id : Z)
    (f : Item.t -> Item.t) (l : list Item.t) :
  (forall r, natural_key (f r) = natural_key r) ->
  filter (key_match a) (update_where_id item_id f l) =
  update_where_id item_id f (filter (key_match a) l).
Proof.
  intros Hf. induction l as [|r l IH]; simpl; [reflexivity|].
  assert (E : key_match a (if Item.id r =? item_id then f r else r)
              = key_match a r).
  { apply eq_true_iff_eq. rewrite !key_match_iff.
    destruct (Item.id r =? item_id); [rewrite Hf|]; tauto. }
  rewrite E. destruct (key_match a r); simpl; rewrite IH; reflexivity.
Qed.

(** What a returning [upsert_item] has done. *)
Lemma upsert_item_cases (a : Upsert.args) (clk : Clock) (db db' : DB)
    (item_id : Z) :
  upsert_item a clk db = Ok (item_id, db') ->
  int64 (Upsert.quantity a) = true
  /\ ((select_item_id a db = Some item_id
       /\ db' = mkDB (update_where_id item_id (set_upsert a clk) (items db))
                     (items_seq db) (prices db) (prices_seq db))
      \/ (select_item_id a db = None
          /\ item_id = next_rowid (items_seq db) (map Item.id (items db))
          /\ db' = mkDB (items db ++ [new_item a clk item_id]) item_id
                        (prices db) (prices_seq db))).
Proof.
  intros H. pose proof (upsert_item_ok_int64 a clk db db' item_id H) as Hq.
  split; [exact Hq|]. unfold upsert_item in H.
  destruct (select_item_id a db) as [i|] eqn:E.
  - rewrite (bind_quantity_ok a Hq) in H. injection H as <- <-.
    left. split; reflexivity.
  - rewrite (insert_after_miss a clk db Hq E) in H. injection H as <- <-.
    right. repeat split.
Qed.

(** For a quantity of the INTEGER class [upsert_item] returns; it never
    touches the price table. *)
Lemma upsert_item_total (a : Upsert.args) (clk : Clock) (db : DB) :
  int64 (Upsert.quantity a) = true ->
  exists item_id db',
    upsert_item a clk db = Ok (item_id, db') /\ prices db' = prices db
    /\ prices_seq db' = prices_seq db.
Proof.
  intros Hq. unfold upsert_item. destruct (select_item_id a db) eqn:E.
  - rewrite (bind_quantity_ok a Hq). eexists _, _. repeat split.
  - rewrite (insert_after_miss a clk db Hq E). eexists _, _. repeat split.
Qed.

Lemma upsert_item_key_unique (a : Upsert.args) (clk : Clock) (db db' : DB)
    (item_id : Z) :
  key_unique db -> upsert_item a clk db = Ok (item_id, db') -> key_unique db'.
Proof.
  intros Hu H. pose proof (upsert_item_ok_int64 a clk db db' item_id H) as Hq.
  unfold key_unique, upsert_item in *.
  destruct (select_item_id a db) eqn:E.
  - rewrite (bind_quantity_ok a Hq) in H. injection H as _ <-. simpl.
    rewrite update_where_id_keys by apply set_upsert_key. exact Hu.
  - rewrite (insert_after_miss a clk db Hq E) in H. injection H as _ <-. simpl.
    rewrite map_app. simpl.
    apply NoDup_app; [exact Hu | repeat constructor; simpl; tauto |].
    intros k Hk [<-|[]].
    apply in_map_iff in Hk. destruct Hk as (r & Hr & Hin).
    unfold select_item_id in E.
    destruct (filter (key_match a) (items db)) eqn:F; [|discriminate].
    assert (K : key_match a r = true) by (apply key_match_iff; exact Hr).
    rewrite (filter_nil_forall _ _ F r Hin) in K. discriminate.
Qed.

(** Every reachable store keeps the natural key unique. *)
Lemma reachable_key_unique (db : DB) : reachable db -> key_unique db.
Proof.
  induction 1.
  - constructor.
  - eauto using upsert_item_key_unique.
  - exact IHreachable.
  - unfold key_unique. simpl. rewrite update_where_id_keys; auto.
  - unfold key_unique. simpl. rewrite update_where_id_keys; auto.
Qed.

Lemma filter_forall_nil {A : Type} (f : A -> bool) (l : list A) :
  (forall x, In x l -> f x = false) -> filter f l = [].
Proof.
  induction l as [|y l IH]; simpl; intros H; [reflexivity|].
  rewrite (H y (or_introl eq_refl)). apply IH. intros x Hx. apply H. tauto.
Qed.

Lemma key_unique_filter (a : Upsert.args) (db : DB) (r : Item.t) :
  key_unique db -> In r (items db) -> key_match a r = true ->
  filter (key_match a) (items db) = [r].
Proof.
  unfold key_unique. induction (items db) as [|x l IH]; simpl;
    intros Hu Hin Hk; [contradiction|].
  inversion Hu as [|? ? Hnotin Hu']; subst.
  assert (Hnone : forall y, In y l -> key_match a x = true ->
                            key_match a y = false).
  { intros y Hy Hx. destruct (key_match a y) eqn:Ey; [|reflexivity].
    exfalso. apply Hnotin. apply key_match_iff in Hx, Ey.
    rewrite Hx, <- Ey. apply in_map. exact Hy. }
  destruct Hin as [->|Hin].
  - rewrite Hk. f_equal. apply filter_forall_nil. intros y Hy. auto.
  - destruct (key_match a x) eqn:Ex.
    + rewrite (Hnone r Hin eq_refl) in Hk. discriminate.
    + apply IH; assumption.
Qed.

Lemma filter_singleton_in {A : Type} (f : A -> bool) (l : list A) (x : A) :
  filter f l = [x] -> In x l /\ f x = true.
Proof.
  intros H. apply filter_In. rewrite H. left. reflexivity.
Qed.

Lemma filter_andb {A : Type} (f g : A -> bool) (l : list A) :
  filter (fun x => f x && g x) l = filter g (filter f l).
Proof.
  induction l as [|x l IH]; simpl; [reflexivity|].
  destruct (f x); simpl; [|exact IH].
  destruct (g x); rewrite IH; reflexivity.
Qed.

Lemma filter_true {A : Type} (l : list A) : filter (fun _ => true) l = l.
Proof. induction l as [|x l IH]; simpl; [|rewrite IH]; reflexivity. Qed.

(** An upsert whose key is stored updates that row in place. *)
Lemma upsert_item_hit (a : Upsert.args) (clk : Clock) (db : DB) (r : Item.t) :
  int64 (Upsert.quantity a) = true ->
  key_unique db -> In r (items db) -> key_match a r = true ->
  exists db',
    upsert_item a clk db = Ok (Item.id r, db')
    /\ filter (key_match a) (items db') = [set_upsert a clk r]
    /\ List.length (items db') = List.length (items db)
    /\ prices db' = prices db
    /\ key_unique db'
    /\ items db' = update_where_id (Item.id r) (set_upsert a clk) (items db)
    /\ prices_seq db' = prices_seq db.
Proof.
  intros Hq Hu Hin Hk.
  pose proof (key_unique_filter a db r Hu Hin Hk) as F.
  unfold upsert_item, select_item_id. rewrite F, (bind_quantity_ok a Hq).
  eexists. split; [reflexivity|]. simpl. repeat split.
  - rewrite filter_update_where_id by apply set_upsert_key.
    rewrite F. simpl. rewrite Z.eqb_refl. reflexivity.
  - unfold update_where_id. apply length_map.
  - unfold key_unique. simpl.
    rewrite update_where_id_keys by apply set_upsert_key. exact Hu.
Qed.

(** An upsert whose key is not stored appends one row. *)
Lemma upsert_item_miss (a : Upsert.args) (clk : Clock) (db : DB) :
  int64 (Upsert.quantity a) = true ->
  select_item_id a db = None ->
  exists rowid,
    upsert_item a clk db =
      Ok (rowid,
          mkDB (items db ++ [new_item a clk rowid]) rowid
               (prices db) (prices_seq db))
    /\ filter (key_match a) (items db ++ [new_item a clk rowid])
       = [new_item a clk rowid].
Proof.
  intros Hq E. unfold upsert_item.
  rewrite E, (insert_after_miss a clk db Hq E).
  eexists. split; [reflexivity|].
  rewrite filter_app. unfold select_item_id in E.
  destruct (filter (key_match a) (items db)); [|discriminate].
  simpl.
  assert (K : key_match a
                (new_item a clk
                   (next_rowid (items_seq db) (map Item.id (items db))))
              = true) by (apply key_match_iff; reflexivity).
  rewrite K. reflexivity.
Qed.

Lemma select_item_id_some (a : Upsert.args) (db : DB) (item_id : Z) :
  select_item_id a db = Some item_id ->
  exists r, In r (items db) /\ key_match a r = true /\ Item.id r = item_id.
Proof.
  unfold select_item_id.
  destruct (filter (key_match a) (items db)) as [|r l] eqn:F;
    [discriminate|].
  intros H. injection H as <-. exists r.
  assert (Hin : In r (filter (key_match a) (items db)))
    by (rewrite F; left; reflexivity).
  apply filter_In in Hin. tauto.
Qed.


(** ** C1: upserting a key twice *)



(** ** C4: the stored api-id under upsert *)

Lemma resolved_db_reachable : reachable resolved_db.
Proof.
  apply (reach_upsert (pikachu 1 (Some "base1-58")) noon empty_db 1).
  - constructor.
  - reflexivity.
Qed.

(** C4, as stated, fails: an upsert that supplies an api-id replaces a
    stored one. *)
Lemma upsert_api_id_overwritten :
  ~ (forall (db : DB) (a : Upsert.args) (clk : Clock) (r : Item.t)
            (item_id : Z) (db' : DB),
        reachable db ->
        In r (items db) ->
        Item.api_id r <> None ->
        key_match a r = true ->
        upsert_item a clk db = Ok (item_id, db') ->
        forall r', In r' (items db') -> Item.id r' = Item.id r ->
                   Item.api_id r' = Item.api_id r).
Proof.
  intros H.
  pose (a := pikachu 1 (Some "xy1-42")).
  assert (Hx :
    Item.api_id (set_upsert a noon resolved_item)
    = Item.api_id resolved_item).
  { apply (H resolved_db a noon resolved_item 1
             (mkDB [set_upsert a noon resolved_item] 1 [] 0)).
    - exact resolved_db_reachable.
    - left. reflexivity.
    - discriminate.
    - reflexivity.
    - reflexivity.
    - left. reflexivity.
    - reflexivity. }
  discriminate Hx.
Qed.

(** C4, amended.  On a reachable store, an upsert matching the key of a
    stored item, with a quantity that fits SQLite's 64-bit INTEGER,
    returns that item's id and leaves exactly one row with the key, whose
    api-id is the supplied one when the call supplies one and the stored
    one when it supplies none.  [import_csv] never supplies one, so
    importing a row with the key of a stored item, whatever its quantity,
    leaves the item's api-id as it was.  The price refresh leaves the item
    table alone for an item whose api-id is set and non-empty. *)
Theorem upsert_api_id_coalesce {L : Lower} (a : Upsert.args) (clk : Clock)
    (db : DB) (r : Item.t) :
  reachable db ->
  In r (items db) ->
  key_match a r = true ->
  int64 (Upsert.quantity a) = true ->
  (exists db' r',
     upsert_item a clk db = Ok (Item.id r, db')
     /\ filter (fun x => key_match a x) (items db') = [r']
     /\ Item.id r' = Item.id r
     /\ Item.api_id r' =
        match Upsert.api_id a with
        | Some v => Some v
        | None => Item.api_id r
        end)
  /\ (forall (i : Z) (row : CsvRow.t) (clk' : Clock) (st : ImportStats.t),
        CsvRow.name row <> "" ->
        args_key
          (upsert_args_of_row row
             (is_sealed_product (Some (CsvRow.category row))
                                (Some (CsvRow.name row))))
        = args_key a ->
        exists r',
          filter (fun x => key_match a x)
                 (items (snd (import_row i row clk clk' st db))) = [r']
          /\ Item.id r' = Item.id r
          /\ Item.api_id r' = Item.api_id r)
  /\ (forall (api_id : option string) (price : option Q) (clk' : Clock),
        truthy_ostr (Item.api_id r) = true ->
        items (update_card r api_id price clk clk' db) = items db).
Proof.
  intros Hr Hin Hk Hq. pose proof (reachable_key_unique db Hr) as Hu.
  split; [|split].
  - destruct (upsert_item_hit a clk db r Hq Hu Hin Hk)
      as (db' & H & F & _ & _ & _ & _).
    exists db', (set_upsert a clk r). repeat split; try assumption.
    simpl. destruct (Upsert.api_id a); reflexivity.
  - intros i row clk' st Hname Hkey.
    set (b := upsert_args_of_row row _) in *.
    assert (Hk' : key_match b r = true)
      by (rewrite (key_match_same_key b a r Hkey); exact Hk).
    unfold import_row.
    destruct (CsvRow.name row) eqn:En; [congruence|]. simpl negb. cbv iota.
    fold b. destruct (int64 (Upsert.quantity b)) eqn:Hqb.
    + destruct (upsert_item_hit b clk db r Hqb Hu Hin Hk')
        as (db' & H & F & _ & _ & _ & _).
      rewrite H.
      exists (set_upsert b clk r). repeat split.
      simpl snd.
      replace (items (record_initial_price (Item.id r) (initial_price row)
                        clk' db')) with (items db').
      * rewrite <- F. apply filter_ext. intros x.
        symmetry. apply key_match_same_key. exact Hkey.
      * unfold record_initial_price.
        destruct (initial_price row) as [v|]; [|reflexivity].
        destruct (truthy_q v && Qltb 0 v); reflexivity.
    + rewrite (upsert_item_overflow b clk db Hqb). simpl snd.
      exists r. split; [|split; reflexivity].
      apply (key_unique_filter a db r Hu Hin Hk).
  - intros api_id price clk' Hset. unfold update_card.
    destruct price as [v|]; [|reflexivity].
    destruct api_id as [a0|]; [|reflexivity].
    rewrite Hset, andb_false_r. reflexivity.
Qed.

Lemma upsert_api_id_coalesce_witness :
  exists db' r',
    upsert_item (pikachu 3 None) noon resolved_db = Ok (1, db')
    /\ filter (fun x => key_match (pikachu 3 None) x) (items db') = [r']
    /\ Item.id r' = 1
    /\ Item.api_id r' = Some "base1-58".
Proof.
  destruct (upsert_api_id_coalesce (L := ascii_text) (pikachu 3 None) noon
              resolved_db resolved_item resolved_db_reachable
              (or_introl eq_refl) eq_refl eq_refl) as [H _].
  exact H.
Defined.

(** ** C10: blank key fields at import *)

Lemma or_none_blank_is_null (csv : string) (stored : option string) :
  blank_is_null csv stored -> or_none csv = stored.
Proof.
  intros [[-> ->]|[Hne ->]]; [reflexivity|].
  destruct csv; [congruence|reflexivity].
Qed.

Lemma record_initial_price_items (item_id : Z) (price : option Q)
    (clk : Clock) (db : DB) :
  items (record_initial_price item_id price clk db) = items db.
Proof.
  unfold record_initial_price. destruct price as [v|]; [|reflexivity].
  destruct (truthy_q v && Qltb 0 v); reflexivity.
Qed.

(** C10.  [import_csv] passes a blank set name, card number, variance,
    grade or condition to [upsert_item] as absent; hence a row whose key
    fields are blank exactly where a stored item's are NULL (and equal
    elsewhere), and whose quantity fits SQLite's 64-bit INTEGER, is that
    item: the import updates it in place, adds no row, and reports no
    error. *)
Theorem import_blank_key_is_null {L : Lower} (i : Z) (row : CsvRow.t)
    (clk clk' : Clock) (st : ImportStats.t) (db : DB) (r : Item.t) :
  reachable db ->
  In r (items db) ->
  CsvRow.name row <> "" ->
  int64 (CsvRow.quantity row) = true ->
  Item.name r = CsvRow.name row ->
  blank_is_null (CsvRow.set_name row) (Item.set_name r) ->
  blank_is_null (CsvRow.card_number row) (Item.card_number r) ->
  blank_is_null (CsvRow.variance row) (Item.variance r) ->
  blank_is_null (CsvRow.grade row) (Item.grade r) ->
  blank_is_null (CsvRow.condition row) (Item.condition r) ->
  let a := upsert_args_of_row row
             (is_sealed_product (Some (CsvRow.category row))
                                (Some (CsvRow.name row))) in
  let out := import_row i row clk clk' st db in
  (CsvRow.set_name row = "" -> Upsert.set_name a = None)
  /\ (CsvRow.card_number row = "" -> Upsert.card_number a = None)
  /\ (CsvRow.variance row = "" -> Upsert.variance a = None)
  /\ (CsvRow.grade row = "" -> Upsert.grade a = None)
  /\ (CsvRow.condition row = "" -> Upsert.condition a = None)
  /\ items (snd out) = update_where_id (Item.id r) (set_upsert a clk) (items db)
  /\ List.length (items (snd out)) = List.length (items db)
  /\ ImportStats.errors (fst out) = ImportStats.errors st
  /\ exists r',
       filter (fun x => key_match a x) (items (snd out)) = [r']
       /\ Item.id r' = Item.id r
       /\ natural_key r' = natural_key r
       /\ Item.quantity r' = CsvRow.quantity row.
Proof.
  intros Hr Hin Hname Hq Hn H1 H2 H3 H4 H5 a out.
  assert (Hk : key_match a r = true).
  { apply key_match_iff. unfold natural_key, args_key, a. simpl.
    rewrite Hn.
    rewrite (or_none_blank_is_null _ _ H1), (or_none_blank_is_null _ _ H2),
      (or_none_blank_is_null _ _ H3), (or_none_blank_is_null _ _ H4),
      (or_none_blank_is_null _ _ H5).
    reflexivity. }
  destruct (upsert_item_hit a clk db r Hq (reachable_key_unique db Hr) Hin Hk)
    as (db' & H & F & Hlen & _ & _ & Hitems & _).
  assert (Hout : out = (add_imported
                          (is_sealed_product (Some (CsvRow.category row))
                                             (Some (CsvRow.name row))) st,
                        record_initial_price (Item.id r) (initial_price row)
                          clk' db')).
  { unfold out, import_row.
    destruct (CsvRow.name row) eqn:En; [congruence|]. simpl negb. cbv iota.
    fold a. rewrite H. reflexivity. }
  rewrite Hout. simpl fst. simpl snd.
  rewrite record_initial_price_items.
  do 5 (split; [intros E; unfold a; simpl; rewrite E; reflexivity|]).
  split; [exact Hitems|]. split; [exact Hlen|]. split; [reflexivity|].
  exists (set_upsert a clk r). repeat split. exact F.
Qed.

Lemma null_db_reachable : reachable null_db.
Proof.
  apply (reach_upsert
           (Upsert.mk "Pikachu" None None None None 1 None false None None
              None None None None) noon empty_db 1).
  - constructor.
  - reflexivity.
Qed.

Lemma import_blank_key_is_null_witness :
  let out := import_row (L := ascii_text) 0 blank_row noon noon
               (ImportStats.mk 1 0 0 0 0 []) null_db in
  List.length (items (snd out)) = 1%nat
  /\ ImportStats.errors (fst out) = []
  /\ exists r',
       items (snd out) = [r']
       /\ Item.id r' = 1
       /\ natural_key r' = ("Pikachu", None, None, None, None, None)
       /\ Item.quantity r' = 4.
Proof.
  assert (B : forall o, o = None -> blank_is_null "" o)
    by (intros o ->; left; split; reflexivity).
  destruct (import_blank_key_is_null (L := ascii_text) 0 blank_row noon noon
              (ImportStats.mk 1 0 0 0 0 []) null_db null_item
              null_db_reachable (or_introl eq_refl)
              ltac:(discriminate) eq_refl eq_refl
              (B _ eq_refl) (B _ eq_refl) (B _ eq_refl) (B _ eq_refl)
              (B _ eq_refl))
    as (_ & _ & _ & _ & _ & _ & H & He & r' & F & Hi & Hk & Hq).
  split; [exact H|]. split; [exact He|].
  exists r'. split; [exact F|]. split; [exact Hi|]. split; assumption.
Defined.

(** ** C9: the initial price observation at import *)

Lemma truthy_q_iff (x : Q) : truthy_q x = true <-> ~ x == 0.
Proof.
  unfold truthy_q. rewrite negb_true_iff.
  destruct (Qeq_bool x 0) eqn:E.
  - apply Qeq_bool_iff in E. split; [discriminate|tauto].
  - split; [|reflexivity]. intros _ H. apply Qeq_bool_iff in H. congruence.
Qed.

Lemma truthy_q_false_iff (x : Q) : truthy_q x = false <-> x == 0.
Proof.
  unfold truthy_q. rewrite negb_false_iff. apply Qeq_bool_iff.
Qed.

Lemma Qltb_iff (x y : Q) : Qltb x y = true <-> (x < y)%Q.
Proof.
  unfold Qltb. rewrite negb_true_iff.
  destruct (Qle_bool y x) eqn:E.
  - apply Qle_bool_iff in E. split; [discriminate|]. intros H.
    exfalso. apply (Qlt_not_le _ _ H E).
  - split; [|reflexivity]. intros _. apply Qnot_le_lt. intros H.
    apply Qle_bool_iff in H. congruence.
Qed.

Lemma Qltb_false_iff (x y : Q) : Qltb x y = false <-> (y <= x)%Q.
Proof.
  unfold Qltb. rewrite negb_false_iff. apply Qle_bool_iff.
Qed.

Lemma record_initial_price_prices (item_id : Z) (price : option Q)
    (clk : Clock) (db : DB) :
  prices (record_initial_price item_id price clk db) =
  (prices db ++
   match price with
   | Some v =>
       if truthy_q v && Qltb 0 v
       then [Price.mk (next_rowid (prices_seq db) (map Price.id (prices db)))
               item_id v (sql_now clk)]
       else []
   | None => []
   end)%list.
Proof.
  unfold record_initial_price. destruct price as [v|].
  - destruct (truthy_q v && Qltb 0 v); simpl; [reflexivity|].
    symmetry. apply app_nil_r.
  - symmetry. apply app_nil_r.
Qed.

(** The observations one loop iteration appends to the price table. *)
Lemma import_row_prices {L : Lower} (i : Z) (row : CsvRow.t)
    (clk clk' : Clock) (st : ImportStats.t) (db : DB) :
  exists item_id,
    prices (snd (import_row i row clk clk' st db)) =
    (prices db ++
     if truthy_str (CsvRow.name row) && int64 (CsvRow.quantity row) then
       match initial_price row with
       | Some v =>
           if truthy_q v && Qltb 0 v
           then [Price.mk
                   (next_rowid (prices_seq db) (map Price.id (prices db)))
                   item_id v (sql_now clk')]
           else []
       | None => []
       end
     else [])%list
    /\ (truthy_str (CsvRow.name row) && int64 (CsvRow.quantity row) = true ->
        exists db1,
          upsert_item
            (upsert_args_of_row row
               (is_sealed_product (Some (CsvRow.category row))
                                  (Some (CsvRow.name row)))) clk db
          = Ok (item_id, db1)).
Proof.
  unfold import_row.
  destruct (truthy_str (CsvRow.name row)); simpl negb; cbv iota.
  - set (a := upsert_args_of_row row _).
    destruct (int64 (CsvRow.quantity row)) eqn:Hq.
    + destruct (upsert_item_total a clk db Hq)
        as (item_id & db1 & H & Hp & Hs).
      rewrite H. exists item_id. simpl snd.
      rewrite record_initial_price_prices, Hp, Hs.
      split; [reflexivity|]. intros _. exists db1. reflexivity.
    + rewrite (upsert_item_overflow a clk db Hq). exists 0. simpl.
      split; [symmetry; apply app_nil_r|discriminate].
  - exists 0. simpl. split; [symmetry; apply app_nil_r|discriminate].
Qed.

(** Whatever the rows, the loop only appends strictly positive prices. *)
Lemma import_rows_prices_positive {L : Lower} (rows : list CsvRow.t)
    (clock : Z -> Clock * Clock) (i : Z) (st : ImportStats.t) (db : DB) :
  exists added,
    prices (snd (import_rows i rows clock st db)) = (prices db ++ added)%list
    /\ forall p, In p added -> (0 < Price.price p)%Q.
Proof.
  revert i st db. induction rows as [|row rows IH]; intros i st db; simpl.
  - exists []. split; [symmetry; apply app_nil_r|intros p []].
  - destruct (import_row_prices i row (fst (clock i)) (snd (clock i)) st db)
      as (item_id & H & _).
    destruct (import_row i row (fst (clock i)) (snd (clock i)) st db)
      as [st1 db1].
    simpl snd in H.
    destruct (IH (i + 1) st1 db1) as (added & Ha & Hpos).
    rewrite Ha, H, <- app_assoc. eexists. split; [reflexivity|].
    intros p Hp. apply in_app_or in Hp. destruct Hp as [Hp|Hp]; [|auto].
    destruct (truthy_str (CsvRow.name row) && int64 (CsvRow.quantity row));
      [|destruct Hp].
    destruct (initial_price row) as [v|]; [|destruct Hp].
    destruct (truthy_q v && Qltb 0 v) eqn:E; [|destruct Hp].
    destruct Hp as [<-|[]]. simpl.
    apply andb_true_iff in E. apply Qltb_iff. tauto.
Qed.

(** The price [import_csv] selects, by cases on the two columns. *)
Lemma initial_price_cases (row : CsvRow.t) :
  (forall po, CsvRow.price_override row = Some po -> ~ po == 0 ->
              initial_price row = Some po)
  /\ ((CsvRow.price_override row = None
       \/ exists po, CsvRow.price_override row = Some po /\ po == 0) ->
      initial_price row = CsvRow.market_price row).
Proof.
  unfold initial_price. split.
  - intros po E Hnz. rewrite E. simpl.
    apply truthy_q_iff in Hnz. rewrite Hnz. reflexivity.
  - intros [E|(po & E & Hz)]; rewrite E; simpl; [reflexivity|].
    apply truthy_q_false_iff in Hz. rewrite Hz. reflexivity.
Qed.

Lemma positive_recorded (v : Q) :
  (0 < v)%Q -> truthy_q v && Qltb 0 v = true.
Proof.
  intros H. apply andb_true_iff. split.
  - apply truthy_q_iff. lra.
  - apply Qltb_iff. exact H.
Qed.

Lemma not_positive_skipped (v : Q) :
  ~ (0 < v)%Q -> truthy_q v && Qltb 0 v = false.
Proof.
  intros H. apply andb_false_iff. right. apply Qltb_false_iff. lra.
Qed.

(** C9.  One iteration of the import loop, on any row.  A row without a
    product name, or with a quantity outside SQLite's 64-bit INTEGER (its
    upsert raises), records nothing.  For any other row the upsert returns
    an id, and the iteration appends to the price table either nothing or
    the one observation of that id at the selected price.  With a nonzero
    [price_override] the selected price is the override, whatever the
    market price: it is recorded when strictly positive, and nothing is
    recorded otherwise.  With the override absent or zero the selected
    price is [market_price]: recorded when strictly positive, nothing
    otherwise, and nothing when it is absent too.  Over a whole import, of
    any rows, every price appended to the table is strictly positive. *)
Theorem import_initial_price {L : Lower} (i : Z) (row : CsvRow.t)
    (clk clk' : Clock) (st : ImportStats.t) (db : DB) :
  let after := prices (snd (import_row i row clk clk' st db)) in
  (CsvRow.name row = "" \/ int64 (CsvRow.quantity row) = false ->
   after = prices db)
  /\ (CsvRow.name row <> "" ->
      int64 (CsvRow.quantity row) = true ->
      exists item_id db1,
        upsert_item
          (upsert_args_of_row row
             (is_sealed_product (Some (CsvRow.category row))
                                (Some (CsvRow.name row)))) clk db
        = Ok (item_id, db1)
        /\ let recorded (v : Q) :=
             after
             = (prices db
                ++ [Price.mk
                      (next_rowid (prices_seq db) (map Price.id (prices db)))
                      item_id v (sql_now clk')])%list in
           (forall po, CsvRow.price_override row = Some po -> ~ po == 0 ->
              ((0 < po)%Q -> recorded po)
              /\ (~ (0 < po)%Q -> after = prices db))
           /\ ((CsvRow.price_override row = None
                \/ exists po,
                     CsvRow.price_override row = Some po /\ po == 0) ->
               (forall mp, CsvRow.market_price row = Some mp ->
                  ((0 < mp)%Q -> recorded mp)
                  /\ (~ (0 < mp)%Q -> after = prices db))
               /\ (CsvRow.market_price row = None -> after = prices db)))
  /\ (forall (rows : list CsvRow.t) (clock : Z -> Clock * Clock),
        exists added,
          prices (snd (import_csv rows clock db))
          = (prices db ++ added)%list
          /\ forall p, In p added -> (0 < Price.price p)%Q).
Proof.
  cbv zeta.
  destruct (import_row_prices i row clk clk' st db) as (item_id & H & Hu).
  split; [|split].
  - intros Hc.
    assert (E : truthy_str (CsvRow.name row)
                && int64 (CsvRow.quantity row) = false).
    { destruct Hc as [-> | ->]; [reflexivity|apply andb_false_r]. }
    rewrite E, app_nil_r in H. exact H.
  - intros Hname Hq.
    assert (Hn : truthy_str (CsvRow.name row) = true)
      by (destruct (CsvRow.name row); [congruence|reflexivity]).
    rewrite Hn, Hq in H, Hu. cbn [andb] in H, Hu.
    destruct (Hu eq_refl) as (db1 & Hup).
    exists item_id, db1. split; [exact Hup|].
    destruct (initial_price_cases row) as (Hsel & Hmkt).
    split.
    + intros po E Hnz. rewrite (Hsel po E Hnz) in H. split; intros Hpos.
      * rewrite (positive_recorded po Hpos) in H. exact H.
      * rewrite (not_positive_skipped po Hpos), app_nil_r in H. exact H.
    + intros Hc. rewrite (Hmkt Hc) in H. split.
      * intros mp E. rewrite E in H. split; intros Hpos.
        -- rewrite (positive_recorded mp Hpos) in H. exact H.
        -- rewrite (not_positive_skipped mp Hpos), app_nil_r in H. exact H.
      * intros E. rewrite E, app_nil_r in H. exact H.
  - intros rows clock. apply import_rows_prices_positive.
Qed.

Lemma import_initial_price_witness :
  prices (snd (import_row (L := ascii_text) 0 priced_row noon noon
                 (ImportStats.mk 1 0 0 0 0 []) empty_db))
  = [Price.mk 1 1 425%Q 1700000000].
Proof.
  destruct (import_initial_price (L := ascii_text) 0 priced_row noon noon
              (ImportStats.mk 1 0 0 0 0 []) empty_db)
    as (_ & Hacc & _).
  destruct (Hacc ltac:(discriminate) eq_refl)
    as (item_id & db1 & Hup & Hov & _).
  injection Hup as <- _.
  apply (Hov 425%Q eq_refl); [intros E; discriminate E|reflexivity].
Defined.

(** ** C6: the sealed-product classifier *)

Lemma prefix_spec (needle hay : string) :
  String.prefix needle hay = true <-> exists post, hay = needle ++ post.
Proof.
  revert needle. induction hay as [|b hay IH]; intros [|a needle]; simpl.
  - split; [intros _; exists ""; reflexivity | reflexivity].
  - split; [discriminate | intros [post H]; discriminate].
  - split; [intros _; exists (String b hay); reflexivity | reflexivity].
  - destruct (ascii_dec a b) as [->|Hne].
    + rewrite IH. split; intros [post H]; exists post; congruence.
    + split; [discriminate | intros [post H]; congruence].
Qed.

Lemma str_in_nil (needle : string) :
  str_in needle "" = String.prefix needle "".
Proof. simpl. apply orb_false_r. Qed.

Lemma str_in_cons (needle : string) (c : ascii) (hay : string) :
  str_in needle (String c hay)
  = String.prefix needle (String c hay) || str_in needle hay.
Proof. reflexivity. Qed.

Lemma str_in_spec (needle hay : string) :
  str_in needle hay = true <-> contains needle hay.
Proof.
  unfold contains. induction hay as [|c hay IH].
  - rewrite str_in_nil, prefix_spec. split.
    + intros [post H]. exists "", post. exact H.
    + intros (pre & post & H). destruct pre; [exists post; exact H|].
      discriminate.
  - rewrite str_in_cons, orb_true_iff, prefix_spec, IH. split.
    + intros [[post H]|(pre & post & H)].
      * exists "", post. exact H.
      * exists (String c pre), post. simpl. congruence.
    + intros (pre & post & H). destruct pre as [|d pre].
      * left. exists post. exact H.
      * right. exists pre, post. simpl in H. congruence.
Qed.

(** C6.  [is_sealed_product] answers sealed exactly when the lowercased
    category contains "sealed" or the lowercased name contains one of the
    eleven keywords (an absent argument counting as the empty string),
    whatever [str.lower] does to text outside ASCII; on ASCII text the
    lowercased strings are the strings with the letters A to Z lowered; and
    the row with category "Sealed Booster Box" and name "Scarlet & Violet
    Booster Box" is sealed, by the category rule and by the keyword
    rule. *)
Theorem is_sealed_product_iff {L : Lower} :
  (forall category product_name : option string,
     is_sealed_product category product_name = true <->
     contains "sealed" (lower (or_empty category))
     \/ exists keyword,
          In keyword
             ["sealed"; "booster"; "box"; "pack"; "etb"; "elite trainer";
              "collection"; "tin"; "bundle"; "case"; "display"]
          /\ contains keyword (lower (or_empty product_name)))
  /\ (forall category product_name : string,
        is_ascii category = true -> is_ascii product_name = true ->
        (is_sealed_product (Some category) (Some product_name) = true <->
         contains "sealed" (ascii_lowercase category)
         \/ exists keyword,
              In keyword
                 ["sealed"; "booster"; "box"; "pack"; "etb";
                  "elite trainer"; "collection"; "tin"; "bundle"; "case";
                  "display"]
              /\ contains keyword (ascii_lowercase product_name)))
  /\ is_sealed_product (Some "Sealed Booster Box")
                       (Some "Scarlet & Violet Booster Box") = true
  /\ contains "sealed" (lower "Sealed Booster Box")
  /\ contains "booster" (lower "Scarlet & Violet Booster Box").
Proof.
  assert (G : forall category product_name : option string,
             is_sealed_product category product_name = true <->
             contains "sealed" (lower (or_empty category))
             \/ exists keyword,
                  In keyword sealed_keywords
                  /\ contains keyword (lower (or_empty product_name))).
  { intros category product_name. unfold is_sealed_product.
    destruct (str_in "sealed" (lower (or_empty category))) eqn:E.
    - split; [|reflexivity]. intros _. left. apply str_in_spec. exact E.
    - rewrite existsb_exists. split.
      + intros (k & Hin & Hk). right. exists k. split; [exact Hin|].
        apply str_in_spec. exact Hk.
      + intros [H|(k & Hin & Hk)].
        * apply str_in_spec in H. congruence.
        * exists k. split; [exact Hin|]. apply str_in_spec. exact Hk. }
  split; [exact G|]. split.
  { intros category product_name Hc Hn.
    rewrite G. cbn [or_empty].
    rewrite (lower_on_ascii category Hc), (lower_on_ascii product_name Hn).
    reflexivity. }
  split.
  { unfold is_sealed_product. cbn [or_empty].
    rewrite (lower_on_ascii "Sealed Booster Box" eq_refl). reflexivity. }
  split.
  - rewrite (lower_on_ascii "Sealed Booster Box" eq_refl).
    apply str_in_spec. reflexivity.
  - rewrite (lower_on_ascii "Scarlet & Violet Booster Box" eq_refl).
    apply str_in_spec. reflexivity.
Qed.

Lemma is_sealed_product_iff_witness :
  is_sealed_product (L := ascii_text) (Some "Pokemon")
    (Some "Evolving Skies ETB") = true
  /\ is_sealed_product (L := ascii_text) (Some "Pokemon")
       (Some "Pikachu") = false.
Proof.
  split.
  - apply (proj1 (is_sealed_product_iff (L := ascii_text)) (Some "Pokemon")
             (Some "Evolving Skies ETB")).
    right. exists "etb". split.
    + simpl. tauto.
    + exists "evolving skies ", "". reflexivity.
  - reflexivity.
Defined.

(** ** Sums *)

Lemma fold_Qplus_acc (l : list Q) (a : Q) :
  fold_left Qplus l a == a + Qsum l.
Proof.
  unfold Qsum. revert a. induction l as [|x l IH]; intros a; simpl.
  - ring.
  - rewrite IH, (IH (0 + x)%Q). ring.
Qed.

Lemma Qsum_cons (x : Q) (l : list Q) : Qsum (x :: l) == x + Qsum l.
Proof.
  unfold Qsum at 1. simpl. rewrite fold_Qplus_acc. ring.
Qed.

Lemma Qsum_app (l1 l2 : list Q) : Qsum (l1 ++ l2) == Qsum l1 + Qsum l2.
Proof.
  induction l1 as [|x l1 IH]; simpl.
  - unfold Qsum at 2. simpl. ring.
  - rewrite !Qsum_cons, IH. ring.
Qed.

Lemma int64_range (n : Z) :
  int64 n = true <-> - 9223372036854775808 <= n < 9223372036854775808.
Proof.
  unfold int64. rewrite andb_true_iff, Z.leb_le, Z.ltb_lt.
  change (2 ^ 63) with 9223372036854775808. tauto.
Qed.

(** An integer [SUM] that returns is the sum. *)
Lemma sum_int_from_ok (l : list Z) (acc v : Z) :
  sum_int_from acc l = Ok v -> v = fold_left Z.add l acc.
Proof.
  revert acc. induction l as [|x l IH]; intros acc; simpl.
  - intros H. injection H as <-. reflexivity.
  - destruct (int64 (acc + x)); [apply IH|discriminate].
Qed.

(** It returns when every running total fits. *)
Lemma sum_int_from_fit (l : list Z) (acc : Z) :
  running_totals_fit acc l = true ->
  sum_int_from acc l = Ok (fold_left Z.add l acc).
Proof.
  revert acc. induction l as [|x l IH]; intros acc; simpl; [reflexivity|].
  intros H. apply andb_true_iff in H. destruct H as [-> H]. apply IH, H.
Qed.

Lemma sql_sum_int_ok (l : list Z) (o : option Z) :
  sql_sum_int l = Ok o ->
  o = match l with
      | [] => None
      | _ :: _ => Some (fold_left Z.add l 0)
      end.
Proof.
  unfold sql_sum_int. destruct l as [|x l].
  - intros H. injection H as <-. reflexivity.
  - destruct (sum_int_from 0 (x :: l)) as [v|e] eqn:E; [|discriminate].
    intros H. injection H as <-. f_equal. apply sum_int_from_ok. exact E.
Qed.

Lemma sql_sum_int_fit (l : list Z) :
  running_totals_fit 0 l = true ->
  sql_sum_int l = Ok match l with
                     | [] => None
                     | _ :: _ => Some (fold_left Z.add l 0)
                     end.
Proof.
  intros H. unfold sql_sum_int. destruct l as [|x l]; [reflexivity|].
  rewrite (sum_int_from_fit _ _ H). reflexivity.
Qed.

(** Counting rows cannot overflow before the table holds [2^63] rows. *)
Lemma flags_fit (l : list Z) (acc : Z) :
  (forall x, In x l -> 0 <= x <= 1) ->
  0 <= acc ->
  acc + Z.of_nat (List.length l) < 2 ^ 63 ->
  running_totals_fit acc l = true.
Proof.
  change (2 ^ 63) with 9223372036854775808.
  revert acc. induction l as [|x l IH]; intros acc Hl Ha Hn; [reflexivity|].
  cbn [running_totals_fit]. cbn [List.length] in Hn.
  pose proof (Hl x (or_introl eq_refl)) as Hx.
  apply andb_true_iff. split.
  - apply int64_range. lia.
  - apply IH; [intros y Hy; apply Hl; right; exact Hy|lia|lia].
Qed.

Lemma count_fits {A : Type} (p : A -> bool) (l : list A) :
  Z.of_nat (List.length l) < 2 ^ 63 ->
  running_totals_fit 0 (map (fun i => if p i then 1 else 0) l) = true.
Proof.
  intros H. apply flags_fit.
  - intros x Hx. apply in_map_iff in Hx. destruct Hx as (i & <- & _).
    destruct (p i); lia.
  - lia.
  - rewrite length_map. exact H.
Qed.

(** ** C2: absent profit figures *)

Lemma py_div_truthy (x y : Q) :
  truthy_q y = true -> py_div x y = Ok (x / y)%Q.
Proof.
  unfold py_div, truthy_q. intros H. apply negb_true_iff in H.
  rewrite H. reflexivity.
Qed.

Lemma pct_of_total (part total : Q) :
  pct_of part total =
  Ok (if truthy_q total then (part / total * 100)%Q else 0%Q).
Proof.
  unfold pct_of. destruct (truthy_q total) eqn:E; [|reflexivity].
  rewrite (py_div_truthy _ _ E). reflexivity.
Qed.

(** The snapshot aggregator faults only on an overflowing integer sum. *)
Lemma get_summary_stats_returns (db : DB) (now : Z) :
  summable db = true -> exists s, get_summary_stats db now = Ok s.
Proof.
  unfold summable. intros H. apply andb_true_iff in H.
  destruct H as [Hq Hn]. apply Z.ltb_lt in Hn.
  unfold get_summary_stats.
  rewrite (sql_sum_int_fit _ Hq). cbn [bind].
  rewrite (sql_sum_int_fit _
             (count_fits (fun i => Item.is_sealed i =? 1) (items db) Hn)).
  cbn [bind].
  rewrite (sql_sum_int_fit _
             (count_fits (fun i => Item.is_sealed i =? 0) (items db) Hn)).
  cbn [bind].
  set (tv := or_zero (select_total_value db)).
  set (pv := match select_prev_value db now with
             | Some v => if truthy_q v then v else tv
             | None => tv
             end).
  destruct (truthy_q pv) eqn:E.
  - rewrite (py_div_truthy _ _ E). eexists. reflexivity.
  - eexists. reflexivity.
Qed.



(** Its result in closed form. *)
Lemma get_summary_stats_closed (db : DB) (now : Z) (s : Stats.t) :
  get_summary_stats db now = Ok s ->
  Stats.total_value s = or_zero (select_total_value db)
  /\ Stats.total_cost s = or_zero (select_total_cost db)
  /\ Stats.prev_value s =
     match select_prev_value db now with
     | Some v => if truthy_q v then v else Stats.total_value s
     | None => Stats.total_value s
     end
  /\ Stats.daily_change s = (Stats.total_value s - Stats.prev_value s)%Q
  /\ Stats.daily_change_pct s =
     (if truthy_q (Stats.prev_value s)
      then (Stats.total_value s - Stats.prev_value s)
           / Stats.prev_value s * 100
      else 0)%Q
  /\ Stats.total_profit s =
     (if truthy_q (Stats.total_cost s)
      then Some (Stats.total_value s - Stats.total_cost s)%Q
      else None)
  /\ Stats.item_count s = Z.of_nat (List.length (items db))
  /\ sql_sum_int (map Item.quantity (items db))
     = Ok (Stats.total_quantity s)
  /\ sql_sum_int
       (map (fun i => if Item.is_sealed i =? 1 then 1 else 0) (items db))
     = Ok (Stats.sealed_count s)
  /\ sql_sum_int
       (map (fun i => if Item.is_sealed i =? 0 then 1 else 0) (items db))
     = Ok (Stats.card_count s).
Proof.
  unfold get_summary_stats.
  destruct (sql_sum_int (map Item.quantity (items db))) as [tq|e];
    [|discriminate]. cbn [bind].
  destruct (sql_sum_int (map (fun i => if Item.is_sealed i =? 1 then 1 else 0)
                           (items db))) as [sc|e]; [|discriminate].
  cbn [bind].
  destruct (sql_sum_int (map (fun i => if Item.is_sealed i =? 0 then 1 else 0)
                           (items db))) as [cc|e]; [|discriminate].
  cbn [bind].
  set (tv := or_zero (select_total_value db)).
  set (pv := match select_prev_value db now with
             | Some v => if truthy_q v then v else tv
             | None => tv
             end).
  destruct (truthy_q pv) eqn:E.
  - rewrite (py_div_truthy _ _ E). cbn [bind]. intros H. injection H as <-.
    cbn. fold tv. fold pv. rewrite E. repeat split.
  - cbn [bind]. intros H. injection H as <-.
    cbn. fold tv. fold pv. rewrite E. repeat split.
Qed.

Lemma get_summary_stats_total (db : DB) (now : Z) :
  summable db = true ->
  exists s,
    get_summary_stats db now = Ok s
    /\ Stats.total_value s = or_zero (select_total_value db)
    /\ Stats.total_cost s = or_zero (select_total_cost db)
    /\ Stats.prev_value s =
       match select_prev_value db now with
       | Some v => if truthy_q v then v else Stats.total_value s
       | None => Stats.total_value s
       end
    /\ Stats.daily_change s = (Stats.total_value s - Stats.prev_value s)%Q
    /\ Stats.daily_change_pct s =
       (if truthy_q (Stats.prev_value s)
        then (Stats.total_value s - Stats.prev_value s)
             / Stats.prev_value s * 100
        else 0)%Q
    /\ Stats.total_profit s =
       (if truthy_q (Stats.total_cost s)
        then Some (Stats.total_value s - Stats.total_cost s)%Q
        else None).
Proof.
  intros Hs. destruct (get_summary_stats_returns db now Hs) as (s & H).
  exists s. split; [exact H|].
  destruct (get_summary_stats_closed db now s H)
    as (H1 & H2 & H3 & H4 & H5 & H6 & _).
  repeat split; assumption.
Qed.

(** The per-item derivation never faults; the derived keys it adds. *)
Lemma analyze_item_total (r : Row.t) :
  exists change change_pct pnl pnl_pct,
    analyze_item r =
      Ok (AItem.mk r
            (or_zero (Row.current_price r)
             * inject_Z (Item.quantity (Row.item r)))%Q
            change change_pct
            (or_zero (Item.cost_basis (Row.item r))
             * inject_Z (Item.quantity (Row.item r)))%Q
            pnl pnl_pct)
    /\ ((Item.cost_basis (Row.item r) = None
         \/ (exists c, Item.cost_basis (Row.item r) = Some c /\ ~ (0 < c)%Q)
         \/ Row.current_price r = None) ->
        pnl = None /\ pnl_pct = None).
Proof.
  unfold analyze_item.
  set (m1 := match Row.previous_price r with
             | Some _ => _
             | None => _
             end).
  assert (H1 : exists c cp, m1 = Ok (c, cp)).
  { unfold m1. destruct (Row.previous_price r) as [pp|];
      [|eexists _, _; reflexivity].
    destruct (Row.current_price r) as [cp|]; [|eexists _, _; reflexivity].
    destruct (truthy_q pp) eqn:E; simpl; [|eexists _, _; reflexivity].
    destruct (truthy_q cp); [|eexists _, _; reflexivity].
    rewrite (py_div_truthy _ _ E). eexists _, _. reflexivity. }
  destruct H1 as (c & cp & ->). simpl bind.
  set (m2 := match Item.cost_basis (Row.item r) with
             | Some _ => _
             | None => _
             end).
  assert (H2 : exists pnl pp,
             m2 = Ok (pnl, pp)
             /\ ((Item.cost_basis (Row.item r) = None
                  \/ (exists c, Item.cost_basis (Row.item r) = Some c
                                /\ ~ (0 < c)%Q)
                  \/ Row.current_price r = None) ->
                 pnl = None /\ pp = None)).
  { unfold m2. destruct (Item.cost_basis (Row.item r)) as [cost|];
      [|eexists _, _; split; [reflexivity|tauto]].
    destruct (Row.current_price r) as [cur|];
      [|eexists _, _; split; [reflexivity|tauto]].
    destruct (truthy_q cost) eqn:E; simpl;
      [|eexists _, _; split; [reflexivity|tauto]].
    destruct (Qltb 0 cost) eqn:Ep; simpl;
      [|eexists _, _; split; [reflexivity|tauto]].
    destruct (truthy_q cur); [|eexists _, _; split; [reflexivity|tauto]].
    rewrite (py_div_truthy _ _ E). eexists _, _. split; [reflexivity|].
    apply Qltb_iff in Ep.
    intros [H|[(c0 & H & Hn)|H]]; try discriminate.
    injection H as <-. contradiction. }
  destruct H2 as (pnl & pp & -> & Hnone). simpl bind.
  exists c, cp, pnl, pp. split; [reflexivity|exact Hnone].
Qed.

(** The per-item step over the rows: one analysed item per row, in
    order. *)
Lemma map_result_rows (rows : list Row.t) :
  exists items,
    map_result analyze_item rows = Ok items
    /\ map AItem.row items = rows
    /\ forall x, In x items -> analyze_item (AItem.row x) = Ok x.
Proof.
  induction rows as [|r rows IH]; simpl.
  - exists []. repeat split. intros x [].
  - destruct (analyze_item_total r) as (c & cp & pnl & pp & H & _).
    destruct IH as (items & Hi & Hr & Hx).
    rewrite H, Hi. simpl. eexists. split; [reflexivity|]. simpl.
    rewrite Hr. split; [reflexivity|].
    intros x [<-|Hin]; [exact H|auto].
Qed.

(** The analysis never faults; it lists the analysed rows and passes the
    profit of the summary on. *)
Lemma analyze_returns (rows : list Row.t) (stats : Stats.t) :
  exists a items,
    analyze rows stats = Ok a
    /\ map_result analyze_item rows = Ok items
    /\ Analysis.items a = items
    /\ Analysis.total_profit a
       = match rows with
         | [] => None
         | _ :: _ => Stats.total_profit stats
         end.
Proof.
  destruct (map_result_rows rows) as (items & Hi & Hr & _).
  destruct rows as [|r rows].
  - simpl in Hi. injection Hi as <-. exists empty_analysis, [].
    repeat split.
  - unfold analyze. rewrite Hi. cbn [bind]. rewrite !pct_of_total.
    cbn [bind]. eexists _, items. repeat split.
Qed.

Lemma select_total_cost_no_cost (l : list Item.t) :
  (forall i, In i l -> Item.cost_basis i = None) ->
  flat_map
    (fun i =>
       match Item.cost_basis i with
       | Some c => [(inject_Z (Item.quantity i) * c)%Q]
       | None => []
       end) l
  = [].
Proof.
  induction l as [|i l IH]; intros H; simpl; [reflexivity|].
  rewrite (H i (or_introl eq_refl)). simpl. apply IH.
  intros j Hj. apply H. right. exact Hj.
Qed.

Lemma or_zero_eq (o : option Q) (v : Q) :
  (match o with Some x => x | None => 0 end == v)%Q -> or_zero o == v.
Proof.
  destruct o as [x|]; simpl; [|tauto].
  destruct (truthy_q x) eqn:E; [tauto|].
  apply truthy_q_false_iff in E. intros H. rewrite <- H, E. reflexivity.
Qed.

(** C2.  Take a store whose integer sums fit 64 bits (otherwise the
    summary raises).  [get_summary_stats] and [analyze_portfolio] return.
    When no item has a cost basis the summary's [total_cost] is zero;
    whenever it is zero the summary reports no [total_profit] and the
    analysis passes that on, and otherwise the profit is
    [total_value - total_cost].  The analysis lists one item per row of
    [get_all_items], and every listed item whose cost basis is absent or
    not strictly positive, or whose current price is absent, has no [pnl]
    and no [pnl_pct]. *)
Theorem absent_profit_is_none (db : DB) (now : Z) :
  summable db = true ->
  exists s a,
    get_summary_stats db now = Ok s
    /\ analyze_portfolio db now = Ok a
    /\ ((forall i, In i (items db) -> Item.cost_basis i = None) ->
        Stats.total_cost s == 0)
    /\ (Stats.total_cost s == 0 ->
        Stats.total_profit s = None /\ Analysis.total_profit a = None)
    /\ (~ Stats.total_cost s == 0 ->
        Stats.total_profit s
        = Some (Stats.total_value s - Stats.total_cost s)%Q)
    /\ map AItem.row (Analysis.items a) = get_all_items db
    /\ forall x, In x (Analysis.items a) ->
         Item.cost_basis (Row.item (AItem.row x)) = None
         \/ (exists c, Item.cost_basis (Row.item (AItem.row x)) = Some c
                       /\ ~ (0 < c)%Q)
         \/ Row.current_price (AItem.row x) = None ->
         AItem.pnl x = None /\ AItem.pnl_pct x = None.
Proof.
  intros Hs.
  destruct (get_summary_stats_total db now Hs)
    as (s & H & _ & Hc & _ & _ & _ & Hp).
  destruct (analyze_returns (get_all_items db) s)
    as (a & its & Ha & Hi & Ei & Ep).
  destruct (map_result_rows (get_all_items db)) as (its' & Hi' & Hr & Hx).
  rewrite Hi in Hi'. injection Hi' as <-.
  exists s, a. split; [exact H|]. split.
  { unfold analyze_portfolio. rewrite H. exact Ha. }
  split.
  { intros Hnone. rewrite Hc. unfold select_total_cost.
    rewrite (select_total_cost_no_cost _ Hnone). reflexivity. }
  split.
  { intros Hz. apply truthy_q_false_iff in Hz. rewrite Hz in Hp.
    split; [exact Hp|]. rewrite Ep.
    destruct (get_all_items db); [reflexivity|exact Hp]. }
  split.
  { intros Hnz. apply truthy_q_iff in Hnz. rewrite Hnz in Hp. exact Hp. }
  split; [rewrite Ei; exact Hr|].
  intros x Hin Hcase. rewrite Ei in Hin. specialize (Hx x Hin).
  destruct (analyze_item_total (AItem.row x))
    as (c & cp & pnl & pp & Hy & Hn).
  rewrite Hy in Hx. injection Hx as <-. exact (Hn Hcase).
Qed.

Lemma absent_profit_is_none_witness :
  (exists s a x,
     get_summary_stats fresh_db 1700000100 = Ok s
     /\ analyze_portfolio fresh_db 1700000100 = Ok a
     /\ Stats.total_cost s == 0
     /\ Stats.total_profit s = None
     /\ Analysis.total_profit a = None
     /\ Analysis.items a = [x]
     /\ AItem.total_value x == 10
     /\ AItem.pnl x = None
     /\ AItem.pnl_pct x = None)
  /\ (exists s a x profit pnl pnl_pct,
        get_summary_stats costed_db 1700000100 = Ok s
        /\ analyze_portfolio costed_db 1700000100 = Ok a
        /\ Stats.total_cost s == 5 # 2
        /\ Stats.total_profit s = Some profit
        /\ profit == 15 # 2
        /\ Analysis.items a = [x]
        /\ AItem.pnl x = Some pnl
        /\ pnl == 15 # 2
        /\ AItem.pnl_pct x = Some pnl_pct
        /\ pnl_pct == 300).
Proof.
  split.
  - destruct (absent_profit_is_none fresh_db 1700000100 eq_refl)
      as (s & a & H & Ha & Hc & Hz & _ & Hr & Hx).
    assert (Z0 : Stats.total_cost s == 0).
    { apply Hc. intros i [<-|[]]. reflexivity. }
    destruct (Analysis.items a) as [|x [|y l]] eqn:E; try discriminate Hr.
    exists s, a, x.
    split; [exact H|]. split; [exact Ha|]. split; [exact Z0|].
    split; [exact (proj1 (Hz Z0))|]. split; [exact (proj2 (Hz Z0))|].
    split; [exact E|].
    assert (Hrow : AItem.row x
                   = Row.mk null_item (Some 10%Q) (Some 1700000000) None)
      by (injection Hr as Hr; exact Hr).
    split.
    { unfold analyze_portfolio in Ha. rewrite H in Ha. cbn [bind] in Ha.
      injection H as <-. injection Ha as <-. injection E as <-.
      reflexivity. }
    apply (Hx x (or_introl eq_refl)). left. rewrite Hrow. reflexivity.
  - destruct (absent_profit_is_none costed_db 1700000100 eq_refl)
      as (s & a & H & Ha & _ & _ & Hnz & Hr & _).
    assert (Hs : s = match get_summary_stats costed_db 1700000100 with
                     | Ok s0 => s0
                     | Raise _ => s
                     end) by (rewrite H; reflexivity).
    assert (Hc : Stats.total_cost s == 5 # 2)
      by (rewrite Hs; reflexivity).
    assert (Hv : Stats.total_value s == 10)
      by (rewrite Hs; reflexivity).
    assert (Haa : a = match analyze_portfolio costed_db 1700000100 with
                      | Ok a0 => a0
                      | Raise _ => a
                      end) by (rewrite Ha; reflexivity).
    destruct (Analysis.items a) as [|x [|y l]] eqn:E; try discriminate Hr.
    assert (Hx : Some x
                 = hd_error
                     (Analysis.items
                        match analyze_portfolio costed_db 1700000100 with
                        | Ok a0 => a0
                        | Raise _ => a
                        end))
      by (rewrite <- Haa, E; reflexivity).
    vm_compute in Hx. injection Hx as Hx.
    eexists s, a, x, _, _, _.
    split; [exact H|]. split; [exact Ha|]. split; [exact Hc|].
    split.
    { apply Hnz. rewrite Hc. intros Z0. discriminate Z0. }
    split; [rewrite Hc, Hv; reflexivity|].
    split; [exact E|].
    rewrite Hx. cbn [AItem.pnl AItem.pnl_pct].
    split; [reflexivity|]. split; [reflexivity|].
    split; reflexivity.
Defined.

(** ** C3: the previous-day value and the daily change *)

Lemma fold_max_spec (l : list Z) (x : Z) :
  (fold_left Z.max l x = x \/ In (fold_left Z.max l x) l)
  /\ x <= fold_left Z.max l x
  /\ forall y, In y l -> y <= fold_left Z.max l x.
Proof.
  revert x. induction l as [|a l IH]; intros x; simpl.
  - split; [left; reflexivity|]. split; [lia|tauto].
  - destruct (IH (Z.max x a)) as (Hin & Hle & Hall).
    split; [|split].
    + destruct Hin as [E|Hin]; [|tauto].
      rewrite E. destruct (Z.max_spec x a) as [[_ ->]|[_ ->]]; tauto.
    + lia.
    + intros y [<-|Hy]; [lia|auto].
Qed.

Lemma sql_max_some (l : list Z) (m : Z) :
  sql_max l = Some m <-> In m l /\ forall y, In y l -> y <= m.
Proof.
  destruct l as [|x l]; simpl.
  - split; [discriminate|tauto].
  - destruct (fold_max_spec l x) as (Hin & Hle & Hall). split.
    + intros H. injection H as <-. split.
      * destruct Hin as [E|Hin]; [left; symmetry; exact E|right; exact Hin].
      * intros y [<-|Hy]; auto.
    + intros [Hm Hmax]. f_equal. apply Z.le_antisymm.
      * destruct Hin as [->|Hin]; [apply Hmax; tauto | apply Hmax; tauto].
      * destruct Hm as [<-|Hm]; auto.
Qed.

(** The correlated subquery: [p] sits at the item's greatest timestamp
    among the observations that satisfy [cond]. *)
Lemma ts_is_max_timestamp (db : DB) (item_id : Z) (cond : Price.t -> bool)
    (p : Price.t) :
  ts_is p (max_timestamp db item_id cond) = true <->
  (exists q, In q (prices db) /\ Price.item_id q = item_id
             /\ cond q = true /\ Price.timestamp q = Price.timestamp p)
  /\ forall q, In q (prices db) -> Price.item_id q = item_id ->
               cond q = true -> Price.timestamp q <= Price.timestamp p.
Proof.
  unfold ts_is, max_timestamp.
  set (sel := filter _ (prices db)).
  assert (Hsel : forall q, In q sel <->
                           In q (prices db) /\ Price.item_id q = item_id
                           /\ cond q = true).
  { intros q. unfold sel. rewrite filter_In, andb_true_iff, Z.eqb_eq.
    tauto. }
  destruct (sql_max (map Price.timestamp sel)) as [m|] eqn:E.
  - apply sql_max_some in E. destruct E as [Hm Hmax].
    apply in_map_iff in Hm. destruct Hm as (q0 & Hq0 & Hin0).
    rewrite Z.eqb_eq. split.
    + intros ->. split.
      * exists q0. apply Hsel in Hin0. tauto.
      * intros q H1 H2 H3. apply Hmax. apply in_map. apply Hsel. tauto.
    + intros [(q & H1 & H2 & H3 & H4) Hall].
      apply Z.le_antisymm.
      * rewrite <- H4. apply Hmax. apply in_map. apply Hsel. tauto.
      * rewrite <- Hq0. apply Hsel in Hin0. apply Hall; tauto.
  - split; [discriminate|].
    intros [(q & H1 & H2 & H3 & _) _]. exfalso.
    assert (Hq : In (Price.timestamp q) (map Price.timestamp sel))
      by (apply in_map; apply Hsel; tauto).
    destruct (map Price.timestamp sel); [contradiction|discriminate].
Qed.

Lemma in_join_at (db : DB) (sub : Item.t -> option Z) (i : Item.t)
    (p : Price.t) :
  In (i, p) (join_at db sub) <->
  In i (items db) /\ In p (prices db) /\ Item.id i = Price.item_id p
  /\ ts_is p (sub i) = true.
Proof.
  unfold join_at. rewrite in_flat_map. split.
  - intros (j & Hj & H). apply in_map_iff in H.
    destruct H as (q & E & Hq). injection E as -> ->.
    apply filter_In in Hq. rewrite andb_true_iff, Z.eqb_eq in Hq. tauto.
  - intros (Hi & Hp & Hid & Hts). exists i. split; [exact Hi|].
    apply in_map. apply filter_In. rewrite andb_true_iff, Z.eqb_eq. tauto.
Qed.

Lemma filter_ts_single (own : list Price.t) (p : Price.t) :
  NoDup (map Price.timestamp own) -> In p own ->
  filter (fun q => ts_is q (Some (Price.timestamp p))) own = [p].
Proof.
  unfold ts_is. induction own as [|x own IH]; simpl; intros N Hin;
    [contradiction|].
  inversion N as [|? ? Hnot N']; subst.
  destruct Hin as [->|Hin].
  - rewrite Z.eqb_refl. f_equal. apply filter_forall_nil.
    intros y Hy. apply Z.eqb_neq. intros E. apply Hnot.
    rewrite <- E. apply in_map. exact Hy.
  - destruct (Z.eqb_spec (Price.timestamp x) (Price.timestamp p)) as [E|_].
    + exfalso. apply Hnot. rewrite E. apply in_map. exact Hin.
    + apply IH; assumption.
Qed.








(** ** C5: the latest and the previous observation *)

(** The lookup for an item depends on the observations of that item
    only. *)
Lemma join_prices_frame (db : DB) (item_id : Z) :
  join_prices db item_id =
  join_on (filter (fun p => Price.item_id p =? item_id) (prices db)).
Proof.
  unfold join_prices, join_on, max_timestamp.
  rewrite !filter_andb, filter_true.
  apply flat_map_ext. intros [c|].
  - rewrite !filter_andb. reflexivity.
  - rewrite filter_andb. reflexivity.
Qed.





Lemma insert_sorted_perm {A : Type} (before : A -> A -> bool) (x : A)
    (s : list A) :
  Permutation (insert_sorted before x s) (x :: s).
Proof.
  induction s as [|c s IH]; simpl.
  - reflexivity.
  - destruct (before x c); [reflexivity|].
    transitivity (c :: x :: s); [constructor; exact IH|constructor].
Qed.

Lemma insertion_sort_perm {A : Type} (before : A -> A -> bool)
    (l : list A) :
  Permutation (insertion_sort before l) l.
Proof.
  induction l as [|x l IH]; simpl; [constructor|].
  transitivity (x :: insertion_sort before l); [|constructor; exact IH].
  apply insert_sorted_perm.
Qed.

(** The rows of [get_all_items]: each item with each of its joins. *)
Lemma in_get_all_items (db : DB) (r : Row.t) :
  In r (get_all_items db) <->
  exists i j, In i (items db) /\ In j (join_prices db (Item.id i))
              /\ r = mk_row i j.
Proof.
  unfold get_all_items, order_by_name. split.
  - intros H.
    apply (Permutation_in _ (insertion_sort_perm _ _)) in H.
    apply in_flat_map in H. destruct H as (i & Hi & H).
    apply in_map_iff in H. destruct H as (j & <- & Hj).
    exists i, j. tauto.
  - intros (i & j & Hi & Hj & ->).
    apply (Permutation_in _ (Permutation_sym (insertion_sort_perm _ _))).
    apply in_flat_map. exists i. split; [exact Hi|].
    apply in_map. exact Hj.
Qed.




(** ** C7: the top-5 concentration *)

Lemma Forall2_Qeq_refl (l : list Q) : Forall2 Qeq l l.
Proof. induction l; constructor; [reflexivity|assumption]. Qed.

Lemma Forall2_Qeq_trans (l1 l2 l3 : list Q) :
  Forall2 Qeq l1 l2 -> Forall2 Qeq l2 l3 -> Forall2 Qeq l1 l3.
Proof.
  intros H. revert l3. induction H as [|x y l1 l2 Hxy H IH]; intros l3 H3.
  - exact H3.
  - inversion H3 as [|? z ? l3' Hyz H3']; subst. constructor.
    + rewrite Hxy. exact Hyz.
    + apply IH. exact H3'.
Qed.

Lemma Qle_bool_false (x y : Q) : Qle_bool x y = false <-> (y < x)%Q.
Proof.
  split.
  - intros E. apply Qnot_le_lt. intros H. apply Qle_bool_iff in H.
    congruence.
  - intros H. destruct (Qle_bool x y) eqn:E; [|reflexivity].
    apply Qle_bool_iff in E. exfalso. apply (Qlt_not_le _ _ H E).
Qed.

(** Case analysis on every comparison in sight. *)
Ltac cases_Qle :=
  repeat match goal with
         | |- context [Qle_bool ?a ?b] =>
             let E := fresh "E" in
             destruct (Qle_bool a b) eqn:E;
             [apply Qle_bool_iff in E | apply Qle_bool_false in E]
         end.

Ltac close_Qeq_lists :=
  repeat first [ apply Forall2_Qeq_refl
               | apply Forall2_cons
               | apply Forall2_nil
               | reflexivity
               | apply Qle_antisym; lra ].

Lemma insert_desc_cong (x x' : Q) (s s' : list Q) :
  x == x' -> Forall2 Qeq s s' ->
  Forall2 Qeq (insert_sorted (fun x c => Qle_bool c x) x s)
              (insert_sorted (fun x c => Qle_bool c x) x' s').
Proof.
  intros Hx H. induction H as [|c c' s s' Hc H IH]; simpl.
  - constructor; [exact Hx|constructor].
  - rewrite (Qleb_comp _ _ Hc _ _ Hx).
    destruct (Qle_bool c' x'); repeat (constructor; try assumption).
Qed.

Lemma insert_desc_swap (x y : Q) (s : list Q) :
  Forall2 Qeq
    (insert_sorted (fun x c => Qle_bool c x) x
       (insert_sorted (fun x c => Qle_bool c x) y s))
    (insert_sorted (fun x c => Qle_bool c x) y
       (insert_sorted (fun x c => Qle_bool c x) x s)).
Proof.
  induction s as [|c s IH]; simpl.
  - cases_Qle; solve [close_Qeq_lists | exfalso; lra].
  - destruct (Qle_bool c y) eqn:Ey; destruct (Qle_bool c x) eqn:Ex; simpl;
      rewrite ?Ey, ?Ex;
      [apply Qle_bool_iff in Ey | apply Qle_bool_iff in Ey
       | apply Qle_bool_false in Ey | apply Qle_bool_false in Ey];
      [apply Qle_bool_iff in Ex | apply Qle_bool_false in Ex
       | apply Qle_bool_iff in Ex | apply Qle_bool_false in Ex].
    + cases_Qle; solve [close_Qeq_lists | exfalso; lra].
    + cases_Qle; solve [close_Qeq_lists | exfalso; lra].
    + cases_Qle; solve [close_Qeq_lists | exfalso; lra].
    + constructor; [reflexivity|exact IH].
Qed.

(** Sorting two arrangements of the same values gives the same sequence
    of values. *)
Lemma sort_desc_perm (l1 l2 : list Q) :
  Permutation l1 l2 -> Forall2 Qeq (sort_desc l1) (sort_desc l2).
Proof.
  unfold sort_desc. induction 1; simpl.
  - constructor.
  - apply insert_desc_cong; [reflexivity|assumption].
  - apply insert_desc_swap.
  - eapply Forall2_Qeq_trans; eassumption.
Qed.

Lemma insert_desc_sorted (x : Q) (s : list Q) :
  StronglySorted (fun a b => (b <= a)%Q) s ->
  StronglySorted (fun a b => (b <= a)%Q)
    (insert_sorted (fun x c => Qle_bool c x) x s).
Proof.
  induction 1 as [|c s Hs IH Hc]; simpl.
  - repeat constructor.
  - destruct (Qle_bool c x) eqn:E.
    + apply Qle_bool_iff in E. constructor; [constructor; assumption|].
      constructor; [exact E|].
      apply Forall_forall. intros z Hz.
      rewrite Forall_forall in Hc. specialize (Hc z Hz). lra.
    + apply Qle_bool_false in E. constructor; [exact IH|].
      apply Forall_forall. intros z Hz.
      apply (Permutation_in _ (insert_sorted_perm _ x s)) in Hz.
      destruct Hz as [<-|Hz]; [lra|].
      rewrite Forall_forall in Hc. exact (Hc z Hz).
Qed.

Lemma sort_desc_sorted (l : list Q) :
  StronglySorted (fun a b => (b <= a)%Q) (sort_desc l).
Proof.
  unfold sort_desc. induction l as [|x l IH]; simpl.
  - constructor.
  - apply insert_desc_sorted. exact IH.
Qed.

Lemma sorted_firstn_skipn (n : nat) (s : list Q) :
  StronglySorted (fun a b => (b <= a)%Q) s ->
  forall x y, In x (firstn n s) -> In y (skipn n s) -> (y <= x)%Q.
Proof.
  intros H. revert n. induction H as [|c s Hs IH Hc]; intros n x y.
  - destruct n; simpl; contradiction.
  - destruct n as [|n]; simpl; [contradiction|].
    intros [<-|Hx] Hy.
    + rewrite Forall_forall in Hc. apply Hc.
      rewrite <- (firstn_skipn n s). apply in_or_app. right. exact Hy.
    + exact (IH n x y Hx Hy).
Qed.

Lemma sorted_by_values {A : Type} (key : A -> Q) (l : list A) :
  map key (sorted_by key true l) = sort_desc (map key l).
Proof.
  unfold sorted_by, sort_desc. induction l as [|x l IH]; simpl;
    [reflexivity|].
  rewrite <- IH. clear IH.
  induction (insertion_sort _ l) as [|c s IHs]; simpl; [reflexivity|].
  destruct (Qle_bool (key c) (key x)); simpl; [reflexivity|].
  rewrite IHs. reflexivity.
Qed.

Lemma fold_Qplus_Forall2 (l1 l2 : list Q) (a b : Q) :
  Forall2 Qeq l1 l2 -> a == b ->
  fold_left Qplus l1 a == fold_left Qplus l2 b.
Proof.
  intros H. revert a b. induction H as [|x y l1 l2 Hxy H IH]; intros a b E;
    simpl; [exact E|].
  apply IH. rewrite E, Hxy. reflexivity.
Qed.

Lemma Qsum_Forall2 (l1 l2 : list Q) :
  Forall2 Qeq l1 l2 -> Qsum l1 == Qsum l2.
Proof.
  intros H. apply fold_Qplus_Forall2; [exact H|reflexivity].
Qed.

Lemma Forall2_firstn {A : Type} (R : A -> A -> Prop) (n : nat)
    (l1 l2 : list A) :
  Forall2 R l1 l2 -> Forall2 R (firstn n l1) (firstn n l2).
Proof.
  intros H. revert n. induction H; intros [|n]; simpl; constructor; auto.
Qed.

Lemma map_result_analyze (rows : list Row.t) :
  exists items,
    map_result analyze_item rows = Ok items
    /\ map AItem.row items = rows
    /\ map AItem.total_value items = map row_value rows.
Proof.
  induction rows as [|r rows IH]; simpl.
  - exists []. repeat split.
  - destruct (analyze_item_total r) as (c & cp & pnl & pp & H & _).
    destruct IH as (items & Hi & Hr & Hv).
    rewrite H, Hi. simpl. eexists. split; [reflexivity|]. simpl.
    rewrite Hr, Hv. split; reflexivity.
Qed.

(** The analysis never faults; the fields the claims below read. *)
Lemma analyze_total (rows : list Row.t) (stats : Stats.t) :
  exists a items,
    analyze rows stats = Ok a
    /\ map_result analyze_item rows = Ok items
    /\ Analysis.items a = items
    /\ Analysis.top_5_value a
       = Qsum (firstn 5 (sort_desc (map row_value rows)))
    /\ Analysis.top_5_pct a
       = (if truthy_q (Analysis.total_value a)
          then Analysis.top_5_value a / Analysis.total_value a * 100
          else 0)%Q
    /\ Analysis.total_value a
       = match rows with
         | [] => 0%Q
         | _ :: _ => or_zero_q (Stats.total_value stats)
         end.
Proof.
  destruct (map_result_analyze rows) as (items & Hi & Hr & Hv).
  exists (match analyze rows stats with Ok a => a | Raise _ => empty_analysis
          end), items.
  destruct rows as [|r rows].
  - simpl in Hi. injection Hi as <-. repeat split.
  - unfold analyze. rewrite Hi. simpl bind. rewrite !pct_of_total.
    simpl bind. cbv iota. split; [reflexivity|]. split; [reflexivity|].
    cbn [Analysis.items Analysis.top_5_value Analysis.top_5_pct
         Analysis.total_value].
    split; [reflexivity|]. split; [|split; reflexivity].
    change (Qsum (map AItem.total_value
                    (firstn 5 (sorted_by AItem.total_value true items)))
            = Qsum (firstn 5 (sort_desc (map row_value (r :: rows))))).
    rewrite <- firstn_map, sorted_by_values, Hv. reflexivity.
Qed.

(** C7.  The analysis always returns, and on two arrangements of the same
    item rows it reports the same top-5 percentage.  Its [total_value] is
    the summary's (0 without rows).  The percentage is 0 when
    [total_value] is zero, and otherwise 100 times the sum of [top] over
    [total_value], where the values of all the items split into [top] and
    [rest] ([top] has five values, or all of them when there are fewer)
    with no value of [rest] larger than a value of [top]. *)
Theorem top_5_pct_permutation_invariant (rows1 rows2 : list Row.t)
    (stats : Stats.t) :
  Permutation rows1 rows2 ->
  exists a1 a2 top rest,
    analyze rows1 stats = Ok a1
    /\ analyze rows2 stats = Ok a2
    /\ Analysis.top_5_pct a1 == Analysis.top_5_pct a2
    /\ map AItem.row (Analysis.items a1) = rows1
    /\ Permutation (map AItem.total_value (Analysis.items a1)) (top ++ rest)
    /\ List.length top = Nat.min 5 (List.length rows1)
    /\ (forall x y, In x top -> In y rest -> (y <= x)%Q)
    /\ Analysis.top_5_value a1 = Qsum top
    /\ (Analysis.total_value a1 == 0 -> Analysis.top_5_pct a1 = 0%Q)
    /\ (~ Analysis.total_value a1 == 0 ->
        Analysis.top_5_pct a1
        = (Qsum top / Analysis.total_value a1 * 100)%Q)
    /\ (rows1 = [] -> Analysis.total_value a1 = 0%Q)
    /\ (rows1 <> [] -> Analysis.total_value a1 == Stats.total_value stats)
    /\ forall v, In v top -> In v (map row_value rows1).
Proof.
  intros P.
  destruct (analyze_total rows1 stats)
    as (a1 & items1 & H1 & M1 & I1 & T1 & Pc1 & V1).
  destruct (analyze_total rows2 stats)
    as (a2 & items2 & H2 & M2 & I2 & T2 & Pc2 & V2).
  destruct (map_result_analyze rows1) as (items & Hi & Hr & Hv).
  rewrite M1 in Hi. injection Hi as <-.
  set (s1 := sort_desc (map row_value rows1)) in *.
  exists a1, a2, (firstn 5 s1), (skipn 5 s1).
  split; [exact H1|]. split; [exact H2|]. split.
  { assert (V : Analysis.total_value a2 = Analysis.total_value a1).
    { rewrite V1, V2. destruct rows1, rows2; try reflexivity.
      - exfalso. exact (Permutation_nil_cons P).
      - exfalso. exact (Permutation_nil_cons (Permutation_sym P)). }
    rewrite Pc1, Pc2, V.
    destruct (truthy_q (Analysis.total_value a1)); [|reflexivity].
    assert (E : Analysis.top_5_value a1 == Analysis.top_5_value a2).
    { rewrite T1, T2. apply Qsum_Forall2. apply Forall2_firstn.
      apply sort_desc_perm. apply Permutation_map. exact P. }
    rewrite E. reflexivity. }
  split; [rewrite I1; exact Hr|]. split.
  { rewrite I1, Hv, firstn_skipn. symmetry.
    apply insertion_sort_perm. }
  split.
  { rewrite length_firstn. f_equal. unfold s1, sort_desc.
    rewrite (Permutation_length (insertion_sort_perm _ _)).
    apply length_map. }
  split; [apply sorted_firstn_skipn; apply sort_desc_sorted|].
  split; [exact T1|]. split.
  { intros Z. apply truthy_q_false_iff in Z. rewrite Pc1, Z. reflexivity. }
  split.
  { intros Z. apply truthy_q_iff in Z. rewrite Pc1, Z, T1. reflexivity. }
  split; [intros ->; exact V1|]. split.
  - intros Hne. rewrite V1. destruct rows1; [congruence|].
    unfold or_zero_q. destruct (truthy_q (Stats.total_value stats)) eqn:Et;
      [reflexivity|].
    apply truthy_q_false_iff in Et. symmetry. exact Et.
  - intros v Hin5.
    assert (Hin : In v s1)
      by (rewrite <- (firstn_skipn 5 s1); apply in_or_app; left; exact Hin5).
    apply (Permutation_in _ (insertion_sort_perm _ _)) in Hin. exact Hin.
Qed.

Lemma top_5_pct_permutation_invariant_witness :
  exists a1 a2,
    analyze six_rows stats_six = Ok a1
    /\ analyze (rev six_rows) stats_six = Ok a2
    /\ Analysis.top_5_pct a1 == Analysis.top_5_pct a2
    /\ Analysis.top_5_value a1 == 112
    /\ Analysis.total_value a1 == 128
    /\ Analysis.top_5_pct a1 == 175 # 2.
Proof.
  destruct (top_5_pct_permutation_invariant six_rows (rev six_rows)
              stats_six (Permutation_rev six_rows))
    as (a1 & a2 & top & rest & H1 & H2 & E & _).
  exists a1, a2. split; [exact H1|]. split; [exact H2|].
  split; [exact E|].
  assert (A : a1 = analysis_six)
    by (unfold analysis_six; rewrite H1; reflexivity).
  rewrite A. repeat split; reflexivity.
Defined.

(** ** C8: the health score and the recommendation list *)

Lemma fdiv_nonzero (x y : Q) :
  ~ y == 0 -> fdiv x y = Ok (fl (x / y)).
Proof.
  intros H. unfold fdiv. destruct (Qeq_bool y 0) eqn:E; [|reflexivity].
  apply Qeq_bool_iff in E. contradiction.
Qed.

(** The health computation always returns; its score, issues and
    coverage in closed form. *)
Lemma portfolio_health_closed (a : Analysis.t) :
  let base :=
    100
    - (if Qltb 60 (Analysis.top_5_pct a) then 20 else 0)
    - (if Qltb (cost_share a) (1 # 2) then 15 else 0)
    - (if Qltb 80 (Part.pct (Analysis.sealed a)) then 10 else 0) in
  let health :=
    if Qltb 0 (Analysis.total_cost a) then
      if Qltb 20 (roi_pct a) then Z.min 100 (base + 10)
      else if Qltb (roi_pct a) (- 10) then base - 10
      else base
    else base in
  portfolio_health a = Ok (health, health_issues a, cost_share a).
Proof.
  cbv zeta. unfold portfolio_health, health_issues, roi_pct.
  assert (Hc : match Analysis.items a with
               | [] => Ok 0%Q
               | _ :: _ =>
                   fdiv (inject_Z
                           (Z.of_nat
                              (List.length
                                 (filter has_cost_basis (Analysis.items a)))))
                        (inject_Z (Z.of_nat (List.length (Analysis.items a))))
               end = Ok (cost_share a)).
  { unfold cost_share. destruct (Analysis.items a) as [|x l] eqn:E;
      [reflexivity|].
    apply fdiv_nonzero. intros Z0. unfold Qeq in Z0. simpl in Z0. lia. }
  rewrite Hc. cbn [bind].
  destruct (Qltb 60 (Analysis.top_5_pct a));
    destruct (Qltb (cost_share a) (1 # 2));
    destruct (Qltb 80 (Part.pct (Analysis.sealed a)));
    destruct (Qltb 0 (Analysis.total_cost a)) eqn:Ec;
    try (assert (Et : truthy_q (Analysis.total_cost a) = true)
           by (apply truthy_q_iff; apply Qltb_iff in Ec; lra);
         rewrite Et;
         rewrite fdiv_nonzero
           by (apply Qltb_iff in Ec; intros Z0; rewrite Z0 in Ec;
               exact (Qlt_irrefl 0 Ec));
         cbn [andb bind]; unfold fmul, fsub;
         destruct (Qltb 20 _); [|destruct (Qltb _ (- 10))]);
    try rewrite andb_false_r;
    reflexivity.
Qed.



(** * Further properties of the store *)

(** ** Row ids *)

Lemma next_rowid_fresh (seq : Z) (ids : list Z) :
  seq < next_rowid seq ids /\ forall x, In x ids -> x < next_rowid seq ids.
Proof.
  unfold next_rowid. destruct (fold_max_spec ids seq) as (_ & Hle & Hall).
  split; [lia|]. intros x Hx. specialize (Hall x Hx). lia.
Qed.

Lemma update_where_id_ids (item_id : Z) (f : Item.t -> Item.t)
    (l : list Item.t) :
  (forall r, Item.id (f r) = Item.id r) ->
  map Item.id (update_where_id item_id f l) = map Item.id l.
Proof.
  intros Hf. unfold update_where_id. rewrite map_map.
  apply map_ext. intros r. destruct (Item.id r =? item_id); auto.
Qed.

Lemma in_update_where_id (item_id : Z) (f : Item.t -> Item.t)
    (l : list Item.t) (r' : Item.t) :
  In r' (update_where_id item_id f l) <->
  exists r, In r l /\ r' = if Item.id r =? item_id then f r else r.
Proof.
  unfold update_where_id. rewrite in_map_iff. split.
  - intros (r & E & Hr). exists r. split; [exact Hr|symmetry; exact E].
  - intros (r & Hr & E). exists r. split; [symmetry; exact E|exact Hr].
Qed.


Lemma ids_ok_update (item_id : Z) (f : Item.t -> Item.t) (db : DB) :
  (forall r, Item.id (f r) = Item.id r) ->
  ids_ok db ->
  ids_ok (mkDB (update_where_id item_id f (items db)) (items_seq db)
               (prices db) (prices_seq db)).
Proof.
  intros Hf (N & B & Np & Bp & S & Sp). unfold ids_ok. simpl.
  rewrite update_where_id_ids by exact Hf.
  split; [exact N|]. split; [|tauto].
  intros r' H. apply in_update_where_id in H. destruct H as (x & Hx & ->).
  destruct (Item.id x =? item_id); [rewrite Hf|]; apply B; exact Hx.
Qed.

Lemma ids_ok_upsert (a : Upsert.args) (clk : Clock) (db db' : DB)
    (item_id : Z) :
  ids_ok db -> upsert_item a clk db = Ok (item_id, db') -> ids_ok db'.
Proof.
  intros Hok H.
  destruct (upsert_item_cases a clk db db' item_id H)
    as (_ & [(E & ->)|(E & -> & ->)]).
  - apply ids_ok_update; [reflexivity|exact Hok].
  - destruct Hok as (N & B & Np & Bp & S & Sp).
    destruct (next_rowid_fresh (items_seq db) (map Item.id (items db)))
      as [Hs Hf].
    unfold ids_ok. simpl. rewrite map_app. simpl.
    split; [|split; [|split; [exact Np|split; [exact Bp|split; [lia|exact Sp]]]]].
    + apply NoDup_app; [exact N|repeat constructor; simpl; tauto|].
      intros x Hx [<-|[]]. specialize (Hf _ Hx). lia.
    + intros r Hr. apply in_app_or in Hr. destruct Hr as [Hr|[<-|[]]].
      * specialize (B r Hr). lia.
      * simpl. lia.
Qed.

Lemma ids_ok_record (item_id : Z) (price : Q) (clk : Clock) (db : DB) :
  ids_ok db -> ids_ok (record_price item_id price clk db).
Proof.
  intros (N & B & Np & Bp & S & Sp).
  destruct (next_rowid_fresh (prices_seq db) (map Price.id (prices db)))
    as [Hs Hf].
  unfold ids_ok, record_price. simpl. rewrite map_app. simpl.
  split; [exact N|split; [exact B|split; [|split; [|split; [exact S|lia]]]]].
  - apply NoDup_app; [exact Np|repeat constructor; simpl; tauto|].
    intros x Hx [<-|[]]. specialize (Hf _ Hx). lia.
  - intros p Hp. apply in_app_or in Hp. destruct Hp as [Hp|[<-|[]]].
    + specialize (Bp p Hp). lia.
    + simpl. lia.
Qed.

Lemma ids_ok_write (db db' : DB) : write db db' -> ids_ok db -> ids_ok db'.
Proof.
  intros W Hok. destruct W.
  - eapply ids_ok_upsert; eassumption.
  - apply ids_ok_record. exact Hok.
  - apply ids_ok_update; [reflexivity|exact Hok].
  - apply ids_ok_update; [reflexivity|exact Hok].
Qed.

Lemma ids_ok_empty : ids_ok empty_db.
Proof.
  unfold ids_ok. simpl. repeat split; try constructor; try lia;
    contradiction.
Qed.

Lemma reachable_ids_ok (db : DB) : reachable db -> ids_ok db.
Proof.
  induction 1.
  - exact ids_ok_empty.
  - eapply ids_ok_upsert; eassumption.
  - apply ids_ok_record. assumption.
  - apply ids_ok_update; [reflexivity|assumption].
  - apply ids_ok_update; [reflexivity|assumption].
Qed.

(** X1.  On every reachable store the item ids and the observation ids
    are pairwise distinct, positive and at most the AUTOINCREMENT counter;
    and an upsert whose key is not stored and whose quantity fits 64 bits
    returns an id larger than the counter and than every stored id, so ids
    are never reused. *)
Theorem reachable_ids_fresh (db : DB) :
  reachable db ->
  ids_ok db
  /\ forall (a : Upsert.args) (clk : Clock),
       int64 (Upsert.quantity a) = true ->
       select_item_id a db = None ->
       exists item_id db',
         upsert_item a clk db = Ok (item_id, db')
         /\ items_seq db < item_id
         /\ (forall r, In r (items db) -> Item.id r < item_id)
         /\ items_seq db' = item_id
         /\ List.length (items db') = S (List.length (items db)).
Proof.
  intros Hr. split; [exact (reachable_ids_ok db Hr)|].
  intros a clk Hq E. unfold upsert_item. rewrite E.
  rewrite (insert_after_miss a clk db Hq E).
  destruct (next_rowid_fresh (items_seq db) (map Item.id (items db)))
    as [Hs Hf].
  eexists _, _. split; [reflexivity|]. split; [exact Hs|]. split.
  - intros r Hin. apply Hf. apply in_map. exact Hin.
  - split; [reflexivity|]. simpl. rewrite length_app. simpl. lia.
Qed.

Lemma reachable_ids_fresh_witness :
  exists item_id db',
    upsert_item (pikachu 2 None) noon null_db = Ok (item_id, db')
    /\ items_seq null_db < item_id
    /\ (forall r, In r (items null_db) -> Item.id r < item_id)
    /\ items_seq db' = item_id
    /\ List.length (items db') = S (List.length (items null_db)).
Proof.
  exact (proj2 (reachable_ids_fresh null_db null_db_reachable)
           (pikachu 2 None) noon eq_refl eq_refl).
Defined.

(** ** Lookup by id *)

Lemma filter_id_unique (l : list Item.t) (r : Item.t) :
  NoDup (map Item.id l) -> In r l ->
  filter (fun x => Item.id x =? Item.id r) l = [r].
Proof.
  induction l as [|x l IH]; simpl; intros N Hin; [contradiction|].
  inversion N as [|? ? Hnot N']; subst.
  destruct Hin as [->|Hin].
  - rewrite Z.eqb_refl. f_equal. apply filter_forall_nil.
    intros y Hy. apply Z.eqb_neq. intros E. apply Hnot.
    rewrite <- E. apply in_map. exact Hy.
  - destruct (Z.eqb_spec (Item.id x) (Item.id r)) as [E|_].
    + exfalso. apply Hnot. rewrite E. apply in_map. exact Hin.
    + apply IH; assumption.
Qed.

Lemma get_item_by_id_stored (db : DB) (r : Item.t) :
  NoDup (map Item.id (items db)) -> In r (items db) ->
  get_item_by_id (Item.id r) db = Some r.
Proof.
  intros N Hin. unfold get_item_by_id.
  rewrite (filter_id_unique _ r N Hin). reflexivity.
Qed.




(** The single row with the key of the call after an upsert, with the
    columns the call writes. *)
Lemma upsert_item_fields (a : Upsert.args) (clk : Clock) (db : DB) :
  int64 (Upsert.quantity a) = true ->
  key_unique db ->
  exists item_id db' r,
    upsert_item a clk db = Ok (item_id, db')
    /\ In r (items db')
    /\ Item.id r = item_id
    /\ natural_key r = args_key a
    /\ Item.rarity r = Upsert.rarity a
    /\ Item.quantity r = Upsert.quantity a
    /\ Item.cost_basis r = Upsert.cost_basis a
    /\ Item.is_sealed r = int_of_bool (Upsert.is_sealed a)
    /\ Item.portfolio_name r = Upsert.portfolio_name a
    /\ Item.notes r = Upsert.notes a
    /\ Item.date_added r = Upsert.date_added a
    /\ (Upsert.api_id a <> None -> Item.api_id r = Upsert.api_id a).
Proof.
  intros Hq Hu. destruct (select_item_id a db) as [item_id|] eqn:E.
  - destruct (select_item_id_some a db item_id E) as (r & Hin & Hk & <-).
    destruct (upsert_item_hit a clk db r Hq Hu Hin Hk)
      as (db' & H & F & _ & _ & _ & _ & _).
    exists (Item.id r), db', (set_upsert a clk r).
    split; [exact H|].
    split; [exact (proj1 (filter_singleton_in _ _ _ F))|].
    split; [reflexivity|].
    split; [apply key_match_iff in Hk; exact Hk|].
    do 7 (split; [reflexivity|]).
    simpl. destruct (Upsert.api_id a); [reflexivity|congruence].
  - destruct (upsert_item_miss a clk db Hq E) as (rowid & H & F).
    eexists rowid, _, (new_item a clk rowid).
    split; [exact H|].
    split; [simpl; apply in_or_app; right; left; reflexivity|].
    repeat split.
Qed.



(** ** Editing the cost basis *)




(** ** Writes never delete *)

Lemma writes_trans (db1 db2 db3 : DB) :
  writes db1 db2 -> writes db2 db3 -> writes db1 db3.
Proof.
  intros H12 H23. induction H23; [exact H12|].
  eapply writes_step; [apply IHwrites; exact H12|eassumption].
Qed.

Lemma writes_one (db db' : DB) : write db db' -> writes db db'.
Proof. intros W. eapply writes_step; [apply writes_refl|exact W]. Qed.

Lemma record_initial_price_writes (item_id : Z) (price : option Q)
    (clk : Clock) (db : DB) :
  writes db (record_initial_price item_id price clk db).
Proof.
  unfold record_initial_price. destruct price as [v|]; [|apply writes_refl].
  destruct (truthy_q v && Qltb 0 v); [|apply writes_refl].
  apply writes_one. constructor.
Qed.

Lemma import_row_writes {L : Lower} (i : Z) (row : CsvRow.t)
    (clk clk' : Clock) (st : ImportStats.t) (db : DB) :
  writes db (snd (import_row i row clk clk' st db)).
Proof.
  unfold import_row.
  destruct (negb (truthy_str (CsvRow.name row))); [apply writes_refl|].
  set (a := upsert_args_of_row row _).
  destruct (upsert_item a clk db) as [[item_id db1]|e] eqn:E;
    [|apply writes_refl].
  simpl. eapply writes_trans; [|apply record_initial_price_writes].
  apply writes_one. econstructor. exact E.
Qed.

Lemma import_rows_writes {L : Lower} (rows : list CsvRow.t)
    (clock : Z -> Clock * Clock) (i : Z) (st : ImportStats.t) (db : DB) :
  writes db (snd (import_rows i rows clock st db)).
Proof.
  revert i st db. induction rows as [|row rows IH]; intros i st db; simpl.
  - apply writes_refl.
  - pose proof (import_row_writes i row (fst (clock i)) (snd (clock i))
                  st db) as W.
    destruct (import_row i row (fst (clock i)) (snd (clock i)) st db)
      as [st1 db1].
    eapply writes_trans; [exact W|apply IH].
Qed.

Lemma update_card_writes (item : Item.t) (api_id : option string)
    (price : option Q) (clk clk' : Clock) (db : DB) :
  writes db (update_card item api_id price clk clk' db).
Proof.
  unfold update_card. destruct price as [v|]; [|apply writes_refl].
  eapply writes_step; [|constructor].
  destruct api_id as [a|]; [|apply writes_refl].
  destruct (truthy_str a && negb (truthy_ostr (Item.api_id item)));
    [|apply writes_refl].
  apply writes_one. constructor.
Qed.

Lemma write_keeps (db db' : DB) :
  write db db' ->
  prefix_of (prices db) (prices db')
  /\ (forall r, In r (items db) ->
        exists r', In r' (items db') /\ Item.id r' = Item.id r
                   /\ natural_key r' = natural_key r
                   /\ Item.created_at r' = Item.created_at r).
Proof.
  assert (U : forall item_id f l r,
             (forall x, Item.id (f x) = Item.id x
                        /\ natural_key (f x) = natural_key x
                        /\ Item.created_at (f x) = Item.created_at x) ->
             In r l ->
             exists r', In r' (update_where_id item_id f l)
                        /\ Item.id r' = Item.id r
                        /\ natural_key r' = natural_key r
                        /\ Item.created_at r' = Item.created_at r).
  { intros item_id f l r Hf Hin.
    exists (if Item.id r =? item_id then f r else r). split.
    - apply in_update_where_id. exists r. tauto.
    - destruct (Item.id r =? item_id); [apply Hf|tauto]. }
  intros W. destruct W.
  - destruct (upsert_item_cases a clk db db' item_id H)
      as (_ & [(E & ->)|(E & -> & ->)]).
    + simpl. split; [exists []; symmetry; apply app_nil_r|].
      intros r Hin. apply U; [|exact Hin]. intros x. repeat split.
    + simpl. split; [exists []; symmetry; apply app_nil_r|].
      intros r Hin. exists r. split; [apply in_or_app; tauto|tauto].
  - simpl. split; [eexists; reflexivity|].
    intros r Hin. exists r. tauto.
  - simpl. split; [exists []; symmetry; apply app_nil_r|].
    intros r Hin. apply U; [|exact Hin]. intros x. repeat split.
  - simpl. split; [exists []; symmetry; apply app_nil_r|].
    intros r Hin. apply U; [|exact Hin]. intros x. repeat split.
Qed.

(** X5.  Through any sequence of store writes the price table only grows
    at its end, and every item stays, under the same id, with the same
    natural key and creation stamp: nothing in the module edits or deletes
    an observation or deletes or re-keys an item.  A whole CSV import and
    the store updates of a price refresh are such sequences. *)
Theorem writes_never_delete {L : Lower} :
  (forall db db', writes db db' ->
     prefix_of (prices db) (prices db')
     /\ (forall r, In r (items db) ->
           exists r', In r' (items db') /\ Item.id r' = Item.id r
                      /\ natural_key r' = natural_key r
                      /\ Item.created_at r' = Item.created_at r))
  /\ (forall rows clock db, writes db (snd (import_csv rows clock db)))
  /\ (forall item api_id price clk clk' db,
        writes db (update_card item api_id price clk clk' db)).
Proof.
  split; [|split].
  - intros db db' W. induction W as [db|db db' db'' W IH S].
    + split; [exists []; symmetry; apply app_nil_r|].
      intros r Hin. exists r. tauto.
    + destruct IH as [(add1 & E1) K1].
      destruct (write_keeps db' db'' S) as [(add2 & E2) K2].
      split.
      * exists (add1 ++ add2)%list. rewrite E2, E1, app_assoc. reflexivity.
      * intros r Hin. destruct (K1 r Hin) as (r1 & Hin1 & I1 & N1 & C1).
        destruct (K2 r1 Hin1) as (r2 & Hin2 & I2 & N2 & C2).
        exists r2. repeat split; congruence.
  - intros rows clock db. apply import_rows_writes.
  - intros. apply update_card_writes.
Qed.

Lemma writes_never_delete_witness :
  prefix_of (prices fresh_db)
    (prices (snd (import_csv (L := ascii_text) [priced_row]
                    (fun _ => (noon, noon)) fresh_db))).
Proof.
  exact (proj1 (proj1 (writes_never_delete (L := ascii_text)) _ _
                  (proj1 (proj2 (writes_never_delete (L := ascii_text)))
                     [priced_row] (fun _ => (noon, noon)) fresh_db))).
Defined.

(** ** The counts of the summary *)

Lemma int_of_bool_flag (b : bool) : int_of_bool b = 0 \/ int_of_bool b = 1.
Proof. destruct b; simpl; tauto. Qed.

Lemma reachable_flags_ok (db : DB) : reachable db -> flags_ok db.
Proof.
  assert (U : forall item_id f l,
             (forall x, Item.is_sealed x = 0 \/ Item.is_sealed x = 1 ->
                        Item.is_sealed (f x) = 0 \/ Item.is_sealed (f x) = 1) ->
             (forall r, In r l -> Item.is_sealed r = 0 \/ Item.is_sealed r = 1) ->
             forall r, In r (update_where_id item_id f l) ->
                       Item.is_sealed r = 0 \/ Item.is_sealed r = 1).
  { intros item_id f l Hf Hl r Hin. apply in_update_where_id in Hin.
    destruct Hin as (x & Hx & ->).
    destruct (Item.id x =? item_id); [apply Hf|]; apply Hl; exact Hx. }
  unfold flags_ok. induction 1.
  - intros r [].
  - destruct (upsert_item_cases a clk db db' item_id H0)
      as (_ & [(E & ->)|(E & -> & ->)]).
    + simpl. apply U; [|exact IHreachable].
      intros x _. apply int_of_bool_flag.
    + simpl. intros r Hin. apply in_app_or in Hin.
      destruct Hin as [Hin|[<-|[]]]; [auto|apply int_of_bool_flag].
  - exact IHreachable.
  - simpl. apply U; [|exact IHreachable]. intros x Hx. exact Hx.
  - simpl. apply U; [|exact IHreachable]. intros x Hx. exact Hx.
Qed.

Lemma fold_add_flags (l : list Item.t) (a b : Z) :
  (forall r, In r l -> Item.is_sealed r = 0 \/ Item.is_sealed r = 1) ->
  fold_left Z.add
    (map (fun i => if Item.is_sealed i =? 1 then 1 else 0) l) a
  + fold_left Z.add
      (map (fun i => if Item.is_sealed i =? 0 then 1 else 0) l) b
  = a + b + Z.of_nat (List.length l)
  /\ a <= fold_left Z.add
            (map (fun i => if Item.is_sealed i =? 1 then 1 else 0) l) a
  /\ b <= fold_left Z.add
            (map (fun i => if Item.is_sealed i =? 0 then 1 else 0) l) b.
Proof.
  revert a b. induction l as [|r l IH]; intros a b H.
  - simpl. lia.
  - cbn [map fold_left List.length].
    assert (Hl : forall x, In x l ->
                           Item.is_sealed x = 0 \/ Item.is_sealed x = 1)
      by (intros x Hx; apply H; right; exact Hx).
    destruct (H r (or_introl eq_refl)) as [E|E]; rewrite E; simpl Z.eqb;
      cbv iota;
      match goal with
      | |- context [fold_left Z.add ?l1 ?x + fold_left Z.add ?l2 ?y] =>
          destruct (IH x y Hl) as (H1 & H2 & H3)
      end; lia.
Qed.

(** X6.  On a reachable store whose integer sums fit 64 bits (otherwise
    the summary raises) the summary counts every item as either a card or
    a sealed product: with at least one item, [total_quantity] is the sum
    of the quantities, and [sealed_count] and [card_count] are present,
    non-negative, and add up to [item_count]; on the empty store
    [item_count] is 0 and the three sums are absent (SQL [SUM] over no
    rows), not 0. *)
Theorem summary_counts (db : DB) (now : Z) :
  reachable db ->
  summable db = true ->
  exists s,
    get_summary_stats db now = Ok s
    /\ Stats.item_count s = Z.of_nat (List.length (items db))
    /\ (items db = [] ->
        Stats.total_quantity s = None
        /\ Stats.sealed_count s = None
        /\ Stats.card_count s = None)
    /\ (items db <> [] ->
        exists sealed_count card_count,
          Stats.total_quantity s
          = Some (Zsum (map Item.quantity (items db)))
          /\ Stats.sealed_count s = Some sealed_count
          /\ Stats.card_count s = Some card_count
          /\ 0 <= sealed_count
          /\ 0 <= card_count
          /\ sealed_count + card_count = Stats.item_count s).
Proof.
  intros Hr Hs. pose proof (reachable_flags_ok db Hr) as Hf.
  unfold flags_ok in Hf.
  destruct (get_summary_stats_returns db now Hs) as (s & H).
  destruct (get_summary_stats_closed db now s H)
    as (_ & _ & _ & _ & _ & _ & Hn & Hq & Hsc & Hcc).
  apply sql_sum_int_ok in Hq, Hsc, Hcc.
  exists s. split; [exact H|]. split; [exact Hn|]. split.
  - intros E. rewrite E in Hq, Hsc, Hcc. repeat split; assumption.
  - intros Hne. destruct (items db) as [|r l] eqn:E; [congruence|].
    cbn [map] in Hq, Hsc, Hcc.
    eexists _, _. split; [exact Hq|]. split; [exact Hsc|].
    split; [exact Hcc|].
    destruct (fold_add_flags (r :: l) 0 0 Hf) as (H1 & H2 & H3).
    rewrite Hn. repeat split; try assumption.
Qed.

Lemma summary_counts_witness :
  exists s,
    get_summary_stats resolved_db 1700000000 = Ok s
    /\ Stats.item_count s = 1
    /\ Stats.total_quantity s = Some 1
    /\ Stats.sealed_count s = Some 0
    /\ Stats.card_count s = Some 1.
Proof.
  destruct (summary_counts resolved_db 1700000000 resolved_db_reachable
              eq_refl)
    as (s & H & C & _).
  exists s. split; [exact H|]. split; [exact C|].
  injection H as <-. repeat split.
Defined.

(** ** The price history of an item *)

Section SortedInsertion.
Variable A : Type.
Variable before : A -> A -> bool.
Hypothesis before_total : forall x y, before x y = true \/ before y x = true.
Hypothesis before_trans :
  forall x y z, before x y = true -> before y z = true -> before x z = true.

Lemma insert_sorted_sorted (x : A) (s : list A) :
  StronglySorted (fun a b => before a b = true) s ->
  StronglySorted (fun a b => before a b = true) (insert_sorted before x s).
Proof.
  induction 1 as [|c s Hs IH Hc]; simpl.
  - repeat constructor.
  - destruct (before x c) eqn:E.
    + constructor; [constructor; assumption|].
      constructor; [exact E|].
      rewrite Forall_forall in *. intros z Hz.
      exact (before_trans x c z E (Hc z Hz)).
    + constructor; [exact IH|].
      rewrite Forall_forall in *. intros z Hz.
      apply (Permutation_in _ (insert_sorted_perm before x s)) in Hz.
      destruct Hz as [<-|Hz]; [|exact (Hc z Hz)].
      destruct (before_total x c) as [T|T]; [congruence|exact T].
Qed.

Lemma insertion_sort_sorted (l : list A) :
  StronglySorted (fun a b => before a b = true) (insertion_sort before l).
Proof.
  induction l as [|x l IH]; simpl; [constructor|].
  apply insert_sorted_sorted. exact IH.
Qed.
End SortedInsertion.

Lemma StronglySorted_firstn {A : Type} (R : A -> A -> Prop) (n : nat)
    (l : list A) :
  StronglySorted R l -> StronglySorted R (firstn n l).
Proof.
  intros H. revert n. induction H as [|x l Hl IH Hx]; intros [|n]; simpl;
    try constructor.
  - apply IH.
  - rewrite Forall_forall in *. intros y Hy. apply Hx.
    rewrite <- (firstn_skipn n l). apply in_or_app. left. exact Hy.
Qed.

Lemma StronglySorted_map {A B : Type} (R : A -> A -> Prop)
    (S : B -> B -> Prop) (f : A -> B) (l : list A) :
  (forall x y, R x y -> S (f x) (f y)) ->
  StronglySorted R l -> StronglySorted S (map f l).
Proof.
  intros HRS H. induction H as [|x l Hl IH Hx]; simpl; constructor.
  - exact IH.
  - rewrite Forall_forall in *. intros y Hy. apply in_map_iff in Hy.
    destruct Hy as (z & <- & Hz). apply HRS, Hx, Hz.
Qed.


(** The item's observations, newest first, before the bound applies. *)
Lemma history_sorted (item_id : Z) (db : DB) :
  StronglySorted
    (fun a b => Price.timestamp b <= Price.timestamp a)
    (insertion_sort (fun x c => Price.timestamp c <=? Price.timestamp x)
       (filter (fun p => Price.item_id p =? item_id) (prices db))).
Proof.
  set (own := filter _ (prices db)).
  assert (T : forall x y : Price.t,
             (Price.timestamp y <=? Price.timestamp x) = true
             \/ (Price.timestamp x <=? Price.timestamp y) = true)
    by (intros x y; rewrite !Z.leb_le; lia).
  assert (R : forall x y z : Price.t,
             (Price.timestamp y <=? Price.timestamp x) = true ->
             (Price.timestamp z <=? Price.timestamp y) = true ->
             (Price.timestamp z <=? Price.timestamp x) = true)
    by (intros x y z; rewrite !Z.leb_le; lia).
  pose proof (insertion_sort_sorted Price.t
                (fun x c => Price.timestamp c <=? Price.timestamp x)
                T R own) as H.
  rewrite <- (map_id (insertion_sort _ own)).
  eapply StronglySorted_map; [|exact H].
  intros x y E. apply Z.leb_le. exact E.
Qed.



Lemma in_left_join {A : Type} (l : list A) (x : option A) :
  In x (left_join l) <->
  (l = [] /\ x = None) \/ exists a, In a l /\ x = Some a.
Proof.
  destruct l as [|a l]; simpl.
  - split.
    + intros [<-|[]]. left. tauto.
    + intros [[_ ->]|(a & [] & _)]. left. reflexivity.
  - split.
    + intros [<-|H].
      * right. exists a. tauto.
      * apply in_map_iff in H. destruct H as (b & <- & Hb).
        right. exists b. tauto.
    + intros [[H _]|(b & [->|Hb] & ->)]; [discriminate|tauto|].
      right. apply in_map. exact Hb.
Qed.

(** The current side of a joined pair sits at the item's latest
    timestamp. *)
Lemma join_prices_current (db : DB) (item_id : Z)
    (j : option Price.t * option Price.t) :
  In j (join_prices db item_id) ->
  match fst j with
  | Some p1 =>
      In p1 (prices db) /\ Price.item_id p1 = item_id
      /\ ts_is p1 (max_timestamp db item_id (fun _ => true)) = true
  | None =>
      forall p, In p (prices db) -> Price.item_id p = item_id ->
                ts_is p (max_timestamp db item_id (fun _ => true)) = false
  end.
Proof.
  unfold join_prices. rewrite in_flat_map. intros (p1 & H1 & H2).
  apply in_map_iff in H2. destruct H2 as (p2 & <- & _). simpl.
  apply in_left_join in H1. destruct H1 as [[F ->]|(a & Ha & ->)].
  - intros p Hp Hid.
    pose proof (filter_nil_forall _ _ F p Hp) as E. simpl in E.
    rewrite <- Hid, Z.eqb_refl in E. rewrite <- Hid. exact E.
  - apply filter_In in Ha. rewrite andb_true_iff, Z.eqb_eq in Ha. tauto.
Qed.

(** X8.  The newest entry of an item's price history and the current
    price that [get_all_items] joins to the item carry the same timestamp;
    and they are the same price when no two observations of the item share
    a timestamp. *)
Theorem history_head_is_current (item_id limit : Z) (db : DB)
    (h : History.t) (rest : list History.t) :
  get_price_history item_id limit db = h :: rest ->
  forall r, In r (get_all_items db) -> Item.id (Row.item r) = item_id ->
    Row.price_timestamp r = Some (History.timestamp h)
    /\ ((forall p q, In p (prices db) -> In q (prices db) ->
           Price.item_id p = item_id -> Price.item_id q = item_id ->
           Price.timestamp p = Price.timestamp q -> p = q) ->
        Row.current_price r = Some (History.price h)).
Proof.
  intros Hh r Hr Hid.
  set (own := filter (fun p => Price.item_id p =? item_id) (prices db)).
  set (mk := fun p => History.mk (Price.price p) (Price.timestamp p)).
  set (sorted :=
         insertion_sort (fun x c => Price.timestamp c <=? Price.timestamp x)
           own).
  assert (Hs : exists p0 tl, sorted = p0 :: tl /\ h = mk p0).
  { change (sql_limit limit (map mk sorted) = h :: rest) in Hh.
    destruct sorted as [|p0 tl].
    - unfold sql_limit in Hh. simpl in Hh.
      destruct (limit <? 0); [discriminate|].
      destruct (Z.to_nat limit); discriminate.
    - exists p0, tl. split; [reflexivity|].
      unfold sql_limit in Hh. destruct (limit <? 0).
      + simpl in Hh. congruence.
      + destruct (Z.to_nat limit); simpl in Hh; congruence. }
  destruct Hs as (p0 & tl & Es & ->).
  pose proof (history_sorted item_id db) as S. fold own sorted in S.
  pose proof (insertion_sort_perm
                (fun x c => Price.timestamp c <=? Price.timestamp x) own)
    as P. fold sorted in P.
  assert (H0 : In p0 own)
    by (apply (Permutation_in _ P); rewrite Es; left; reflexivity).
  apply filter_In in H0. rewrite Z.eqb_eq in H0.
  assert (Hmax : forall q, In q (prices db) -> Price.item_id q = item_id ->
                           Price.timestamp q <= Price.timestamp p0).
  { intros q Hq Hqid.
    assert (Hin : In q sorted).
    { apply (Permutation_in _ (Permutation_sym P)). apply filter_In.
      rewrite Z.eqb_eq. tauto. }
    rewrite Es in Hin, S. inversion S as [|? ? _ F]; subst.
    destruct Hin as [<-|Hin]; [lia|].
    rewrite Forall_forall in F. exact (F q Hin). }
  assert (Hts : forall p, In p (prices db) -> Price.item_id p = item_id ->
                  (ts_is p (max_timestamp db item_id (fun _ => true)) = true
                   <-> Price.timestamp p = Price.timestamp p0)).
  { intros p Hp Hpid. rewrite ts_is_max_timestamp. split.
    - intros [_ Hall]. apply Z.le_antisymm; [apply Hmax; assumption|].
      apply Hall; tauto.
    - intros E. split.
      + exists p. tauto.
      + intros q Hq Hqid _. rewrite E. apply Hmax; assumption. }
  apply in_get_all_items in Hr. destruct Hr as (i & j & Hi & Hj & ->).
  simpl in Hid. rewrite Hid in Hj.
  pose proof (join_prices_current db item_id j Hj) as Hc.
  unfold mk_row. simpl. destruct (fst j) as [p1|].
  - destruct Hc as (Hp1 & Hid1 & T). apply (Hts p1 Hp1 Hid1) in T.
    simpl. split; [congruence|].
    intros Hdistinct. f_equal. f_equal.
    apply Hdistinct; tauto.
  - exfalso. pose proof (Hc p0 (proj1 H0) (proj2 H0)) as F.
    assert (T : ts_is p0 (max_timestamp db item_id (fun _ => true)) = true)
      by (apply Hts; tauto).
    congruence.
Qed.

Lemma history_head_is_current_witness :
  Row.price_timestamp
    (Row.mk null_item (Some 55%Q) (Some 1700000060) (Some 50%Q))
  = Some 1700000060.
Proof.
  refine (proj1 (history_head_is_current 1 30 two_prices_db
                   (History.mk 55%Q 1700000060)
                   [History.mk 50%Q 1700000000] eq_refl
                   (Row.mk null_item (Some 55%Q) (Some 1700000060)
                      (Some 50%Q)) _ eq_refl)).
  left. reflexivity.
Defined.




(** ** The analysis in closed form *)

(** What [analyze] returns on a non-empty list of rows. *)
Lemma analyze_nonempty (r : Row.t) (rows : list Row.t) (stats : Stats.t)
    (items : list AItem.t) :
  map_result analyze_item (r :: rows) = Ok items ->
  let total_value := or_zero_q (Stats.total_value stats) in
  let cards := filter (fun x => negb (is_sealed_item x)) items in
  let sealed := filter is_sealed_item items in
  let sorted_by_value := sorted_by AItem.total_value true items in
  let top_5_value :=
    Qsum (map AItem.total_value (firstn 5 sorted_by_value)) in
  let with_changes :=
    filter (fun x => negb (Qeq_bool (AItem.change_pct x) 0)) items in
  let with_pnl :=
    filter (fun x => match AItem.pnl_pct x with
                     | Some _ => true
                     | None => false
                     end) items in
  analyze (r :: rows) stats =
  Ok (Analysis.mk None
        total_value
        (or_zero_q (Stats.total_cost stats))
        (Stats.total_profit stats)
        (Stats.item_count stats)
        (Stats.total_quantity stats)
        (Stats.daily_change stats)
        (Stats.daily_change_pct stats)
        (Part.mk (Z.of_nat (List.length cards))
           (Qsum (map AItem.total_value cards))
           (pct_value (Qsum (map AItem.total_value cards)) total_value))
        (Part.mk (Z.of_nat (List.length sealed))
           (Qsum (map AItem.total_value sealed))
           (pct_value (Qsum (map AItem.total_value sealed)) total_value))
        top_5_value (pct_value top_5_value total_value)
        (firstn 10 sorted_by_value)
        (firstn 5
           (sorted_by AItem.change_pct true
              (filter (fun x => Qltb 0 (AItem.change_pct x)) with_changes)))
        (firstn 5
           (sorted_by AItem.change_pct false
              (filter (fun x => Qltb (AItem.change_pct x) 0) with_changes)))
        (firstn 5 (sorted_by pnl_pct_key true with_pnl))
        (firstn 5 (sorted_by pnl_pct_key false with_pnl))
        (firstn 10
           (sorted_by (fun kv => SetAgg.value (snd kv)) true
              (sets_of items)))
        items).
Proof.
  intros Hi. unfold analyze. rewrite Hi.
  unfold bind at 1. rewrite !pct_of_total. reflexivity.
Qed.

(** ** Sums over arrangements *)

Lemma Qsum_perm (l1 l2 : list Q) :
  Permutation l1 l2 -> Qsum l1 == Qsum l2.
Proof.
  induction 1.
  - reflexivity.
  - rewrite !Qsum_cons, IHPermutation. reflexivity.
  - rewrite !Qsum_cons. ring.
  - rewrite IHPermutation1. exact IHPermutation2.
Qed.

Lemma Qsum_partition {A : Type} (f : A -> Q) (p : A -> bool) (l : list A) :
  Qsum (map f (filter (fun x => negb (p x)) l)) + Qsum (map f (filter p l))
  == Qsum (map f l).
Proof.
  induction l as [|x l IH]; simpl.
  - reflexivity.
  - destruct (p x); simpl; rewrite !Qsum_cons, <- IH; ring.
Qed.

Lemma length_partition {A : Type} (p : A -> bool) (l : list A) :
  (List.length (filter (fun x => negb (p x)) l) + List.length (filter p l)
   = List.length l)%nat.
Proof.
  induction l as [|x l IH]; simpl; [reflexivity|].
  destruct (p x); simpl; lia.
Qed.

(** ** One row per item when timestamps are distinct *)

Lemma sql_max_attained (l : list Price.t) (t : Z) :
  sql_max (map Price.timestamp l) = Some t ->
  exists p, In p l /\ Price.timestamp p = t.
Proof.
  intros H. apply sql_max_some in H. destruct H as [Hin _].
  apply in_map_iff in Hin. destruct Hin as (p & E & Hp). eauto.
Qed.

Lemma sql_max_none (l : list Price.t) :
  sql_max (map Price.timestamp l) = None -> l = [].
Proof. destruct l; [reflexivity|discriminate]. Qed.

(** With distinct timestamps the joins give one pair: the newest
    observation with the one before it, or nothing with nothing. *)
Lemma join_on_distinct (own : list Price.t) :
  NoDup (map Price.timestamp own) ->
  (own = [] /\ join_on own = [(None, None)])
  \/ exists p1 prev,
       In p1 own
       /\ sql_max (map Price.timestamp own) = Some (Price.timestamp p1)
       /\ join_on own = [(Some p1, prev)]
       /\ match prev with
          | Some p2 =>
              In p2 own /\ Price.timestamp p2 < Price.timestamp p1
              /\ forall q, In q own ->
                   Price.timestamp q < Price.timestamp p1 ->
                   Price.timestamp q <= Price.timestamp p2
          | None =>
              forall q, In q own ->
                        Price.timestamp p1 <= Price.timestamp q
          end.
Proof.
  intros N. unfold join_on.
  destruct (sql_max (map Price.timestamp own)) as [t|] eqn:M.
  - right. destruct (sql_max_attained own t M) as (p1 & H1 & <-).
    rewrite (filter_ts_single own p1 N H1). simpl left_join.
    simpl flat_map. rewrite app_nil_r.
    set (older := filter (fun p => Price.timestamp p <? Price.timestamp p1)
                         own).
    destruct (sql_max (map Price.timestamp older)) as [t2|] eqn:M2.
    + destruct (sql_max_attained older t2 M2) as (p2 & H2 & <-).
      apply filter_In in H2. destruct H2 as [H2 L2]. apply Z.ltb_lt in L2.
      rewrite (filter_ts_single own p2 N H2). simpl.
      exists p1, (Some p2).
      split; [exact H1|]. split; [reflexivity|]. split; [reflexivity|].
      split; [exact H2|]. split; [exact L2|].
      intros q Hq Lq. apply sql_max_some in M2. apply (proj2 M2).
      apply in_map. apply filter_In. split; [exact Hq|].
      apply Z.ltb_lt. exact Lq.
    + apply sql_max_none in M2.
      rewrite (filter_forall_nil (fun p => ts_is p None) own)
        by reflexivity.
      simpl.
      exists p1, None.
      split; [exact H1|]. split; [reflexivity|]. split; [reflexivity|].
      intros q Hq.
      destruct (Z.lt_ge_cases (Price.timestamp q) (Price.timestamp p1))
        as [L|G]; [|exact G].
      exfalso.
      assert (Hin : In q older)
        by (apply filter_In; split; [exact Hq|apply Z.ltb_lt; exact L]).
      rewrite M2 in Hin. exact Hin.
  - left. apply sql_max_none in M. subst. split; reflexivity.
Qed.

Lemma or_zero_some (v : Q) : or_zero (Some v) == v.
Proof.
  simpl. destruct (truthy_q v) eqn:E; [reflexivity|].
  apply truthy_q_false_iff in E. symmetry. exact E.
Qed.

Lemma or_zero_q_eq (x : Q) : or_zero_q x == x.
Proof.
  unfold or_zero_q. destruct (truthy_q x) eqn:E; [reflexivity|].
  apply truthy_q_false_iff in E. symmetry. exact E.
Qed.

Lemma or_zero_sql_sum (l : list Q) : or_zero (sql_sum l) == Qsum l.
Proof.
  destruct l as [|x l]; [reflexivity|].
  unfold sql_sum. apply or_zero_some.
Qed.

(** For one item with distinct timestamps: its single row is worth what
    the value query adds up for it. *)
Lemma item_row_value (db : DB) (i : Item.t) :
  NoDup (map Price.timestamp
           (filter (fun p => Price.item_id p =? Item.id i) (prices db))) ->
  exists j,
    join_prices db (Item.id i) = [j]
    /\ row_value (mk_row i j)
       == Qsum (map position_value
                  (map (pair i)
                     (filter
                        (fun p =>
                           (Item.id i =? Price.item_id p)
                           && ts_is p (max_timestamp db (Item.id i)
                                         (fun _ => true)))
                        (prices db)))).
Proof.
  intros N. set (own := filter _ (prices db)) in N.
  assert (F : filter
                (fun p =>
                   (Item.id i =? Price.item_id p)
                   && ts_is p (max_timestamp db (Item.id i) (fun _ => true)))
                (prices db)
              = filter
                  (fun p => ts_is p (sql_max (map Price.timestamp own)))
                  own).
  { assert (M0 : max_timestamp db (Item.id i) (fun _ => true)
                 = sql_max (map Price.timestamp own)).
    { unfold max_timestamp.
      rewrite (filter_andb (fun p => Price.item_id p =? Item.id i)
                 (fun _ => true)), filter_true.
      reflexivity. }
    rewrite M0. unfold own. rewrite <- filter_andb.
    apply filter_ext. intros p.
    rewrite (Z.eqb_sym (Item.id i)). reflexivity. }
  rewrite F, join_prices_frame. fold own.
  destruct (join_on_distinct own N)
    as [[-> ->]|(p1 & prev & H1 & M & -> & _)].
  - exists (None, None). split; [reflexivity|].
    unfold row_value. simpl. unfold Qsum. simpl. ring.
  - exists (Some p1, prev). split; [reflexivity|].
    rewrite M, (filter_ts_single own p1 N H1).
    unfold row_value, mk_row, position_value. cbn [map fst snd option_map
      Row.current_price Row.item].
    rewrite Qsum_cons, or_zero_some. unfold Qsum. simpl fold_left. ring.
Qed.

Lemma rows_value_total (db : DB) (l : list Item.t) :
  (forall i, In i l ->
     NoDup (map Price.timestamp
              (filter (fun p => Price.item_id p =? Item.id i) (prices db)))) ->
  Qsum
    (map row_value
       (flat_map (fun i => map (mk_row i) (join_prices db (Item.id i))) l))
  == Qsum
       (map position_value
          (flat_map
             (fun i =>
                map (pair i)
                  (filter
                     (fun p =>
                        (Item.id i =? Price.item_id p)
                        && ts_is p (max_timestamp db (Item.id i)
                                      (fun _ => true)))
                     (prices db))) l))
  /\ List.length
       (flat_map (fun i => map (mk_row i) (join_prices db (Item.id i))) l)
     = List.length l.
Proof.
  induction l as [|i l IH]; intros D.
  - split; reflexivity.
  - destruct (IH (fun x Hx => D x (or_intror Hx))) as [IHv IHl].
    destruct (item_row_value db i (D i (or_introl eq_refl)))
      as (j & Ej & Ev).
    cbn [flat_map]. rewrite Ej. cbn [map app].
    split.
    + rewrite Qsum_cons, map_app, Qsum_app, IHv, Ev. reflexivity.
    + simpl. rewrite IHl. reflexivity.
Qed.

Lemma rows_items (db : DB) (l : list Item.t) :
  (forall i, In i l ->
     NoDup (map Price.timestamp
              (filter (fun p => Price.item_id p =? Item.id i) (prices db)))) ->
  map Row.item
    (flat_map (fun i => map (mk_row i) (join_prices db (Item.id i))) l)
  = l.
Proof.
  induction l as [|i l IH]; intros D; [reflexivity|].
  destruct (item_row_value db i (D i (or_introl eq_refl))) as (j & Ej & _).
  cbn [flat_map]. rewrite Ej. cbn [map app].
  rewrite (IH (fun x Hx => D x (or_intror Hx))). reflexivity.
Qed.

Lemma filter_length_perm {A : Type} (f : A -> bool) (l l' : list A) :
  Permutation l l' ->
  List.length (filter f l) = List.length (filter f l').
Proof.
  induction 1 as [|x l l' _ IH|x y l|l l' l'' _ IH1 _ IH2]; simpl.
  - reflexivity.
  - destruct (f x); simpl; rewrite IH; reflexivity.
  - destruct (f x), (f y); reflexivity.
  - rewrite IH1. exact IH2.
Qed.

Lemma filter_length_map {A B : Type} (g : A -> B) (f : B -> bool)
    (l : list A) :
  List.length (filter (fun x => f (g x)) l)
  = List.length (filter f (map g l)).
Proof.
  induction l as [|x l IH]; simpl; [reflexivity|].
  destruct (f (g x)); simpl; rewrite IH; reflexivity.
Qed.

(** X10.  Take a store whose integer sums fit 64 bits and in which no two
    observations of an item share a timestamp.  The analysis returns and
    holds exactly one analysed item per stored item; the card count of its
    composition is the number of stored items whose sealed flag is 0, the
    sealed count the number of the others, and the two add up to the
    number of stored items. *)
Theorem composition_counts (db : DB) (now : Z) :
  summable db = true ->
  distinct_timestamps db ->
  exists a,
    analyze_portfolio db now = Ok a
    /\ Permutation (map (fun x => Row.item (AItem.row x)) (Analysis.items a))
         (items db)
    /\ Part.count (Analysis.cards a)
       = count (fun i => Item.is_sealed i =? 0) (items db)
    /\ Part.count (Analysis.sealed a)
       = count (fun i => negb (Item.is_sealed i =? 0)) (items db)
    /\ Part.count (Analysis.cards a) + Part.count (Analysis.sealed a)
       = Z.of_nat (List.length (items db)).
Proof.
  intros Hsum D. unfold analyze_portfolio.
  destruct (get_summary_stats_total db now Hsum) as (s & Hs & _).
  rewrite Hs. unfold bind.
  pose proof (rows_items db (items db) D) as Hitems.
  set (rows_u := flat_map _ (items db)) in Hitems.
  assert (P : Permutation (get_all_items db) rows_u)
    by apply insertion_sort_perm.
  destruct (get_all_items db) as [|r rows] eqn:G.
  - apply Permutation_nil in P. rewrite P in Hitems. simpl in Hitems.
    exists empty_analysis. split; [reflexivity|]. rewrite <- Hitems.
    split; [constructor|]. repeat split.
  - destruct (map_result_analyze (r :: rows)) as (its & Hi & Hr & _).
    rewrite (analyze_nonempty r rows s its Hi).
    eexists. split; [reflexivity|].
    cbn [Analysis.cards Analysis.sealed Analysis.items Part.count].
    assert (Pi : Permutation (map (fun x => Row.item (AItem.row x)) its)
                   (items db)).
    { rewrite <- (map_map AItem.row Row.item), Hr, <- Hitems.
      apply Permutation_map. exact P. }
    split; [exact Pi|]. unfold count. split.
    { f_equal. rewrite <- (filter_length_perm _ _ _ Pi).
      rewrite <- filter_length_map. f_equal. apply filter_ext.
      intros x. unfold is_sealed_item. apply negb_involutive. }
    split.
    { f_equal. rewrite <- (filter_length_perm _ _ _ Pi).
      rewrite <- filter_length_map. reflexivity. }
    rewrite <- Nat2Z.inj_add, length_partition.
    rewrite <- (Permutation_length Pi), length_map. reflexivity.
Qed.

Lemma composition_counts_witness :
  exists a x,
    analyze_portfolio two_prices_db 1700000100 = Ok a
    /\ Analysis.items a = [x]
    /\ Row.item (AItem.row x) = null_item
    /\ Part.count (Analysis.cards a) = 1
    /\ Part.count (Analysis.sealed a) = 0.
Proof.
  destruct (composition_counts two_prices_db 1700000100 eq_refl)
    as (a & H & P & Cc & Cs & _).
  - intros i [<-|[]]. vm_compute. repeat constructor; simpl; intuition lia.
  - pose proof (Permutation_length P) as Hl. rewrite length_map in Hl.
    destruct (Analysis.items a) as [|x [|y l]] eqn:E; try discriminate Hl.
    exists a, x. split; [exact H|]. split; [exact E|]. split.
    + cbn [map] in P. apply Permutation_length_1 in P. exact P.
    + split; [exact Cc|exact Cs].
Defined.

(** ** The bookkeeping of an import *)

Lemma import_row_accepted {L : Lower} (i : Z) (row : CsvRow.t)
    (clk clk' : Clock) (st : ImportStats.t) (db : DB) :
  row_accepted row = true ->
  exists item_id db1,
    upsert_item
      (upsert_args_of_row row
         (is_sealed_product (Some (CsvRow.category row))
                            (Some (CsvRow.name row)))) clk db
    = Ok (item_id, db1)
    /\ import_row i row clk clk' st db
       = (add_imported
            (is_sealed_product (Some (CsvRow.category row))
                               (Some (CsvRow.name row))) st,
          record_initial_price item_id (initial_price row) clk' db1).
Proof.
  unfold row_accepted, row_named, import_row. intros H.
  apply andb_true_iff in H. destruct H as [-> Hq]. simpl negb. cbv iota.
  set (a := upsert_args_of_row row _).
  destruct (upsert_item_total a clk db Hq) as (item_id & db1 & H & _).
  exists item_id, db1. rewrite H. split; reflexivity.
Qed.

(** A row without a name, or with a quantity SQLite cannot hold, is
    reported and leaves the store as it was. *)
Lemma import_row_rejected {L : Lower} (i : Z) (row : CsvRow.t)
    (clk clk' : Clock) (st : ImportStats.t) (db : DB) :
  row_accepted row = false ->
  exists msg, import_row i row clk clk' st db = (add_error msg st, db).
Proof.
  unfold row_accepted, row_named, import_row. intros H.
  destruct (truthy_str (CsvRow.name row)); cbn [andb negb] in *.
  - set (a := upsert_args_of_row row _).
    rewrite (upsert_item_overflow a clk db H). eexists. reflexivity.
  - eexists. reflexivity.
Qed.

Lemma import_rows_stats {L : Lower} (rows : list CsvRow.t)
    (clock : Z -> Clock * Clock) (i : Z) (st : ImportStats.t) (db : DB) :
  let st' := fst (import_rows i rows clock st db) in
  ImportStats.total st' = ImportStats.total st
  /\ ImportStats.updated st' = ImportStats.updated st
  /\ ImportStats.imported st'
     = ImportStats.imported st + count row_accepted rows
  /\ ImportStats.sealed st' = ImportStats.sealed st + count row_sealed rows
  /\ ImportStats.cards st' + ImportStats.sealed st'
     = ImportStats.cards st + ImportStats.sealed st
       + count row_accepted rows
  /\ Z.of_nat (List.length (ImportStats.errors st'))
     = Z.of_nat (List.length (ImportStats.errors st))
       + count (fun row => negb (row_accepted row)) rows.
Proof.
  unfold count. revert i st db.
  induction rows as [|row rows IH]; intros i st db.
  - simpl. lia.
  - cbn [import_rows].
    destruct (row_accepted row) eqn:N.
    + destruct (import_row_accepted i row (fst (clock i)) (snd (clock i))
                  st db N) as (item_id & db1 & _ & ->).
      specialize (IH (i + 1)
                    (add_imported
                       (is_sealed_product (Some (CsvRow.category row))
                                          (Some (CsvRow.name row))) st)
                    (record_initial_price item_id (initial_price row)
                       (snd (clock i)) db1)).
      cbv zeta in IH. cbv zeta.
      set (st' := fst (import_rows _ rows clock _ _)) in *.
      unfold row_sealed in *. cbn [filter]. rewrite N. cbn [negb andb].
      destruct (is_sealed_product (Some (CsvRow.category row))
                                  (Some (CsvRow.name row)));
        cbn [add_imported ImportStats.total ImportStats.updated
             ImportStats.imported ImportStats.sealed ImportStats.cards
             ImportStats.errors List.length] in *; lia.
    + destruct (import_row_rejected i row (fst (clock i)) (snd (clock i))
                  st db N) as (msg & ->).
      specialize (IH (i + 1) (add_error msg st) db).
      cbv zeta in IH. cbv zeta.
      set (st' := fst (import_rows _ rows clock _ _)) in *.
      unfold row_sealed in *. cbn [filter]. rewrite N. cbn [negb andb].
      cbn [add_error ImportStats.total ImportStats.updated
           ImportStats.imported ImportStats.sealed ImportStats.cards
           ImportStats.errors List.length] in *.
      rewrite length_app in IH. simpl List.length in IH. lia.
Qed.

(** X11.  The statistics [import_csv] returns: [total] is the number of
    rows; [imported] is the number of rows with a product name and a
    quantity that fits SQLite's 64-bit INTEGER, each counted as a card or
    as sealed; there is one error for every other row, so [imported] and
    the errors add up to [total]; and [updated] stays 0, also when rows
    update stored items. *)
Theorem import_csv_accounting {L : Lower} (rows : list CsvRow.t)
    (clock : Z -> Clock * Clock) (db : DB) :
  let st := fst (import_csv rows clock db) in
  ImportStats.total st = Z.of_nat (List.length rows)
  /\ ImportStats.imported st = count row_accepted rows
  /\ ImportStats.sealed st = count row_sealed rows
  /\ ImportStats.cards st + ImportStats.sealed st = ImportStats.imported st
  /\ Z.of_nat (List.length (ImportStats.errors st))
     = count (fun row => negb (row_accepted row)) rows
  /\ ImportStats.imported st + Z.of_nat (List.length (ImportStats.errors st))
     = ImportStats.total st
  /\ ImportStats.updated st = 0.
Proof.
  unfold import_csv.
  pose proof (import_rows_stats rows clock 0
                (ImportStats.mk (Z.of_nat (List.length rows)) 0 0 0 0 []) db)
    as H.
  cbv zeta in H. destruct H as (I1 & I2 & I3 & I4 & I5 & I6).
  cbv zeta. cbn [ImportStats.total ImportStats.updated ImportStats.imported
    ImportStats.sealed ImportStats.cards ImportStats.errors List.length]
    in *.
  assert (P : count row_accepted rows
              + count (fun row => negb (row_accepted row)) rows
              = Z.of_nat (List.length rows)).
  { unfold count. rewrite <- Nat2Z.inj_add. f_equal.
    rewrite Nat.add_comm. apply length_partition. }
  repeat split; lia.
Qed.

Lemma import_csv_accounting_witness :
  let st := fst (import_csv (L := ascii_text) six_csv_rows
                   (fun _ => (noon, noon)) empty_db) in
  ImportStats.total st = 6
  /\ ImportStats.imported st = 4
  /\ ImportStats.sealed st = 1
  /\ ImportStats.cards st = 3
  /\ List.length (ImportStats.errors st) = 2%nat
  /\ ImportStats.updated st = 0.
Proof.
  destruct (import_csv_accounting (L := ascii_text) six_csv_rows
              (fun _ => (noon, noon)) empty_db)
    as (H1 & H2 & H3 & H4 & H5 & _ & H7).
  cbv zeta. rewrite H2 in H4. rewrite H1, H2, H3, H7.
  change (count row_accepted six_csv_rows) with 4 in *.
  change (count (row_sealed (L := ascii_text)) six_csv_rows) with 1 in *.
  change (count (fun row => negb (row_accepted row)) six_csv_rows)
    with 2 in H5.
  repeat split; lia.
Defined.

(** ** Importing a file again *)

Lemma reachable_writes (db db' : DB) :
  reachable db -> writes db db' -> reachable db'.
Proof.
  intros Hr W. induction W as [|db db' db'' W IH S]; [exact Hr|].
  specialize (IH Hr). destruct S.
  - eapply reach_upsert; eassumption.
  - apply reach_record. exact IH.
  - apply reach_api_id. exact IH.
  - apply reach_cost_basis. exact IH.
Qed.

Lemma writes_keep_keys (db db' : DB) (k : key) :
  writes db db' ->
  In k (map natural_key (items db)) -> In k (map natural_key (items db')).
Proof.
  intros W. induction W as [|db db' db'' W IH S]; [tauto|].
  intros Hk. specialize (IH Hk). apply in_map_iff in IH.
  destruct IH as (r & <- & Hr).
  destruct (proj2 (write_keeps db' db'' S) r Hr) as (r' & Hr' & _ & K & _).
  rewrite <- K. apply in_map. exact Hr'.
Qed.

(** The key an accepted import row is stored under. *)
Lemma import_rows_keys_present {L : Lower} (rows : list CsvRow.t)
    (clock : Z -> Clock * Clock) (i : Z) (st : ImportStats.t) (db : DB) :
  key_unique db ->
  forall row, In row rows -> row_accepted row = true ->
    In (args_key (upsert_args_of_row row false))
       (map natural_key (items (snd (import_rows i rows clock st db)))).
Proof.
  revert i st db. induction rows as [|r rows IH]; intros i st db Hu row Hin N;
    [contradiction|].
  cbn [import_rows].
  pose proof (import_row_writes i r (fst (clock i)) (snd (clock i)) st db)
    as W.
  destruct Hin as [->|Hin].
  - destruct (import_row_accepted i row (fst (clock i)) (snd (clock i))
                st db N) as (item_id & db1 & H & E).
    rewrite E.
    apply (writes_keep_keys
             (record_initial_price item_id (initial_price row)
                (snd (clock i)) db1)); [apply import_rows_writes|].
    rewrite record_initial_price_items.
    destruct (upsert_item_fields
                (upsert_args_of_row row
                   (is_sealed_product (Some (CsvRow.category row))
                                      (Some (CsvRow.name row))))
                (fst (clock i)) db
                (upsert_item_ok_int64 _ _ _ _ _ H) Hu)
      as (id' & db' & x & H' & Hx & _ & K & _).
    rewrite H in H'. injection H' as _ <-.
    change (args_key (upsert_args_of_row row false)) with
      (args_key
         (upsert_args_of_row row
            (is_sealed_product (Some (CsvRow.category row))
                               (Some (CsvRow.name row))))).
    rewrite <- K. apply in_map. exact Hx.
  - assert (Hu1 : key_unique
                    (snd (import_row i r (fst (clock i)) (snd (clock i))
                            st db))).
    { destruct (row_accepted r) eqn:Nr.
      - destruct (import_row_accepted i r (fst (clock i)) (snd (clock i))
                    st db Nr) as (item_id & db1 & H & ->).
        unfold key_unique. simpl snd. rewrite record_initial_price_items.
        exact (upsert_item_key_unique _ _ _ _ _ Hu H).
      - destruct (import_row_rejected i r (fst (clock i)) (snd (clock i))
                    st db Nr) as (msg & ->). exact Hu. }
    destruct (import_row i r (fst (clock i)) (snd (clock i)) st db)
      as [st1 db1].
    apply IH; assumption.
Qed.

(** Importing rows whose keys are all stored touches neither the ids, nor
    the keys, nor the counter of the item table. *)
Lemma import_rows_all_hits {L : Lower} (rows : list CsvRow.t)
    (clock : Z -> Clock * Clock) (i : Z) (st : ImportStats.t) (db : DB) :
  key_unique db ->
  (forall row, In row rows -> row_accepted row = true ->
     In (args_key (upsert_args_of_row row false))
        (map natural_key (items db))) ->
  let db' := snd (import_rows i rows clock st db) in
  map Item.id (items db') = map Item.id (items db)
  /\ map natural_key (items db') = map natural_key (items db)
  /\ items_seq db' = items_seq db.
Proof.
  revert i st db. induction rows as [|r rows IH]; intros i st db Hu Hall;
    [repeat split|].
  cbn [import_rows].
  assert (Step : let db1 := snd (import_row i r (fst (clock i))
                                   (snd (clock i)) st db) in
                 map Item.id (items db1) = map Item.id (items db)
                 /\ map natural_key (items db1) = map natural_key (items db)
                 /\ items_seq db1 = items_seq db).
  { destruct (row_accepted r) eqn:Nr.
    - specialize (Hall r (or_introl eq_refl) Nr).
      apply in_map_iff in Hall. destruct Hall as (x & K & Hx).
      set (a := upsert_args_of_row r
                  (is_sealed_product (Some (CsvRow.category r))
                                     (Some (CsvRow.name r)))).
      assert (Hk : key_match a x = true)
        by (apply key_match_iff; exact K).
      destruct (import_row_accepted i r (fst (clock i)) (snd (clock i))
                  st db Nr) as (item_id & db1' & H' & ->).
      fold a in H'.
      destruct (upsert_item_hit a (fst (clock i)) db x
                  (upsert_item_ok_int64 _ _ _ _ _ H') Hu Hx Hk)
        as (db1 & H & _ & _ & _ & _ & Hitems & _).
      rewrite H in H'. injection H' as <- <-.
      cbv zeta. simpl snd. rewrite record_initial_price_items, Hitems.
      rewrite update_where_id_ids by reflexivity.
      rewrite update_where_id_keys by apply set_upsert_key.
      split; [reflexivity|]. split; [reflexivity|].
      destruct (upsert_item_cases a (fst (clock i)) db db1 (Item.id x) H)
        as (_ & [(_ & ->)|(E & _)]).
      + unfold record_initial_price.
        destruct (initial_price r) as [v|];
          [destruct (truthy_q v && Qltb 0 v)|]; reflexivity.
      + unfold select_item_id in E.
        rewrite (key_unique_filter a db x Hu Hx Hk) in E. discriminate.
    - destruct (import_row_rejected i r (fst (clock i)) (snd (clock i))
                  st db Nr) as (msg & ->). repeat split. }
  cbv zeta in Step. destruct Step as (S1 & S2 & S3).
  assert (Hu1 : key_unique
                  (snd (import_row i r (fst (clock i)) (snd (clock i))
                          st db)))
    by (unfold key_unique; rewrite S2; exact Hu).
  destruct (import_row i r (fst (clock i)) (snd (clock i)) st db)
    as [st1 db1].
  simpl snd in *.
  assert (Hall1 : forall row, In row rows -> row_accepted row = true ->
                    In (args_key (upsert_args_of_row row false))
                       (map natural_key (items db1)))
    by (intros row Hin N; rewrite S2; apply Hall; [right|]; assumption).
  destruct (IH (i + 1) st1 db1 Hu1 Hall1) as (I1 & I2 & I3).
  cbv zeta. rewrite I1, I2, I3. repeat split; assumption.
Qed.

(** X12.  Importing the same rows a second time, whatever the clock,
    creates no item: the ids and the natural keys of the item table, row
    by row, and its AUTOINCREMENT counter are as the first import left
    them. *)
Theorem reimport_creates_no_item {L : Lower} (rows : list CsvRow.t)
    (clock clock' : Z -> Clock * Clock) (db : DB) :
  reachable db ->
  let db1 := snd (import_csv rows clock db) in
  let db2 := snd (import_csv rows clock' db1) in
  map Item.id (items db2) = map Item.id (items db1)
  /\ map natural_key (items db2) = map natural_key (items db1)
  /\ items_seq db2 = items_seq db1
  /\ List.length (items db2) = List.length (items db1).
Proof.
  intros Hr db1 db2.
  assert (Hu1 : key_unique db1).
  { apply reachable_key_unique. apply (reachable_writes db); [exact Hr|].
    apply import_rows_writes. }
  destruct (import_rows_all_hits rows clock' 0
              (ImportStats.mk (Z.of_nat (List.length rows)) 0 0 0 0 [])
              db1 Hu1) as (I1 & I2 & I3).
  - intros row Hin N. apply import_rows_keys_present; try assumption.
    apply reachable_key_unique. exact Hr.
  - split; [exact I1|]. split; [exact I2|]. split; [exact I3|].
    rewrite <- (length_map Item.id (items db2)).
    rewrite <- (length_map Item.id (items db1)). f_equal. exact I1.
Qed.

Lemma reimport_creates_no_item_witness :
  List.length
    (items (snd (import_csv (L := ascii_text) [priced_row; blank_row]
                   (fun _ => (noon, noon))
                   (snd (import_csv (L := ascii_text)
                           [priced_row; blank_row]
                           (fun _ => (noon, noon)) empty_db)))))
  = List.length
      (items (snd (import_csv (L := ascii_text) [priced_row; blank_row]
                     (fun _ => (noon, noon)) empty_db))).
Proof.
  exact (proj2 (proj2 (proj2
           (reimport_creates_no_item (L := ascii_text)
              [priced_row; blank_row]
              (fun _ => (noon, noon)) (fun _ => (noon, noon)) empty_db
              reach_init)))).
Defined.

(** The price an import iteration records, read off the two columns. *)
Lemma recorded_iff_priced (row : CsvRow.t) :
  match initial_price row with
  | Some v => truthy_q v && Qltb 0 v
  | None => false
  end
  = match CsvRow.price_override row with
    | Some po =>
        if Qeq_bool po 0 then positive_price (CsvRow.market_price row)
        else Qltb 0 po
    | None => positive_price (CsvRow.market_price row)
    end.
Proof.
  assert (P : forall o,
             match o with
             | Some v => truthy_q v && Qltb 0 v
             | None => false
             end = positive_price o).
  { intros [v|]; [|reflexivity]. simpl.
    destruct (Qltb 0 v) eqn:E; [|apply andb_false_r].
    rewrite andb_true_r. apply truthy_q_iff. apply Qltb_iff in E. lra. }
  unfold initial_price.
  destruct (CsvRow.price_override row) as [po|]; [|apply P].
  cbn [truthy_oq]. unfold truthy_q.
  destruct (Qeq_bool po 0) eqn:E; cbn [negb]; [apply P|].
  unfold truthy_q. rewrite E. reflexivity.
Qed.

Lemma import_rows_price_count {L : Lower} (rows : list CsvRow.t)
    (clock : Z -> Clock * Clock) (i : Z) (st : ImportStats.t) (db : DB) :
  Z.of_nat (List.length (prices (snd (import_rows i rows clock st db))))
  = Z.of_nat (List.length (prices db)) + count row_priced rows.
Proof.
  unfold count. revert i st db.
  induction rows as [|row rows IH]; intros i st db; [simpl; lia|].
  cbn [import_rows].
  destruct (import_row_prices i row (fst (clock i)) (snd (clock i)) st db)
    as (item_id & H & _).
  destruct (import_row i row (fst (clock i)) (snd (clock i)) st db)
    as [st1 db1].
  simpl snd in H. rewrite IH, H, length_app.
  unfold row_priced, row_accepted, row_named. cbn [filter].
  rewrite <- recorded_iff_priced.
  destruct (truthy_str (CsvRow.name row) && int64 (CsvRow.quantity row));
    cbn [andb]; [|simpl List.length; lia].
  destruct (initial_price row) as [v|]; [|simpl List.length; lia].
  destruct (truthy_q v && Qltb 0 v); simpl List.length; lia.
Qed.

(** X13.  An import appends one price observation for each row that has
    a product name, a quantity that fits SQLite's 64-bit INTEGER, and a
    price to record (a strictly positive override, or with the override
    absent or zero a strictly positive market price), whatever the store
    holds: importing the same rows again records every such price
    again. *)
Theorem import_csv_price_count {L : Lower} (rows : list CsvRow.t)
    (clock clock' : Z -> Clock * Clock) (db : DB) :
  let db1 := snd (import_csv rows clock db) in
  let db2 := snd (import_csv rows clock' db1) in
  Z.of_nat (List.length (prices db1))
  = Z.of_nat (List.length (prices db)) + count row_priced rows
  /\ Z.of_nat (List.length (prices db2))
     = Z.of_nat (List.length (prices db)) + 2 * count row_priced rows.
Proof.
  cbv zeta. unfold import_csv. rewrite !import_rows_price_count. lia.
Qed.

Lemma import_csv_price_count_witness :
  let db1 := snd (import_csv (L := ascii_text) six_csv_rows
                    (fun _ => (noon, noon)) empty_db) in
  let db2 := snd (import_csv (L := ascii_text) six_csv_rows
                    (fun _ => (noon, noon)) db1) in
  List.length (prices db1) = 2%nat /\ List.length (prices db2) = 4%nat.
Proof.
  destruct (import_csv_price_count (L := ascii_text) six_csv_rows
              (fun _ => (noon, noon)) (fun _ => (noon, noon)) empty_db)
    as (H1 & H2).
  change (count row_priced six_csv_rows) with 2 in *.
  change (List.length (prices empty_db)) with 0%nat in H1, H2.
  cbv zeta. lia.
Defined.

(** ** The derived keys of an item *)

Lemma map_result_in {A B : Type} (f : A -> result B) (l : list A)
    (ys : list B) (y : B) :
  map_result f l = Ok ys -> In y ys -> exists x, In x l /\ f x = Ok y.
Proof.
  revert ys. induction l as [|x l IH]; simpl; intros ys H Hy.
  - injection H as <-. contradiction.
  - destruct (f x) as [y0|e] eqn:E; [|discriminate]. simpl in H.
    destruct (map_result f l) as [ys0|e]; [|discriminate]. simpl in H.
    injection H as <-. destruct Hy as [<-|Hy].
    + exists x. tauto.
    + destruct (IH ys0 eq_refl Hy) as (x' & Hx' & E'). exists x'. tauto.
Qed.

(** What [analyze_item] derives, by cases on the prices and the cost. *)
Lemma analyze_item_spec (r : Row.t) (x : AItem.t) :
  analyze_item r = Ok x ->
  AItem.row x = r
  /\ ((exists previous current,
         Row.previous_price r = Some previous
         /\ Row.current_price r = Some current
         /\ ~ previous == 0 /\ ~ current == 0
         /\ AItem.change x = (current - previous)%Q
         /\ AItem.change_pct x
            = ((current - previous) / previous * 100)%Q)
      \/ (AItem.change x = 0%Q /\ AItem.change_pct x = 0%Q))
  /\ ((exists cost current,
         Item.cost_basis (Row.item r) = Some cost
         /\ Row.current_price r = Some current
         /\ (0 < cost)%Q /\ ~ current == 0
         /\ AItem.pnl x = Some (AItem.total_value x - AItem.total_cost x)%Q
         /\ AItem.pnl_pct x = Some ((current - cost) / cost * 100)%Q)
      \/ (AItem.pnl x = None /\ AItem.pnl_pct x = None)).
Proof.
  unfold analyze_item. intros H.
  destruct (Row.previous_price r) as [pp|] eqn:Ep;
    destruct (Row.current_price r) as [cp|] eqn:Ec;
    destruct (Item.cost_basis (Row.item r)) as [cb|] eqn:Eb;
    try destruct (truthy_q pp) eqn:Tp;
    try destruct (truthy_q cp) eqn:Tc;
    try destruct (truthy_q cb) eqn:Tb;
    try destruct (Qltb 0 cb) eqn:Lb;
    cbn [andb] in H;
    rewrite ?(py_div_truthy _ _ Tp), ?(py_div_truthy _ _ Tb) in H;
    cbn [bind] in H; injection H as <-;
    cbn [AItem.row AItem.change AItem.change_pct AItem.pnl AItem.pnl_pct
         AItem.total_value AItem.total_cost];
    (split; [reflexivity|]);
    (split;
     [ first [ right; split; reflexivity
             | left; exists pp, cp;
               apply truthy_q_iff in Tp; apply truthy_q_iff in Tc;
               repeat (split; [first [reflexivity|assumption]|]);
               reflexivity ]
     | first [ right; split; reflexivity
             | left; exists cb, cp;
               apply Qltb_iff in Lb; apply truthy_q_iff in Tc;
               repeat (split; [first [reflexivity|assumption]|]);
               reflexivity ] ]).
Qed.

(** ** Movers and performers *)

(** The list views of an analysis, for empty and non-empty input alike. *)
Lemma analysis_views (rows : list Row.t) (stats : Stats.t)
    (a : Analysis.t) :
  analyze rows stats = Ok a ->
  exists items,
    map_result analyze_item rows = Ok items
    /\ Analysis.items a = items
    /\ Analysis.top_holdings a
       = firstn 10 (sorted_by AItem.total_value true items)
    /\ Analysis.gainers a
       = firstn 5
           (sorted_by AItem.change_pct true
              (filter (fun x => Qltb 0 (AItem.change_pct x))
                 (filter (fun x => negb (Qeq_bool (AItem.change_pct x) 0))
                    items)))
    /\ Analysis.losers a
       = firstn 5
           (sorted_by AItem.change_pct false
              (filter (fun x => Qltb (AItem.change_pct x) 0)
                 (filter (fun x => negb (Qeq_bool (AItem.change_pct x) 0))
                    items)))
    /\ Analysis.best a
       = firstn 5
           (sorted_by pnl_pct_key true
              (filter (fun x => match AItem.pnl_pct x with
                                | Some _ => true
                                | None => false
                                end) items))
    /\ Analysis.worst a
       = firstn 5
           (sorted_by pnl_pct_key false
              (filter (fun x => match AItem.pnl_pct x with
                                | Some _ => true
                                | None => false
                                end) items))
    /\ Analysis.sets a
       = firstn 10
           (sorted_by (fun kv => SetAgg.value (snd kv)) true
              (sets_of items)).
Proof.
  intros H. destruct (map_result_analyze rows) as (items & Hi & _).
  exists items. split; [exact Hi|].
  destruct rows as [|r rows].
  - simpl in Hi. injection Hi as <-. simpl in H. injection H as <-.
    repeat split.
  - rewrite (analyze_nonempty r rows stats items Hi) in H.
    injection H as <-. repeat split.
Qed.

Lemma sorted_by_perm {A : Type} (key : A -> Q) (reverse : bool)
    (l : list A) :
  Permutation (sorted_by key reverse l) l.
Proof. apply insertion_sort_perm. Qed.

Lemma sorted_by_sorted {A : Type} (key : A -> Q) (reverse : bool)
    (l : list A) :
  StronglySorted
    (fun x y => if reverse then (key y <= key x)%Q else (key x <= key y)%Q)
    (sorted_by key reverse l).
Proof.
  unfold sorted_by.
  set (before := fun x c : A =>
                   if reverse then Qle_bool (key c) (key x)
                   else Qle_bool (key x) (key c)).
  rewrite <- (map_id (insertion_sort before l)).
  apply StronglySorted_map with (R := fun x y => before x y = true).
  - intros x y. unfold before. destruct reverse; apply Qle_bool_iff.
  - apply insertion_sort_sorted.
    + intros x y. unfold before.
      destruct reverse; rewrite !Qle_bool_iff;
        destruct (Qlt_le_dec (key x) (key y)) as [L|L];
        auto using Qlt_le_weak.
    + intros x y z. unfold before.
      destruct reverse; rewrite !Qle_bool_iff; intros; lra.
Qed.

Lemma StronglySorted_firstn_skipn {A : Type} (R : A -> A -> Prop) (n : nat)
    (s : list A) :
  StronglySorted R s ->
  forall x y, In x (firstn n s) -> In y (skipn n s) -> R x y.
Proof.
  intros H. revert n. induction H as [|c s Hs IH Hc]; intros n x y.
  - destruct n; simpl; contradiction.
  - destruct n as [|n]; simpl; [contradiction|].
    intros [<-|Hx] Hy.
    + rewrite Forall_forall in Hc. apply Hc.
      rewrite <- (firstn_skipn n s). apply in_or_app. right. exact Hy.
    + exact (IH n x y Hx Hy).
Qed.

(** The first [n] of a sorted arrangement of [l]: drawn from [l], in
    order, and ahead of everything of [l] left out. *)
Lemma top_of_sorted {A : Type} (key : A -> Q) (reverse : bool) (n : nat)
    (l : list A) :
  let top := firstn n (sorted_by key reverse l) in
  (List.length top <= n)%nat
  /\ (forall x, In x top -> In x l)
  /\ StronglySorted
       (fun x y => if reverse then (key y <= key x)%Q
                   else (key x <= key y)%Q) top
  /\ (List.length l <= n -> Permutation top l)%nat
  /\ (forall x y, In x top -> In y l -> ~ In y top ->
        if reverse then (key y <= key x)%Q else (key x <= key y)%Q).
Proof.
  intros top. unfold top.
  pose proof (sorted_by_perm key reverse l) as P.
  pose proof (sorted_by_sorted key reverse l) as S.
  split; [apply firstn_le_length|]. split; [|split; [|split]].
  - intros x Hx. apply (Permutation_in _ P).
    rewrite <- (firstn_skipn n (sorted_by key reverse l)).
    apply in_or_app. left. exact Hx.
  - apply StronglySorted_firstn. exact S.
  - intros Hl. rewrite firstn_all2; [exact P|].
    rewrite (Permutation_length P). exact Hl.
  - intros x y Hx Hy Hout.
    apply (StronglySorted_firstn_skipn _ n _ S x y Hx).
    apply (Permutation_in _ (Permutation_sym P)) in Hy.
    rewrite <- (firstn_skipn n (sorted_by key reverse l)) in Hy.
    apply in_app_or in Hy. tauto.
Qed.

(** X14.  The movers of an analysis.  There are at most five gainers and
    five losers.  Each gainer is an item of the analysis with both prices
    present and nonzero and a change, (current - previous) / previous *
    100, above zero; each loser likewise with a change below zero, so no
    item is both.  Gainers come largest change first, losers most
    negative first, and an item with a positive (negative) change that is
    not listed changed no more (no less) than every listed one. *)
Theorem movers_of_analysis (rows : list Row.t) (stats : Stats.t)
    (a : Analysis.t) :
  analyze rows stats = Ok a ->
  (List.length (Analysis.gainers a) <= 5)%nat
  /\ (List.length (Analysis.losers a) <= 5)%nat
  /\ (forall x, In x (Analysis.gainers a) \/ In x (Analysis.losers a) ->
        In x (Analysis.items a)
        /\ exists previous current,
             Row.previous_price (AItem.row x) = Some previous
             /\ Row.current_price (AItem.row x) = Some current
             /\ ~ previous == 0 /\ ~ current == 0
             /\ AItem.change_pct x
                = ((current - previous) / previous * 100)%Q)
  /\ (forall x, In x (Analysis.gainers a) -> (0 < AItem.change_pct x)%Q)
  /\ (forall x, In x (Analysis.losers a) -> (AItem.change_pct x < 0)%Q)
  /\ StronglySorted
       (fun x y => (AItem.change_pct y <= AItem.change_pct x)%Q)
       (Analysis.gainers a)
  /\ StronglySorted
       (fun x y => (AItem.change_pct x <= AItem.change_pct y)%Q)
       (Analysis.losers a)
  /\ (forall x y, In x (Analysis.gainers a) -> In y (Analysis.items a) ->
        (0 < AItem.change_pct y)%Q -> ~ In y (Analysis.gainers a) ->
        (AItem.change_pct y <= AItem.change_pct x)%Q)
  /\ (forall x y, In x (Analysis.losers a) -> In y (Analysis.items a) ->
        (AItem.change_pct y < 0)%Q -> ~ In y (Analysis.losers a) ->
        (AItem.change_pct x <= AItem.change_pct y)%Q).
Proof.
  intros H.
  destruct (analysis_views rows stats a H)
    as (items & Hi & -> & _ & -> & -> & _).
  set (up := filter (fun x => Qltb 0 (AItem.change_pct x))
               (filter (fun x => negb (Qeq_bool (AItem.change_pct x) 0))
                  items)).
  set (down := filter (fun x => Qltb (AItem.change_pct x) 0)
                 (filter (fun x => negb (Qeq_bool (AItem.change_pct x) 0))
                    items)).
  destruct (top_of_sorted AItem.change_pct true 5 up)
    as (Gl & Gin & Gs & _ & Gtop).
  destruct (top_of_sorted AItem.change_pct false 5 down)
    as (Ll & Lin & Ls & _ & Ltop).
  assert (Hup : forall x, In x up <->
                          In x items /\ (0 < AItem.change_pct x)%Q).
  { intros x. unfold up. rewrite !filter_In, Qltb_iff, negb_true_iff.
    split; [tauto|]. intros [Hx Hp]. repeat split; try assumption.
    destruct (Qeq_bool (AItem.change_pct x) 0) eqn:E; [|reflexivity].
    apply Qeq_bool_iff in E. lra. }
  assert (Hdown : forall x, In x down <->
                            In x items /\ (AItem.change_pct x < 0)%Q).
  { intros x. unfold down. rewrite !filter_In, Qltb_iff, negb_true_iff.
    split; [tauto|]. intros [Hx Hp]. repeat split; try assumption.
    destruct (Qeq_bool (AItem.change_pct x) 0) eqn:E; [|reflexivity].
    apply Qeq_bool_iff in E. lra. }
  split; [exact Gl|]. split; [exact Ll|]. split; [|split; [|split]].
  - intros x Hx.
    assert (Hx' : In x items /\ ~ AItem.change_pct x == 0).
    { destruct Hx as [Hx|Hx].
      - apply Gin, Hup in Hx. split; [tauto|]. lra.
      - apply Lin, Hdown in Hx. split; [tauto|]. lra. }
    destruct Hx' as [Hin Hnz]. split; [exact Hin|].
    destruct (map_result_in analyze_item rows items x Hi Hin)
      as (r & _ & Hr).
    destruct (analyze_item_spec r x Hr)
      as (-> & [(pp & cp & E1 & E2 & N1 & N2 & _ & E3)|[_ Z]] & _).
    + exists pp, cp. tauto.
    + exfalso. apply Hnz. rewrite Z. reflexivity.
  - intros x Hx. apply Gin, Hup in Hx. tauto.
  - intros x Hx. apply Lin, Hdown in Hx. tauto.
  - split; [exact Gs|]. split; [exact Ls|]. split.
    + intros x y Hx Hy Hp Hout. apply (Gtop x y Hx); [|exact Hout].
      apply Hup. tauto.
    + intros x y Hx Hy Hp Hout. apply (Ltop x y Hx); [|exact Hout].
      apply Hdown. tauto.
Qed.

(** X15.  The performers of an analysis.  There are at most five best
    and five worst; each one is an item of the analysis with a cost basis
    above zero, a nonzero current price and the return
    (current - cost) / cost * 100; the best come highest return first, the
    worst lowest first; and no item with a return that is left out of the
    best (worst) has a higher (lower) return than a listed one. *)
Theorem performers_of_analysis (rows : list Row.t) (stats : Stats.t)
    (a : Analysis.t) :
  analyze rows stats = Ok a ->
  (List.length (Analysis.best a) <= 5)%nat
  /\ (List.length (Analysis.worst a) <= 5)%nat
  /\ (forall x, In x (Analysis.best a) \/ In x (Analysis.worst a) ->
        In x (Analysis.items a)
        /\ exists cost current,
             Item.cost_basis (Row.item (AItem.row x)) = Some cost
             /\ Row.current_price (AItem.row x) = Some current
             /\ (0 < cost)%Q /\ ~ current == 0
             /\ AItem.pnl_pct x = Some ((current - cost) / cost * 100)%Q)
  /\ StronglySorted (fun x y => (pnl_pct_key y <= pnl_pct_key x)%Q)
       (Analysis.best a)
  /\ StronglySorted (fun x y => (pnl_pct_key x <= pnl_pct_key y)%Q)
       (Analysis.worst a)
  /\ (forall x y, In x (Analysis.best a) -> In y (Analysis.items a) ->
        AItem.pnl_pct y <> None -> ~ In y (Analysis.best a) ->
        (pnl_pct_key y <= pnl_pct_key x)%Q)
  /\ (forall x y, In x (Analysis.worst a) -> In y (Analysis.items a) ->
        AItem.pnl_pct y <> None -> ~ In y (Analysis.worst a) ->
        (pnl_pct_key x <= pnl_pct_key y)%Q).
Proof.
  intros H.
  destruct (analysis_views rows stats a H)
    as (items & Hi & -> & _ & _ & _ & -> & -> & _).
  set (with_pnl := filter (fun x => match AItem.pnl_pct x with
                                    | Some _ => true
                                    | None => false
                                    end) items).
  destruct (top_of_sorted pnl_pct_key true 5 with_pnl)
    as (Bl & Bin & Bs & _ & Btop).
  destruct (top_of_sorted pnl_pct_key false 5 with_pnl)
    as (Wl & Win & Ws & _ & Wtop).
  assert (Hw : forall x, In x with_pnl <->
                         In x items /\ AItem.pnl_pct x <> None).
  { intros x. unfold with_pnl. rewrite filter_In.
    destruct (AItem.pnl_pct x); split; intros [? ?]; split;
      congruence || assumption. }
  split; [exact Bl|]. split; [exact Wl|]. split; [|split; [|split; [|split]]].
  - intros x Hx.
    assert (Hx' : In x with_pnl) by (destruct Hx; auto).
    apply Hw in Hx'. destruct Hx' as [Hin Hsome]. split; [exact Hin|].
    destruct (map_result_in analyze_item rows items x Hi Hin)
      as (r & _ & Hr).
    destruct (analyze_item_spec r x Hr)
      as (-> & _ & [(cb & cp & E1 & E2 & N1 & N2 & _ & E3)|[_ Z]]).
    + exists cb, cp. tauto.
    + congruence.
  - exact Bs.
  - exact Ws.
  - intros x y Hx Hy Hp Hout. apply (Btop x y Hx); [|exact Hout].
    apply Hw. tauto.
  - intros x y Hx Hy Hp Hout. apply (Wtop x y Hx); [|exact Hout].
    apply Hw. tauto.
Qed.

Lemma movers_of_analysis_witness :
  (List.length (Analysis.gainers analysis_ab) <= 5)%nat.
Proof.
  exact (proj1 (movers_of_analysis [row_a; row_b] stats_ab analysis_ab
                  eq_refl)).
Defined.

Lemma performers_of_analysis_witness :
  (List.length (Analysis.best analysis_ab) <= 5)%nat.
Proof.
  exact (proj1 (performers_of_analysis [row_a; row_b] stats_ab analysis_ab
                  eq_refl)).
Defined.

(** ** The per-set rollup *)

Lemma fold_add_acc (l : list Z) (a : Z) :
  fold_left Z.add l a = a + Zsum l.
Proof.
  unfold Zsum. revert a. induction l as [|x l IH]; intros a; simpl.
  - lia.
  - rewrite IH, (IH x). lia.
Qed.

Lemma Zsum_app (l1 l2 : list Z) : Zsum (l1 ++ l2) = Zsum l1 + Zsum l2.
Proof.
  unfold Zsum at 1. rewrite fold_left_app, fold_add_acc. reflexivity.
Qed.

Lemma sets_of_snoc (l : list AItem.t) (x : AItem.t) :
  sets_of (l ++ [x])
  = sets_add (bucket x) (item_quantity x) (AItem.total_value x) (sets_of l).
Proof. unfold sets_of. rewrite fold_left_app. reflexivity. Qed.

Lemma in_bucket_snoc (k : string) (l : list AItem.t) (x : AItem.t) :
  in_bucket k (l ++ [x])
  = (in_bucket k l ++ if String.eqb (bucket x) k then [x] else [])%list.
Proof. unfold in_bucket. rewrite filter_app. reflexivity. Qed.

(** Adding an item to the dict: its bucket gains the item, the other
    buckets stay, and a new bucket goes last. *)
Lemma sets_add_spec (k : string) (q : Z) (v : Q)
    (sets : list (string * SetAgg.t)) :
  NoDup (map fst sets) ->
  NoDup (map fst (sets_add k q v sets))
  /\ (forall k', In k' (map fst (sets_add k q v sets)) <->
                 k' = k \/ In k' (map fst sets))
  /\ (forall k' agg', In (k', agg') (sets_add k q v sets) ->
        (k' <> k /\ In (k', agg') sets)
        \/ (k' = k
            /\ ((exists agg, In (k, agg) sets
                   /\ SetAgg.count agg' = SetAgg.count agg + q
                   /\ SetAgg.value agg' = (SetAgg.value agg + v)%Q)
                \/ (~ In k (map fst sets)
                    /\ SetAgg.count agg' = 0 + q
                    /\ SetAgg.value agg' = (0 + v)%Q)))).
Proof.
  induction sets as [|[k0 a0] sets IH]; intros N.
  - simpl. split; [repeat constructor; simpl; tauto|]. split.
    + intros k'. simpl. split; [intros [<-|[]]; tauto|].
      intros [->|[]]. tauto.
    + intros k' agg' [E|[]]. injection E as <- <-.
      right. split; [reflexivity|]. right. simpl. tauto.
  - inversion N as [|? ? Hnot N']; subst. simpl.
    destruct (String.eqb_spec k0 k) as [->|Hne].
    + simpl. split; [exact N|]. split.
      * intros k'. split; [tauto|]. intros [->|H]; tauto.
      * intros k' agg' [E|H].
        -- injection E as <- <-. right. split; [reflexivity|].
           left. exists a0. simpl. tauto.
        -- left. split; [|tauto]. intros ->. apply Hnot.
           apply (in_map fst) in H. exact H.
    + destruct (IH N') as (I1 & I2 & I3). simpl. split; [|split].
      * constructor; [|exact I1]. rewrite I2. intros [E|H]; [congruence|].
        exact (Hnot H).
      * intros k'. rewrite I2. tauto.
      * intros k' agg' [E|H].
        -- injection E as <- <-. left. split; [exact Hne|]. tauto.
        -- destruct (I3 k' agg' H) as [[Hk Hin]|[-> Hcase]].
           ++ left. tauto.
           ++ right. split; [reflexivity|].
              destruct Hcase as [(agg & Hin & Hc & Hv)|(Hnew & Hc & Hv)].
              ** left. exists agg. tauto.
              ** right. split; [|tauto]. simpl. intros [E|H']; [|tauto].
                 congruence.
Qed.

(** The dict after the loop: one entry per bucket in use, holding the
    quantity and the value of the items of that bucket. *)
Lemma sets_of_spec (l : list AItem.t) :
  NoDup (map fst (sets_of l))
  /\ (forall k, In k (map fst (sets_of l)) <->
                exists x, In x l /\ bucket x = k)
  /\ (forall k agg, In (k, agg) (sets_of l) ->
        SetAgg.count agg = Zsum (map item_quantity (in_bucket k l))
        /\ SetAgg.value agg
           == Qsum (map AItem.total_value (in_bucket k l))).
Proof.
  induction l as [|x l IH] using rev_ind.
  - simpl. split; [constructor|]. split.
    + intros k. simpl. split; [tauto|]. intros (x & [] & _).
    + intros k agg [].
  - destruct IH as (N & K & V). rewrite sets_of_snoc.
    destruct (sets_add_spec (bucket x) (item_quantity x)
                (AItem.total_value x) (sets_of l) N) as (A1 & A2 & A3).
    split; [exact A1|]. split.
    + intros k. rewrite A2, K. split.
      * intros [->|(y & Hy & E)].
        -- exists x. split; [apply in_or_app; right; left|]; reflexivity.
        -- exists y. split; [apply in_or_app; left; exact Hy|exact E].
      * intros (y & Hy & E). apply in_app_or in Hy.
        destruct Hy as [Hy|[->|[]]]; [right; eauto|left; congruence].
    + intros k agg Hin. rewrite in_bucket_snoc, !map_app, Zsum_app, Qsum_app.
      destruct (A3 k agg Hin) as [[Hk Hold]|[-> Hcase]].
      * destruct (String.eqb_spec (bucket x) k) as [E|_]; [congruence|].
        destruct (V k agg Hold) as [Vc Vv]. simpl.
        split; [unfold Zsum at 2; simpl; lia|].
        rewrite Vv. unfold Qsum at 3. simpl. ring.
      * rewrite String.eqb_refl. simpl map.
        destruct Hcase as [(agg0 & Hin0 & Hc & Hv)|(Hnew & Hc & Hv)].
        -- destruct (V _ agg0 Hin0) as [Vc Vv]. split.
           ++ rewrite Hc, Vc. unfold Zsum at 3. simpl. lia.
           ++ rewrite Hv, Vv, Qsum_cons. unfold Qsum at 3. simpl. ring.
        -- assert (E : in_bucket (bucket x) l = []).
           { apply filter_forall_nil. intros y Hy.
             apply String.eqb_neq. intros Eb. apply Hnew. apply K.
             exists y. tauto. }
           rewrite E. split.
           ++ rewrite Hc. unfold Zsum. simpl. lia.
           ++ rewrite Hv, Qsum_cons. unfold Qsum. simpl. ring.
Qed.

Lemma bucket_not_blank (x : AItem.t) : bucket x <> "".
Proof.
  unfold bucket. destruct (Item.set_name (Row.item (AItem.row x))) as [s|];
    [|discriminate].
  destruct s; simpl; discriminate.
Qed.

(** X16.  The per-set rollup of an analysis lists at most ten sets, each
    once, largest value first.  A listed set is the set name of some item
    (["Unknown"] standing for a missing or blank name, so no listed name
    is blank); its count is the total quantity and its value the total
    value of exactly the items of that set.  With at most ten sets in use
    every item's set is listed; otherwise the sets left out are worth no
    more than the listed ones. *)
Theorem sets_of_analysis (rows : list Row.t) (stats : Stats.t)
    (a : Analysis.t) :
  analyze rows stats = Ok a ->
  let sets := Analysis.sets a in
  (List.length sets <= 10)%nat
  /\ NoDup (map fst sets)
  /\ StronglySorted
       (fun x y => (SetAgg.value (snd y) <= SetAgg.value (snd x))%Q) sets
  /\ (forall k agg, In (k, agg) sets ->
        k <> ""
        /\ (exists x, In x (Analysis.items a) /\ bucket x = k)
        /\ SetAgg.count agg
           = Zsum (map item_quantity (in_bucket k (Analysis.items a)))
        /\ SetAgg.value agg
           == Qsum (map AItem.total_value
                      (in_bucket k (Analysis.items a))))
  /\ ((List.length (sets_of (Analysis.items a)) <= 10)%nat ->
      forall x, In x (Analysis.items a) -> In (bucket x) (map fst sets))
  /\ (forall kv kv', In kv sets -> In kv' (sets_of (Analysis.items a)) ->
        ~ In kv' sets ->
        (SetAgg.value (snd kv') <= SetAgg.value (snd kv))%Q).
Proof.
  intros H sets. unfold sets.
  destruct (analysis_views rows stats a H)
    as (items & _ & -> & _ & _ & _ & _ & _ & ->).
  destruct (sets_of_spec items) as (N & K & V).
  destruct (top_of_sorted (fun kv : string * SetAgg.t => SetAgg.value (snd kv))
              true 10 (sets_of items))
    as (Tl & Tin & Ts & Tall & Ttop).
  split; [exact Tl|]. split; [|split; [exact Ts|split; [|split]]].
  - pose proof (sorted_by_perm
                  (fun kv : string * SetAgg.t => SetAgg.value (snd kv))
                  true (sets_of items)) as P.
    assert (N' : NoDup (map fst (sorted_by
                   (fun kv : string * SetAgg.t => SetAgg.value (snd kv))
                   true (sets_of items)))).
    { apply (Permutation_NoDup (Permutation_sym (Permutation_map fst P))).
      exact N. }
    rewrite <- (firstn_skipn 10 (sorted_by _ true (sets_of items))) in N'.
    rewrite map_app in N'. exact (NoDup_app_remove_r _ _ N').
  - intros k agg Hin. apply Tin in Hin.
    destruct (V k agg Hin) as [Vc Vv].
    assert (Hk : In k (map fst (sets_of items)))
      by (apply (in_map fst) in Hin; exact Hin).
    apply K in Hk. destruct Hk as (x & Hx & <-).
    split; [apply bucket_not_blank|]. split; [eauto|]. tauto.
  - intros Hl x Hx.
    apply (Permutation_in _ (Permutation_sym
                               (Permutation_map fst (Tall Hl)))).
    apply K. eauto.
  - exact Ttop.
Qed.

Lemma sets_of_analysis_witness :
  (List.length (Analysis.sets analysis_ab) <= 10)%nat.
Proof.
  exact (proj1 (sets_of_analysis [row_a; row_b] stats_ab analysis_ab
                  eq_refl)).
Defined.

(** ** The shape of the recommendation list *)

(** The health score stays within 45 and 100, and below 80 at least one
    issue has been collected. *)
Lemma portfolio_health_bounds (a : Analysis.t) :
  exists health,
    portfolio_health a = Ok (health, health_issues a, cost_share a)
    /\ 45 <= health <= 100
    /\ (health < 80 -> health_issues a <> []).
Proof.
  pose proof (portfolio_health_closed a) as Hh. cbv zeta in Hh.
  eexists. split; [exact Hh|]. unfold health_issues.
  destruct (Qltb 60 (Analysis.top_5_pct a));
    destruct (Qltb (cost_share a) (1 # 2));
    destruct (Qltb 80 (Part.pct (Analysis.sealed a)));
    destruct (Qltb 0 (Analysis.total_cost a));
    destruct (Qltb 20 (roi_pct a));
    destruct (Qltb (roi_pct a) (- 10));
    (split; [lia|]); intros Hlt; try lia; simpl; discriminate.
Qed.

(** X17.  [generate_recommendations] returns for every analysis, with
    between one and six entries.  A zero total value gives the single
    "Get Started" entry.  Otherwise the first entry is the health entry:
    its title shows a score between 45 and 100, its type is "success"
    from 80, "warning" from 60 and "danger" below, its icon the trophy
    from 80 and the warning triangle below; from 80 its message praises
    the portfolio, and below 80 at least one issue has been collected and
    the message names the first two. *)
Theorem recommendations_shape (a : Analysis.t) :
  exists recs,
    generate_recommendations a = Ok recs
    /\ (1 <= List.length recs <= 6)%nat
    /\ (Analysis.total_value a == 0 ->
        recs = [Rec.mk "info" "Get Started"
                  "Import your collection to see insights." "rocket"])
    /\ (~ Analysis.total_value a == 0 ->
        exists health first rest,
          recs = first :: rest
          /\ 45 <= health <= 100
          /\ Rec.title first
             = "Portfolio Health: " ++ str_of_int health ++ "/100"
          /\ Rec.type first
             = (if 80 <=? health then "success"
                else if 60 <=? health then "warning" else "danger")
          /\ Rec.icon first
             = (if 80 <=? health then "trophy" else "alert-triangle")
          /\ (80 <= health ->
              Rec.message first = "Excellent diversification and tracking!")
          /\ (health < 80 ->
              health_issues a <> []
              /\ Rec.message first
                 = "Areas to improve: "
                   ++ String.concat ", " (firstn 2 (health_issues a)))).
Proof.
  unfold generate_recommendations.
  destruct (Qeq_bool (Analysis.total_value a) 0) eqn:Ez.
  - apply Qeq_bool_iff in Ez. exists [get_started].
    split; [reflexivity|]. split; [simpl; lia|]. split; [reflexivity|].
    intros N. contradiction.
  - assert (Hnz : ~ Analysis.total_value a == 0)
      by (intros E; apply Qeq_bool_iff in E; congruence).
    destruct (portfolio_health_bounds a) as (health & -> & Hb & Hi).
    cbn [bind]. eexists. split; [reflexivity|].
    set (tail := (momentum_entries a ++ profit_entries a ++ loss_entries a
                  ++ concentration_entries a
                  ++ cost_entries (cost_share a))%list).
    change (firstn 6 ([health_entry health (health_issues a)] ++ tail))
      with (health_entry health (health_issues a) :: firstn 5 tail).
    split.
    + cbn [List.length]. pose proof (firstn_le_length 5 tail). lia.
    + split; [intros Z; contradiction|]. intros _.
      exists health, (health_entry health (health_issues a)),
        (firstn 5 tail).
      split; [reflexivity|]. split; [exact Hb|].
      cbn [health_entry Rec.title Rec.type Rec.icon Rec.message].
      split; [reflexivity|]. split; [reflexivity|].
      split; [reflexivity|]. split.
      * intros H80. apply Z.leb_le in H80. rewrite H80. reflexivity.
      * intros H80. split; [exact (Hi H80)|].
        apply Z.leb_gt in H80. rewrite H80. reflexivity.
Qed.

Lemma recommendations_shape_witness :
  generate_recommendations empty_analysis
  = Ok [Rec.mk "info" "Get Started"
          "Import your collection to see insights." "rocket"]
  /\ exists first rest,
       generate_recommendations analysis_six = Ok (first :: rest)
       /\ Rec.title first = "Portfolio Health: 65/100"
       /\ Rec.type first = "warning".
Proof.
  split.
  - destruct (recommendations_shape empty_analysis)
      as (recs & H & _ & Z & _).
    rewrite H. f_equal. apply Z. reflexivity.
  - destruct (recommendations_shape analysis_six)
      as (recs & H & _ & _ & N).
    destruct N as (health & first & rest & -> & _ & T & Ty & _).
    + intros E. vm_compute in E. discriminate.
    + exists first, rest. split; [exact H|].
      assert (E : generate_recommendations analysis_six
                  = Ok (first :: rest)) by exact H.
      vm_compute in E. injection E as <- _.
      split; reflexivity.
Defined.

(** ** The terminal and the dashboard agree *)

Section SortLaws.
Variables A B : Type.

Lemma map_insertion_sort (f : A -> B) (bA : A -> A -> bool)
    (bB : B -> B -> bool) (l : list A) :
  (forall x y, bA x y = bB (f x) (f y)) ->
  map f (insertion_sort bA l) = insertion_sort bB (map f l).
Proof.
  intros Hb. induction l as [|x l IH]; simpl; [reflexivity|].
  rewrite <- IH. clear IH.
  induction (insertion_sort bA l) as [|c s IHs]; simpl; [reflexivity|].
  rewrite <- Hb. destruct (bA x c); simpl; [reflexivity|].
  rewrite IHs. reflexivity.
Qed.

Lemma filter_map_comm (f : A -> B) (p : B -> bool) (l : list A) :
  filter p (map f l) = map f (filter (fun x => p (f x)) l).
Proof.
  induction l as [|x l IH]; simpl; [reflexivity|].
  destruct (p (f x)); simpl; rewrite IH; reflexivity.
Qed.

Variable before : A -> A -> bool.
Hypothesis before_total : forall x y, before x y = true \/ before y x = true.
Hypothesis before_trans :
  forall x y z, before x y = true -> before y z = true -> before x z = true.

Lemma filter_insert_sorted (p : A -> bool) (x : A) (s : list A) :
  StronglySorted (fun a b => before a b = true) s ->
  filter p (insert_sorted before x s)
  = if p x then insert_sorted before x (filter p s) else filter p s.
Proof.
  induction 1 as [|c s Hs IH Hc]; simpl.
  - destruct (p x); reflexivity.
  - destruct (before x c) eqn:E; simpl.
    + destruct (p x) eqn:Px; [|reflexivity].
      destruct (p c) eqn:Pc; simpl; [rewrite E; reflexivity|].
      destruct (filter p s) as [|d fs] eqn:F; simpl; [reflexivity|].
      assert (Hd : In d s).
      { assert (Hin : In d (filter p s)) by (rewrite F; left; reflexivity).
        apply filter_In in Hin. tauto. }
      rewrite Forall_forall in Hc.
      rewrite (before_trans x c d E (Hc d Hd)). reflexivity.
    + destruct (p c) eqn:Pc; simpl; rewrite IH;
        destruct (p x); simpl; rewrite ?E; reflexivity.
Qed.

(** Filtering a stable sort is sorting the filtered list. *)
Lemma filter_insertion_sort (p : A -> bool) (l : list A) :
  filter p (insertion_sort before l) = insertion_sort before (filter p l).
Proof.
  induction l as [|x l IH]; simpl; [reflexivity|].
  rewrite filter_insert_sorted
    by (apply insertion_sort_sorted; assumption).
  rewrite IH. destruct (p x); reflexivity.
Qed.
End SortLaws.

Lemma insert_sorted_ext_in {A : Type} (b1 b2 : A -> A -> bool) (x : A)
    (s : list A) :
  (forall c, In c s -> b1 x c = b2 x c) ->
  insert_sorted b1 x s = insert_sorted b2 x s.
Proof.
  induction s as [|c s IH]; intros H; simpl; [reflexivity|].
  rewrite <- (H c (or_introl eq_refl)).
  destruct (b1 x c); [reflexivity|].
  f_equal. apply IH. intros d Hd. apply H. right. exact Hd.
Qed.

Lemma insertion_sort_ext_in {A : Type} (b1 b2 : A -> A -> bool)
    (l : list A) :
  (forall x y, In x l -> In y l -> b1 x y = b2 x y) ->
  insertion_sort b1 l = insertion_sort b2 l.
Proof.
  induction l as [|x l IH]; intros H; simpl; [reflexivity|].
  rewrite <- IH by (intros a b Ha Hb; apply H; right; assumption).
  apply insert_sorted_ext_in. intros c Hc.
  apply H; [left; reflexivity|]. right.
  exact (Permutation_in _ (insertion_sort_perm b1 l) Hc).
Qed.

Lemma filter_filter_implied {A : Type} (p q : A -> bool) (l : list A) :
  (forall x, p x = true -> q x = true) ->
  filter p (filter q l) = filter p l.
Proof.
  intros H. induction l as [|x l IH]; simpl; [reflexivity|].
  destruct (q x) eqn:Q; simpl; rewrite IH; [reflexivity|].
  destruct (p x) eqn:P; [|reflexivity].
  rewrite (H x P) in Q. discriminate.
Qed.

(** Row by row, [movers_list] and the analysis hold the same rows with
    the same nonzero percentages. *)
Lemma movers_list_items (q : Q -> bool) (rows : list Row.t)
    (items : list AItem.t) :
  q 0%Q = false ->
  map_result analyze_item rows = Ok items ->
  exists ms,
    movers_list rows = Ok ms
    /\ filter (fun p => q (snd p)) (map shown_mover ms)
       = filter (fun p => q (snd p)) (map shown_item items).
Proof.
  intros Hq. revert items.
  induction rows as [|r rows IH]; intros items H.
  - simpl in H. injection H as <-. exists []. split; reflexivity.
  - simpl in H. destruct (analyze_item r) as [x|e] eqn:Ex; [|discriminate].
    simpl in H.
    destruct (map_result analyze_item rows) as [items'|e] eqn:Ei;
      [|discriminate].
    simpl in H. injection H as <-.
    destruct (IH items' eq_refl) as (ms & Hm & Hf).
    assert (Hr : exists m,
               mover_of r = Ok m
               /\ filter (fun p => q (snd p)) (map shown_mover m)
                  = filter (fun p => q (snd p)) [shown_item x]).
    { destruct (analyze_item_total r) as (c & cp & pnl & pp & Hx & _).
      rewrite Hx in Ex. injection Ex as <-.
      unfold analyze_item in Hx. unfold mover_of.
      destruct (Row.previous_price r) as [pv|];
        destruct (Row.current_price r) as [cu|];
        try (cbn [bind] in Hx;
             destruct (match Item.cost_basis (Row.item r) with
                       | Some _ => _
                       | None => _
                       end) as [[? ?]|?]; [|discriminate];
             cbn [bind] in Hx; injection Hx as <- <- <- <-;
             eexists; split; [reflexivity|];
             simpl; rewrite Hq; reflexivity).
      destruct (truthy_q pv) eqn:Tp; destruct (truthy_q cu) eqn:Tc;
        cbn [andb] in *;
        rewrite ?(py_div_truthy _ _ Tp) in *; cbn [bind] in Hx;
        destruct (match Item.cost_basis (Row.item r) with
                  | Some _ => _
                  | None => _
                  end) as [[? ?]|?]; try discriminate;
        cbn [bind] in Hx; injection Hx as <- <- <- <-;
        eexists; (split; [reflexivity|]);
        simpl; rewrite ?Hq; reflexivity. }
    destruct Hr as (m & Hmo & Hfr).
    exists (m ++ ms)%list. cbn [movers_list]. rewrite Hmo. cbn [bind].
    rewrite Hm. cbn [bind].
    split; [reflexivity|].
    rewrite map_app, filter_app, Hf, Hfr.
    change (map shown_item (x :: items'))
      with ([shown_item x] ++ map shown_item items')%list.
    rewrite filter_app. reflexivity.
Qed.

Lemma Qle_bool_abs_pos (x c : Q) :
  (0 < x)%Q -> (0 < c)%Q ->
  Qle_bool (Qabs c) (Qabs x) = Qle_bool c x.
Proof.
  intros Hx Hc. apply eq_true_iff_eq. rewrite !Qle_bool_iff.
  rewrite (Qabs_pos x), (Qabs_pos c) by lra. tauto.
Qed.

Lemma Qle_bool_abs_neg (x c : Q) :
  (x < 0)%Q -> (c < 0)%Q ->
  Qle_bool (Qabs c) (Qabs x) = Qle_bool x c.
Proof.
  intros Hx Hc. apply eq_true_iff_eq. rewrite !Qle_bool_iff.
  rewrite (Qabs_neg x), (Qabs_neg c) by lra. split; intros; lra.
Qed.

(** The first five of a side of [movers]: sorting by size of change and
    then keeping one sign is sorting that sign alone. *)
Lemma movers_side (q : Q -> bool) (reverse : bool) (ms : list Mover.t)
    (items : list AItem.t) :
  filter (fun p => q (snd p)) (map shown_mover ms)
  = filter (fun p => q (snd p)) (map shown_item items) ->
  (forall x, q x = true -> negb (Qeq_bool x 0) = true) ->
  (forall x c, q x = true -> q c = true ->
     Qle_bool (Qabs c) (Qabs x)
     = if reverse then Qle_bool c x else Qle_bool x c) ->
  map shown_mover
    (firstn 5
       (filter (fun m => q (Mover.change_pct m))
          (sorted_by (fun m => Qabs (Mover.change_pct m)) true ms)))
  = map shown_item
      (firstn 5
         (sorted_by AItem.change_pct reverse
            (filter (fun x => q (AItem.change_pct x))
               (filter (fun x => negb (Qeq_bool (AItem.change_pct x) 0))
                  items)))).
Proof.
  intros Hf Hnz Hcmp. unfold sorted_by.
  rewrite <- !firstn_map. f_equal.
  set (b_abs := fun x c : Row.t * Q => Qle_bool (Qabs (snd c)) (Qabs (snd x))).
  set (b_dir := fun x c : Row.t * Q =>
                  if reverse then Qle_bool (snd c) (snd x)
                  else Qle_bool (snd x) (snd c)).
  transitivity (insertion_sort b_dir
                  (filter (fun p => q (snd p)) (map shown_item items))).
  - rewrite <- Hf.
    rewrite <- (insertion_sort_ext_in b_abs b_dir).
    + rewrite <- (filter_insertion_sort (Row.t * Q) b_abs).
      * rewrite <- (map_insertion_sort Mover.t (Row.t * Q) shown_mover
                      (fun x c => Qle_bool (Qabs (Mover.change_pct c))
                                           (Qabs (Mover.change_pct x)))
                      b_abs) by reflexivity.
        rewrite (filter_map_comm Mover.t (Row.t * Q) shown_mover).
        reflexivity.
      * intros x y. unfold b_abs. rewrite !Qle_bool_iff.
        destruct (Qlt_le_dec (Qabs (snd x)) (Qabs (snd y)));
          auto using Qlt_le_weak.
      * intros x y z. unfold b_abs. rewrite !Qle_bool_iff. intros. lra.
    + intros x y Hx Hy. apply filter_In in Hx, Hy.
      unfold b_abs, b_dir. apply Hcmp; tauto.
  - rewrite (filter_filter_implied
               (fun x => q (AItem.change_pct x))
               (fun x => negb (Qeq_bool (AItem.change_pct x) 0)))
      by (intros x; apply Hnz).
    rewrite (filter_map_comm AItem.t (Row.t * Q) shown_item).
    rewrite <- (map_insertion_sort AItem.t (Row.t * Q) shown_item
                  (fun x c => if reverse
                              then Qle_bool (AItem.change_pct c)
                                            (AItem.change_pct x)
                              else Qle_bool (AItem.change_pct x)
                                            (AItem.change_pct c))
                  b_dir).
    + reflexivity.
    + intros x y. unfold b_dir. reflexivity.
Qed.

(** X18.  The terminal's [movers] command and the dashboard's analysis
    show the same gainers and the same losers, row for row and percentage
    for percentage, although one sorts every mover by the size of its
    change before splitting and the other splits before sorting. *)
Theorem movers_agree (rows : list Row.t) (stats : Stats.t)
    (a : Analysis.t) :
  analyze rows stats = Ok a ->
  exists gainers losers,
    movers rows = Ok (gainers, losers)
    /\ map shown_mover gainers = map shown_item (Analysis.gainers a)
    /\ map shown_mover losers = map shown_item (Analysis.losers a).
Proof.
  intros H.
  destruct (analysis_views rows stats a H)
    as (items & Hi & _ & _ & -> & -> & _).
  destruct (movers_list_items (fun x => Qltb 0 x) rows items eq_refl Hi)
    as (ms & Hm & Hpos).
  destruct (movers_list_items (fun x => Qltb x 0) rows items eq_refl Hi)
    as (ms' & Hm' & Hneg).
  rewrite Hm in Hm'. injection Hm' as <-.
  unfold movers. rewrite Hm. cbn [bind].
  eexists _, _. split; [reflexivity|]. split.
  - apply (movers_side (fun x => Qltb 0 x) true ms items Hpos).
    + intros x Hx. apply Qltb_iff in Hx. apply truthy_q_iff. lra.
    + intros x c Hx Hc. apply Qltb_iff in Hx, Hc.
      apply Qle_bool_abs_pos; assumption.
  - apply (movers_side (fun x => Qltb x 0) false ms items Hneg).
    + intros x Hx. apply Qltb_iff in Hx. apply truthy_q_iff. lra.
    + intros x c Hx Hc. apply Qltb_iff in Hx, Hc.
      apply Qle_bool_abs_neg; assumption.
Qed.

Lemma movers_agree_witness :
  exists gainers losers,
    movers [row_a; row_b] = Ok (gainers, losers)
    /\ map shown_mover gainers = map shown_item (Analysis.gainers analysis_ab)
    /\ map shown_mover losers = map shown_item (Analysis.losers analysis_ab).
Proof.
  exact (movers_agree [row_a; row_b] stats_ab analysis_ab eq_refl).
Defined.

Lemma list_entry_of_item (r : Row.t) (x : AItem.t) :
  analyze_item r = Ok x -> list_entry r = Ok (entry_of_item x).
Proof.
  intros Hx. unfold analyze_item in Hx. unfold list_entry.
  destruct (Row.previous_price r) as [pv|];
    destruct (Row.current_price r) as [cu|];
    try (cbn [bind] in Hx;
         destruct (match Item.cost_basis (Row.item r) with
                   | Some _ => _
                   | None => _
                   end) as [[? ?]|?]; [|discriminate];
         cbn [bind] in Hx; injection Hx as <-; reflexivity).
  destruct (truthy_q pv) eqn:Tp; destruct (truthy_q cu) eqn:Tc;
    cbn [andb] in *;
    rewrite ?(py_div_truthy _ _ Tp) in *; cbn [bind] in Hx;
    destruct (match Item.cost_basis (Row.item r) with
              | Some _ => _
              | None => _
              end) as [[? ?]|?]; try discriminate;
    cbn [bind] in Hx; injection Hx as <-; reflexivity.
Qed.

Lemma list_entries_of_items (rows : list Row.t) (items : list AItem.t) :
  map_result analyze_item rows = Ok items ->
  map_result list_entry rows = Ok (map entry_of_item items).
Proof.
  revert items. induction rows as [|r rows IH]; intros items H.
  - simpl in H. injection H as <-. reflexivity.
  - cbn [map_result] in H.
    destruct (analyze_item r) as [x|e] eqn:Ex; [|discriminate].
    cbn [bind] in H.
    destruct (map_result analyze_item rows) as [items'|e] eqn:Ei;
      [|discriminate].
    cbn [bind] in H. injection H as <-.
    cbn [map_result]. rewrite (list_entry_of_item r x Ex). cbn [bind].
    rewrite (IH items' eq_refl). reflexivity.
Qed.

(** X19.  The first ten rows of the terminal's [list] in its default order
    are the dashboard's top holdings, with the same value, change and
    percentage on every row. *)
Theorem list_top_holdings {L : Lower} (rows : list Row.t)
    (stats : Stats.t) (a : Analysis.t) :
  analyze rows stats = Ok a ->
  exists entries,
    list_cmd by_value rows = Ok entries
    /\ firstn 10 entries = map entry_of_item (Analysis.top_holdings a).
Proof.
  intros H.
  destruct (analysis_views rows stats a H) as (items & Hi & _ & -> & _).
  unfold list_cmd. rewrite (list_entries_of_items rows items Hi).
  cbn [bind]. eexists. split; [reflexivity|].
  rewrite <- firstn_map. f_equal. unfold sorted_by.
  symmetry. apply map_insertion_sort. reflexivity.
Qed.

Lemma list_top_holdings_witness :
  exists entries,
    list_cmd (L := ascii_text) by_value [row_a; row_b] = Ok entries
    /\ firstn 10 entries
       = map entry_of_item (Analysis.top_holdings analysis_ab).
Proof.
  exact (list_top_holdings (L := ascii_text) [row_a; row_b] stats_ab
           analysis_ab eq_refl).
Defined.

Lemma NoDup_map_eq {A B : Type} (f : A -> B) (l : list A) (a b : A) :
  NoDup (map f l) -> In a l -> In b l -> f a = f b -> a = b.
Proof.
  induction l as [|x l IH]; simpl; intros N Ha Hb E; [contradiction|].
  inversion N as [|? ? Hnot N']; subst.
  destruct Ha as [->|Ha]; destruct Hb as [->|Hb].
  - reflexivity.
  - exfalso. apply Hnot. rewrite E. apply in_map. exact Hb.
  - exfalso. apply Hnot. rewrite <- E. apply in_map. exact Ha.
  - apply IH; assumption.
Qed.


(** ** Repeating an upsert *)

Lemma same_but_updated_at_refl (r : Item.t) : same_but_updated_at r r.
Proof.
  unfold same_but_updated_at. repeat split.
Qed.

Lemma Forall2_update_where_id (item_id : Z) (f : Item.t -> Item.t)
    (l : list Item.t) :
  (forall x, In x l -> Item.id x = item_id ->
             same_but_updated_at x (f x)) ->
  Forall2 same_but_updated_at l (update_where_id item_id f l).
Proof.
  unfold update_where_id. induction l as [|x l IH]; intros H; simpl;
    constructor.
  - destruct (Z.eqb_spec (Item.id x) item_id) as [E|_].
    + apply H; [left; reflexivity|exact E].
    + apply same_but_updated_at_refl.
  - apply IH. intros y Hy. apply H. right. exact Hy.
Qed.

(** X22.  On a reachable store, and for a quantity within SQLite's
    signed 64-bit INTEGER range, calling [upsert_item] again with the same
    arguments returns the same id and changes nothing but the
    [updated_at] stamp of that one row, which becomes the time of the
    second call: every other column of every row, the price table and
    both AUTOINCREMENT counters are as the first call left them. *)
Theorem upsert_idempotent (a : Upsert.args) (clk clk' : Clock) (db : DB) :
  reachable db ->
  int64 (Upsert.quantity a) = true ->
  exists item_id db1 db2 r,
    upsert_item a clk db = Ok (item_id, db1)
    /\ upsert_item a clk' db1 = Ok (item_id, db2)
    /\ Forall2 same_but_updated_at (items db1) (items db2)
    /\ (forall x, In x (items db1) -> Item.id x <> item_id ->
          In x (items db2))
    /\ get_item_by_id item_id db2 = Some r
    /\ Item.updated_at r = IsoStamp (iso_now clk')
    /\ prices db2 = prices db1
    /\ items_seq db2 = items_seq db1
    /\ prices_seq db2 = prices_seq db1.
Proof.
  intros R Hq.
  destruct (upsert_item_fields a clk db Hq (reachable_key_unique db R))
    as (item_id & db1 & r & H1 & Hin & Hid & Hk & F1 & F2 & F3 & F4 & F5
        & F6 & F7 & F8).
  assert (R1 : reachable db1) by (eapply reach_upsert; eassumption).
  destruct (reachable_ids_ok db1 R1) as (N & _).
  apply key_match_iff in Hk.
  destruct (upsert_item_hit a clk' db1 r Hq (reachable_key_unique db1 R1)
              Hin Hk) as (db2 & H2 & _ & _ & Hp & _ & Hi & Hs).
  rewrite Hid in H2, Hi.
  assert (Hseq : items_seq db2 = items_seq db1).
  { destruct (upsert_item_cases a clk' db1 db2 item_id H2)
      as (_ & [(_ & ->)|(E & _)]); [reflexivity|].
    unfold select_item_id in E.
    rewrite (key_unique_filter a db1 r (reachable_key_unique db1 R1)
               Hin Hk) in E. discriminate. }
  assert (R2 : reachable db2) by (eapply reach_upsert; eassumption).
  destruct (reachable_ids_ok db2 R2) as (N2 & _).
  assert (Hin2 : In (set_upsert a clk' r) (items db2)).
  { rewrite Hi. apply in_update_where_id. exists r.
    split; [exact Hin|]. rewrite Hid, Z.eqb_refl. reflexivity. }
  exists item_id, db1, db2, (set_upsert a clk' r).
  split; [exact H1|]. split; [exact H2|]. split.
  - rewrite Hi. apply Forall2_update_where_id. intros x Hx Ex.
    rewrite <- Hid in Ex.
    rewrite (NoDup_map_eq Item.id (items db1) x r N Hx Hin Ex).
    unfold same_but_updated_at, set_upsert, natural_key. cbn.
    rewrite F1, F2, F3, F4, F5, F6, F7.
    repeat split.
    destruct (Upsert.api_id a) as [v|] eqn:Ea; [|reflexivity].
    cbn. symmetry. apply F8. discriminate.
  - split.
    { intros x Hx Nx. rewrite Hi. apply in_update_where_id. exists x.
      split; [exact Hx|].
      destruct (Z.eqb_spec (Item.id x) item_id); [contradiction|reflexivity]. }
    split.
    { rewrite <- Hid.
      change (Item.id r) with (Item.id (set_upsert a clk' r)).
      apply get_item_by_id_stored; assumption. }
    split; [reflexivity|]. split; [exact Hp|]. split; [exact Hseq|exact Hs].
Qed.

Lemma upsert_idempotent_witness :
  exists item_id db1 db2 r,
    upsert_item (pikachu 2 None) noon resolved_db = Ok (item_id, db1)
    /\ upsert_item (pikachu 2 None) noon db1 = Ok (item_id, db2)
    /\ Forall2 same_but_updated_at (items db1) (items db2)
    /\ (forall x, In x (items db1) -> Item.id x <> item_id ->
          In x (items db2))
    /\ get_item_by_id item_id db2 = Some r
    /\ Item.updated_at r = IsoStamp (iso_now noon)
    /\ prices db2 = prices db1
    /\ items_seq db2 = items_seq db1
    /\ prices_seq db2 = prices_seq db1.
Proof.
  exact (upsert_idempotent (pikachu 2 None) noon noon resolved_db
           resolved_db_reachable eq_refl).
Defined.

(** ** The refresh command *)

Lemma update_card_effect (item : Item.t) (api_id : option string)
    (price : option Q) (clk clk' : Clock) (db : DB) :
  let db' := update_card item api_id price clk clk' db in
  map Item.id (items db') = map Item.id (items db)
  /\ match price with
     | Some v =>
         exists p, prices db' = (prices db ++ [p])%list
                   /\ Price.item_id p = Item.id item /\ Price.price p = v
     | None => db' = db
     end.
Proof.
  unfold update_card. destruct price as [v|]; [|split; reflexivity].
  split.
  - cbn [record_price items].
    destruct api_id as [a|]; [|reflexivity].
    destruct (truthy_str a && negb (truthy_ostr (Item.api_id item)));
      [|reflexivity].
    cbn [update_item_api_id items]. apply update_where_id_ids.
    intros r. reflexivity.
  - exists (Price.mk
              (next_rowid (prices_seq db) (map Price.id (prices db)))
              (Item.id item) v (sql_now clk')).
    split; [|split; reflexivity].
    unfold record_price. cbn [prices].
    destruct api_id as [a|]; [|reflexivity].
    destruct (truthy_str a && negb (truthy_ostr (Item.api_id item)));
      reflexivity.
Qed.

Lemma update_loop_spec (cards : list Item.t)
    (lookup : Z -> Item.t -> option string * option Q)
    (clock : Z -> Clock * Clock) :
  forall (i : Z) (st : UpdateStats.t) (db : DB),
    let r := update_loop i cards lookup clock st db in
    UpdateStats.updated (fst r) + UpdateStats.failed (fst r)
    = UpdateStats.updated st + UpdateStats.failed st
      + Z.of_nat (List.length cards)
    /\ UpdateStats.updated st <= UpdateStats.updated (fst r)
    /\ Z.of_nat (List.length (UpdateStats.failed_items (fst r)))
       = Z.of_nat (List.length (UpdateStats.failed_items st))
         + (UpdateStats.failed (fst r) - UpdateStats.failed st)
    /\ Z.of_nat (List.length (prices (snd r)))
       = Z.of_nat (List.length (prices db))
         + (UpdateStats.updated (fst r) - UpdateStats.updated st)
    /\ map Item.id (items (snd r)) = map Item.id (items db)
    /\ (forall p, In p (prices (snd r)) ->
          In p (prices db)
          \/ exists c, In c cards /\ Price.item_id p = Item.id c).
Proof.
  induction cards as [|c cards IH]; intros i st db r.
  - subst r. simpl. split; [lia|]. split; [lia|]. split; [lia|].
    split; [lia|]. split; [reflexivity|]. intros p Hp. left. exact Hp.
  - subst r. cbn [update_loop].
    destruct (lookup i c) as [api_id price] eqn:L.
    set (db1 := update_card c api_id price (fst (clock i)) (snd (clock i)) db).
    set (st1 := match price with
                | Some _ => _
                | None => _
                end).
    destruct (IH (i + 1) st1 db1) as (A & B & C & D & E & F).
    destruct (update_card_effect c api_id price (fst (clock i))
                (snd (clock i)) db) as (Hid & Hp).
    fold db1 in Hid, Hp.
    assert (S1 : UpdateStats.updated st1 + UpdateStats.failed st1
                 = UpdateStats.updated st + UpdateStats.failed st + 1
                 /\ UpdateStats.updated st <= UpdateStats.updated st1
                 /\ Z.of_nat (List.length (UpdateStats.failed_items st1))
                    = Z.of_nat (List.length (UpdateStats.failed_items st))
                      + (UpdateStats.failed st1 - UpdateStats.failed st)
                 /\ Z.of_nat (List.length (prices db1))
                    = Z.of_nat (List.length (prices db))
                      + (UpdateStats.updated st1 - UpdateStats.updated st)).
    { subst st1. destruct price as [v|];
        cbn [UpdateStats.updated UpdateStats.failed
             UpdateStats.failed_items].
      - destruct Hp as (p & Hp & _). rewrite Hp, length_app. simpl.
        repeat split; lia.
      - rewrite Hp, length_app. simpl. repeat split; lia. }
    destruct S1 as (S1 & S2 & S3 & S4).
    split; [rewrite A, S1; simpl List.length; lia|].
    split; [lia|]. split; [lia|]. split; [lia|].
    split; [rewrite E; exact Hid|].
    intros p Hin. destruct (F p Hin) as [Hin1|(c' & Hc' & Ec')].
    + destruct price as [v|].
      * destruct Hp as (p0 & Hp0 & Hi0 & _). rewrite Hp0 in Hin1.
        apply in_app_or in Hin1. destruct Hin1 as [Hin1|[<-|[]]].
        -- left. exact Hin1.
        -- right. exists c. split; [left; reflexivity|exact Hi0].
      * rewrite Hp in Hin1. left. exact Hin1.
    + right. exists c'. split; [right; exact Hc'|exact Ec'].
Qed.

(** X20.  [update] counts every card once, as updated or as failed, lists
    as many failed cards as it counts, and stores one observation per
    updated card.  It adds and removes no item, and every observation it
    stores belongs to a row it was given whose sealed flag is 0: a sealed
    product is never priced by a refresh. *)
Theorem update_accounting (all : list Item.t)
    (lookup : Z -> Item.t -> option string * option Q)
    (clock : Z -> Clock * Clock) (db : DB) :
  let st := fst (update all lookup clock db) in
  let db' := snd (update all lookup clock db) in
  let cards := filter (fun i => Item.is_sealed i =? 0) all in
  UpdateStats.updated st + UpdateStats.failed st
  = Z.of_nat (List.length cards)
  /\ 0 <= UpdateStats.updated st
  /\ Z.of_nat (List.length (UpdateStats.failed_items st))
     = UpdateStats.failed st
  /\ Z.of_nat (List.length (prices db'))
     = Z.of_nat (List.length (prices db)) + UpdateStats.updated st
  /\ map Item.id (items db') = map Item.id (items db)
  /\ (forall p, In p (prices db') ->
        In p (prices db)
        \/ exists c, In c all /\ Item.is_sealed c = 0
                     /\ Price.item_id p = Item.id c).
Proof.
  intros st db' cards. subst st db'. unfold update. fold cards.
  destruct (update_loop_spec cards lookup clock 0
              (UpdateStats.mk 0 0 []) db) as (A & B & C & D & E & F).
  cbn [UpdateStats.updated UpdateStats.failed UpdateStats.failed_items
       List.length] in A, B, C, D.
  split; [lia|]. split; [lia|]. split; [lia|]. split; [lia|].
  split; [exact E|].
  intros p Hp. destruct (F p Hp) as [H|(c & Hc & Ec)]; [left; exact H|].
  right. exists c. subst cards. apply filter_In in Hc.
  destruct Hc as (Hc & Hs). apply Z.eqb_eq in Hs. auto.
Qed.

Lemma update_card_keeps (c x : Item.t) (api_id : option string)
    (price : option Q) (clk clk' : Clock) (db : DB) :
  (Item.id c = Item.id x -> truthy_ostr (Item.api_id c) = true) ->
  In x (items db) ->
  In x (items (update_card c api_id price clk clk' db)).
Proof.
  intros Hc Hx. unfold update_card. destruct price as [v|]; [|exact Hx].
  cbn [record_price items]. destruct api_id as [a|]; [|exact Hx].
  destruct (truthy_ostr (Item.api_id c)) eqn:T.
  - rewrite andb_false_r. exact Hx.
  - destruct (truthy_str a); [|exact Hx]. cbn [andb negb].
    cbn [update_item_api_id items]. apply in_update_where_id.
    exists x. split; [exact Hx|].
    destruct (Z.eqb_spec (Item.id x) (Item.id c)) as [E|_]; [|reflexivity].
    symmetry in E. specialize (Hc E). discriminate.
Qed.

Lemma update_loop_keeps (x : Item.t) (cards : list Item.t)
    (lookup : Z -> Item.t -> option string * option Q)
    (clock : Z -> Clock * Clock) :
  (forall c, In c cards -> Item.id c = Item.id x ->
             truthy_ostr (Item.api_id c) = true) ->
  forall (i : Z) (st : UpdateStats.t) (db : DB),
    In x (items db) ->
    In x (items (snd (update_loop i cards lookup clock st db))).
Proof.
  induction cards as [|c cards IH]; intros Hc i st db Hx; [exact Hx|].
  cbn [update_loop]. destruct (lookup i c) as [api_id price].
  apply IH.
  - intros c' Hc'. apply Hc. right. exact Hc'.
  - apply update_card_keeps; [|exact Hx]. apply Hc. left. reflexivity.
Qed.

(** X21.  A refresh leaves every item that already has an api id exactly
    as it is stored, whatever the lookups return: unlike [upsert_item],
    [update] writes an api id only where there is none. *)
Theorem update_keeps_resolved (db : DB) (all : list Item.t)
    (lookup : Z -> Item.t -> option string * option Q)
    (clock : Z -> Clock * Clock) (x : Item.t) :
  reachable db ->
  (forall c, In c all -> In c (items db)) ->
  In x (items db) ->
  truthy_ostr (Item.api_id x) = true ->
  In x (items (snd (update all lookup clock db))).
Proof.
  intros R Hall Hx T. unfold update. apply update_loop_keeps; [|exact Hx].
  intros c Hc E. apply filter_In in Hc. destruct Hc as (Hc & _).
  destruct (reachable_ids_ok db R) as (N & _).
  rewrite (NoDup_map_eq Item.id (items db) c x N (Hall c Hc) Hx E).
  exact T.
Qed.

Lemma update_keeps_resolved_witness :
  In resolved_item
     (items (snd (update [resolved_item]
                    (fun _ _ => (Some "swsh1-1", Some 3%Q))
                    (fun _ => (noon, noon)) resolved_db))).
Proof.
  apply (update_keeps_resolved resolved_db [resolved_item]
           (fun _ _ => (Some "swsh1-1", Some 3%Q))
           (fun _ => (noon, noon)) resolved_item resolved_db_reachable).
  - intros c Hc. exact Hc.
  - left. reflexivity.
  - reflexivity.
Defined.

(** ** Remarks on tied timestamps *)

(** [CURRENT_TIMESTAMP] has a resolution of one second.  Observations of
    one item recorded within the same second all sit at the item's latest
    timestamp: the joins keep each of them, so [get_all_items] returns one
    row per tied observation and the value sums count the item once per
    tied observation. *)
Example tied_timestamps_rows :
  map (fun r => (Row.current_price r, Row.previous_price r))
      (get_all_items tied_db)
  = [(Some 10%Q, None); (Some 12%Q, None)].
Proof. reflexivity. Qed.

Example tied_timestamps_total :
  select_total_value tied_db = Some (inject_Z 1 * 10 + inject_Z 1 * 12)%Q.
Proof. reflexivity. Qed.
